(** * SQLite forensic analyzer: a shallow embedding of [sqlite_parser.py]
      and of the helpers of [main.py] that work on bytes and tables
      ([calculate_entropy], the histogram, the entropy profile,
      [validate_sqlite_database], [calculate_file_hashes]), with the
      properties of the decoding, classification and byte-inspection
      engine.

    Conventions of the embedding.
    - Python [bytes] are [list byte]; Python [int] is [Z].
    - Python [str] is [string] (8-bit characters); [str.lower] folds the
      letters A-Z only, code points above 127 are not modelled.
    - The object [self] is the record [Parser]; every method takes the
      parser and returns the updated parser next to its outcome.
    - The file on disk is a [File]: readable content or an I/O failure;
      what the file system and the allocator allow a file object is a
      [Platform].
    - The [sqlite3] connection is an [Engine]: a record of the answers the
      engine gives to the statements the parser sends.
    - Python [float] is a binary64 number of IEEE 754, [spec_float] with
      a precision of 53 bits; [math.log2] is a function of the C library,
      taken as given.
    - A raised exception is the [Raise] outcome of type [outcome]. *)

From Stdlib Require Import ZArith List String Ascii Strings.Byte Lia Bool.
From Stdlib Require Import Numbers.DecimalString Numbers.HexadecimalString.
From Stdlib Require Import Floats.SpecFloat Permutation.
From stdpp Require Import gmap strings list fin_maps.
Import ListNotations.

Local Open Scope Z_scope.

(** ** Bytes and text *)

Definition byte_val (b : byte) : Z := Z.of_N (Byte.to_N b).

(** [data[i:j]] for [0 <= i <= j]. *)
Definition slice {A} (l : list A) (i j : nat) : list A :=
  firstn (j - i) (skipn i l).

(** [data[i]] of a byte string known to be long enough. *)
Definition byte_at (l : list byte) (i : nat) : byte := nth i l x00.

(** [struct.unpack('>H', bs)[0]] and [struct.unpack('>I', bs)[0]]:
    the big-endian unsigned value of the bytes. *)
Definition unpack_be (bs : list byte) : Z :=
  fold_left (fun acc b => acc * 256 + byte_val b) bs 0.

Definition hex_digit (n : N) : ascii :=
  match n with
  | 0%N => "0" | 1%N => "1" | 2%N => "2" | 3%N => "3" | 4%N => "4"
  | 5%N => "5" | 6%N => "6" | 7%N => "7" | 8%N => "8" | 9%N => "9"
  | 10%N => "a" | 11%N => "b" | 12%N => "c" | 13%N => "d" | 14%N => "e"
  | _ => "f"
  end%char.

(** The two lowercase hex digits of one byte. *)
Definition hex_pair (b : byte) : string :=
  String (hex_digit (Byte.to_N b / 16)) (String (hex_digit (Byte.to_N b mod 16)) EmptyString).

(** [binascii.hexlify(bs).decode('ascii')]. *)
Fixpoint hexlify (bs : list byte) : string :=
  match bs with
  | [] => EmptyString
  | b :: bs' => String.append (hex_pair b) (hexlify bs')
  end.

(** [hex(n)]. *)
Definition hex (n : Z) : string :=
  let digits := HexadecimalString.NilZero.string_of_uint (N.to_hex_uint (Z.abs_N n)) in
  if n <? 0 then String.append "-0x" digits else String.append "0x" digits.

(** [str(n)] of an integer, as an f-string prints it. *)
Definition str_of_int (n : Z) : string :=
  DecimalString.NilZero.string_of_int (Z.to_int n).

(** [chr(b) if 32 <= b <= 126 else '.'] *)
Definition printable (b : byte) : ascii :=
  if (32 <=? byte_val b) && (byte_val b <=? 126) then ascii_of_byte b else "."%char.

(** [''.join(chr(b) if 32 <= b <= 126 else '.' for b in bs)] *)
Fixpoint ascii_or_dot (bs : list byte) : string :=
  match bs with
  | [] => EmptyString
  | b :: bs' => String (printable b) (ascii_or_dot bs')
  end.

(** [sep.join(parts)] *)
Fixpoint join (sep : string) (parts : list string) : string :=
  match parts with
  | [] => EmptyString
  | [p] => p
  | p :: ps => String.append p (String.append sep (join sep ps))
  end.

Definition lower_char (c : ascii) : ascii :=
  let n := nat_of_ascii c in
  if (65 <=? n)%nat && (n <=? 90)%nat then ascii_of_nat (n + 32) else c.

(** [s.lower()] *)
Fixpoint lower (s : string) : string :=
  match s with
  | EmptyString => EmptyString
  | String c s' => String (lower_char c) (lower s')
  end.

(** [s.startswith(p)] *)
Definition startswith (s p : string) : bool := String.prefix p s.

(** [p in s] on strings. *)
Fixpoint contains (s p : string) : bool :=
  String.prefix p s ||
  match s with
  | EmptyString => false
  | String _ s' => contains s' p
  end.

(** [os.path.basename(path)]: what follows the last slash. *)
Fixpoint basename (path : string) : string :=
  match path with
  | EmptyString => EmptyString
  | String c rest =>
      if contains rest "/" then basename rest
      else if Ascii.eqb c "/" then rest else path
  end.

(** [bs.startswith(p)] on byte strings. *)
Fixpoint bytes_startswith (bs p : list byte) : bool :=
  match p, bs with
  | [], _ => true
  | _ :: _, [] => false
  | x :: p', y :: bs' => Byte.eqb x y && bytes_startswith bs' p'
  end.

(** ** Exceptions, files and the engine *)

Inductive exn : Type :=
| ValueError (msg : string)
| SqliteError (msg : string)        (* sqlite3.Error *)
| OSError (msg : string)
| BinasciiError (msg : string)      (* binascii.Error *)
| AttributeError (msg : string)
| ZeroDivisionError (msg : string)
| OverflowError (msg : string)
| MemoryError (msg : string).

(** [str(e)] *)
Definition exn_str (e : exn) : string :=
  match e with
  | ValueError m | SqliteError m | OSError m | BinasciiError m
  | AttributeError m | ZeroDivisionError m | OverflowError m | MemoryError m => m
  end.

Inductive outcome (A : Type) : Type :=
| Return (a : A)
| Raise (e : exn).
Arguments Return {A} a.
Arguments Raise {A} e.

(** What [open(self.db_path, 'rb')] finds. *)
Inductive File : Type :=
| Readable (content : list byte)
| Unreadable (err : string).

(** [open(path, 'rb')] followed by reads: the content, or [OSError]. *)
Definition open_rb (f : File) : outcome (list byte) :=
  match f with
  | Readable c => Return c
  | Unreadable m => Raise (OSError m)
  end.

(** What the machine allows a file object: the largest offset that the
    file system of the file takes in [lseek], and whether the buffer for
    a read of so many bytes can be had. *)
Record Platform : Type := {
  max_offset : Z;
  can_allocate : Z -> bool
}.

(** A value stored in a row. *)
Inductive value : Type :=
| VNull
| VInt (n : Z)
| VText (s : string)
| VBlob (bs : list byte).

(** One [sqlite3.Row]: the columns in order, with their values. *)
Definition Row : Type := list (string * value).

(** One row of [PRAGMA table_info]. *)
Record ColumnRow : Type := {
  cr_name : string;
  cr_type : string;
  cr_notnull : Z;
  cr_dflt_value : option string;
  cr_pk : Z
}.

(** One row of [sqlite_master]: [name, tbl_name, sql]. *)
Record MasterRow : Type := {
  mr_name : string;
  mr_tbl_name : string;
  mr_sql : option string
}.

(** The answers of the engine behind [self.connection]. Every statement
    either answers or raises [sqlite3.Error] with a message.
    [can_connect] is the answer of [sqlite3.connect] to the path of the
    file: a connection, or [sqlite3.Error]. A call that ends in another
    way, as in [ValueError] for a path that holds a NUL byte, which no
    method catches, is not among the answers of this record; what is
    proved of a method that connects is proved for these two answers. *)
Record Engine : Type := {
  can_connect : bool;
  master_tables : string + list MasterRow;
  master_indices : string + list MasterRow;
  master_triggers : string + list MasterRow;
  pragma_table_info : string -> string + list ColumnRow;
  select_count_all : string -> string + Z;
  select_sample : string -> string + list Row;
  pragma_freelist_count : string + option Z;
  lookup_table : string -> string + bool;
  (* an arbitrary statement with bound parameters *)
  execute_count : string -> list string -> string + Z;
  execute_rows : string -> list string -> string + list Row
}.

(** The answer of a statement as an outcome. *)
Definition sql {A} (r : string + A) : outcome A :=
  match r with
  | inl m => Raise (SqliteError m)
  | inr a => Return a
  end.

(** ** The parser object *)

(** The dictionary built by [parse_header]. *)
Record HeaderData : Type := {
  signature : string;
  hd_page_size : Z;
  file_format_write_version : Z;
  file_format_read_version : Z;
  reserved_space : Z;
  max_payload_fraction : Z;
  min_payload_fraction : Z;
  leaf_payload_fraction : Z;
  file_change_counter : Z;
  database_size_pages : Z;
  first_freelist_trunk_page : Z;
  total_freelist_pages : Z;
  schema_cookie : Z;
  schema_format : Z;
  default_page_cache_size : Z;
  largest_root_btree_page : Z;
  text_encoding : string;
  hd_user_version : Z;
  vacuum_mode : Z;
  hd_application_id : string;
  version_valid_for : Z;
  sqlite_version_number : Z
}.

Record ColumnInfo : Type := {
  col_name : string;
  col_type : string;
  not_null : bool;
  default_value : option string;
  primary_key : bool
}.

(** An entry of a table's ['indices'] or ['triggers'] list. *)
Record Attached : Type := {
  att_name : string;
  att_sql : option string
}.

(** An entry of [tables]. The keys ['indices'] and ['triggers'] exist only
    once something was appended to them. *)
Record TableInfo : Type := {
  t_sql : option string;
  columns : list ColumnInfo;
  row_count : Z;
  sample_rows : list (gmap string value);
  indices : option (list Attached);
  triggers : option (list Attached)
}.

(** An entry of the index map and of the trigger map. *)
Record OwnedBy : Type := {
  ob_table : string;
  ob_sql : option string
}.

Record Schema : Type := {
  s_tables : gmap string TableInfo;
  s_indices : gmap string OwnedBy;
  s_triggers : gmap string OwnedBy
}.

(** An element of the list built by [search_for_deleted_records]. *)
Inductive DeletedRecord : Type :=
| FreelistPages (count : Z)                     (* 'type': 'freelist_pages' *)
| DeletionError (note : string)                 (* 'type': 'error' *)
| SlackSpace (offset : string) (size : Z).      (* 'type': 'slack_space' *)

(** The fields of [self] the modelled methods read or write.
    [p_schema = None] is the empty dictionary [{}]. *)
Record Parser : Type := {
  db_path : string;
  file_size : Z;
  header_data : option HeaderData;
  page_size : Z;
  encoding : option string;
  user_version : Z;
  application_id : Z;
  schema_version : Z;
  p_schema : option Schema;
  artifact_type : option string;
  connection : bool
}.

(** [os.path.getsize(db_path) if os.path.exists(db_path) else 0] *)
Definition getsize (f : File) : Z :=
  match f with
  | Readable c => Z.of_nat (List.length c)
  | Unreadable _ => 0
  end.

(** [SqliteForensicParser(db_path)] *)
Definition init (path : string) (f : File) : Parser :=
  {| db_path := path; file_size := getsize f; header_data := None;
     page_size := 0; encoding := None; user_version := 0;
     application_id := 0; schema_version := 0; p_schema := None;
     artifact_type := None; connection := false |}.

(** The world a method runs in: the object, the file and the engine. *)
Record State : Type := {
  self : Parser;
  disk : File;
  engine : Engine
}.

(** A method: from a state to an outcome and the state it leaves. *)
Definition M (A : Type) : Type := State -> outcome A * State.

Definition ret {A} (a : A) : M A := fun s => (Return a, s).
Definition raise {A} (e : exn) : M A := fun s => (Raise e, s).

Definition bind {A B} (m : M A) (k : A -> M B) : M B :=
  fun s =>
    match m s with
    | (Return a, s') => k a s'
    | (Raise e, s') => (Raise e, s')
    end.

Notation "x <- m ;; k" := (bind m (fun x => k))
  (at level 100, m at level 99, right associativity).
Notation "m ;;; k" := (bind m (fun _ => k))
  (at level 100, right associativity).

(** [try: m  except handled: h]. An exception outside [handled] goes on. *)
Definition try_except {A} (m : M A) (handled : exn -> bool) (h : exn -> M A) : M A :=
  fun s =>
    match m s with
    | (Return a, s') => (Return a, s')
    | (Raise e, s') => if handled e then h e s' else (Raise e, s')
    end.

(** [except sqlite3.Error] *)
Definition is_sqlite_error (e : exn) : bool :=
  match e with SqliteError _ => true | _ => false end.

(** [except Exception] *)
Definition is_exception (e : exn) : bool := true.

Definition get_self : M Parser := fun s => (Return (self s), s).
Definition put_self (p : Parser) : M unit :=
  fun s => (Return tt, {| self := p; disk := disk s; engine := engine s |}).

(** [with open(self.db_path, 'rb') as f: f.read()] *)
Definition read_all : M (list byte) := fun s => (open_rb (disk s), s).

(** A statement sent to the engine through the cursor. *)
Definition query {A} (stmt : Engine -> string + A) : M A :=
  fun s => (sql (stmt (engine s)), s).

(** A loop [for x in xs] over a local accumulator. *)
Fixpoint for_each {A B} (xs : list A) (acc : B) (body : B -> A -> M B) : M B :=
  match xs with
  | [] => ret acc
  | x :: xs' => acc' <- body acc x ;; for_each xs' acc' body
  end.

(** ** [parse_header] *)

Definition SQLITE_SIGNATURE : list byte :=
  list_byte_of_string "SQLite format 3" ++ [x00].

(** The two [ValueError]s of [parse_header]. *)
Definition too_short_error : exn :=
  ValueError "File too small to be a valid SQLite database".
Definition bad_signature_error : exn :=
  ValueError "Not a valid SQLite database (incorrect signature)".

Definition decode_encoding (b : Z) : string :=
  if b =? 1 then "UTF-8" else if b =? 2 then "UTF-16le"
  else if b =? 3 then "UTF-16be" else "Unknown".

Definition u32 (header : list byte) (i : nat) : Z := unpack_be (slice header i (i + 4)).
Definition u8 (header : list byte) (i : nat) : Z := byte_val (byte_at header i).

Definition parse_header : M HeaderData :=
  content <- read_all ;;
  let header := firstn 100 content in
  if (Z.of_nat (List.length header) <? 100) then
    raise too_short_error
  else if negb (bytes_startswith header SQLITE_SIGNATURE) then
    raise bad_signature_error
  else
    let raw := unpack_be (slice header 16 18) in
    let ps := if raw =? 1 then 65536 else raw in
    let enc := decode_encoding (u8 header 56) in
    let uv := u32 header 60 in
    let app := u32 header 68 in
    let sv := u32 header 96 in
    let hd :=
      {| signature := hexlify (slice header 0 16);
         hd_page_size := ps;
         file_format_write_version := u8 header 18;
         file_format_read_version := u8 header 19;
         reserved_space := u8 header 20;
         max_payload_fraction := u8 header 21;
         min_payload_fraction := u8 header 22;
         leaf_payload_fraction := u8 header 23;
         file_change_counter := u32 header 24;
         database_size_pages := u32 header 28;
         first_freelist_trunk_page := u32 header 32;
         total_freelist_pages := u32 header 36;
         schema_cookie := u32 header 40;
         schema_format := u8 header 44;
         default_page_cache_size := u32 header 48;
         largest_root_btree_page := u32 header 52;
         text_encoding := enc;
         hd_user_version := uv;
         vacuum_mode := u32 header 64;
         hd_application_id := hex app;
         version_valid_for := u32 header 92;
         sqlite_version_number := sv |} in
    p <- get_self ;;
    put_self {| db_path := db_path p; file_size := file_size p;
                header_data := Some hd; page_size := ps;
                encoding := Some enc; user_version := uv;
                application_id := app; schema_version := sv;
                p_schema := p_schema p; artifact_type := artifact_type p;
                connection := connection p |} ;;;
    ret hd.

(** [connect_to_db]: the connection [sqlite3.connect] gives is stored and
    [True] returned; [sqlite3.Error] is caught and [False] returned. *)
Definition set_connection (p : Parser) (c : bool) : Parser :=
  {| db_path := db_path p; file_size := file_size p;
     header_data := header_data p; page_size := page_size p;
     encoding := encoding p; user_version := user_version p;
     application_id := application_id p; schema_version := schema_version p;
     p_schema := p_schema p; artifact_type := artifact_type p;
     connection := c |}.

Definition connect_to_db : M bool :=
  fun s =>
    let ok := can_connect (engine s) in
    (Return ok, {| self := set_connection (self s) ok; disk := disk s; engine := engine s |}).

(** The guard that opens every method using the engine:
    [if not self.connection: if not self.connect_to_db(): ...].
    It answers whether a connection is available afterwards. *)
Definition ensure_connection : M bool :=
  p <- get_self ;;
  if connection p then ret true else connect_to_db.

(** ** [extract_schema] *)

Definition column_of (c : ColumnRow) : ColumnInfo :=
  {| col_name := cr_name c; col_type := cr_type c;
     not_null := negb (cr_notnull c =? 0);
     default_value := cr_dflt_value c;
     primary_key := negb (cr_pk c =? 0) |}.

(** [{key: row_data[key] for key in row_data.keys()}] *)
Definition row_dict (r : Row) : gmap string value := list_to_map r.

(** The body of the outer [try] of the table loop, up to the entry stored
    in [tables]. *)
Definition introspect_table (table_name : string) (table_sql : option string) : M TableInfo :=
  column_info <- query (fun E => pragma_table_info E table_name) ;;
  let cols := map column_of column_info in
  rc <- query (fun E => select_count_all E table_name) ;;
  samples <-
    (if rc >? 0 then
       try_except
         (sample_data <- query (fun E => select_sample E table_name) ;;
          ret (map row_dict sample_data))
         is_sqlite_error (fun _ => ret [])
     else ret []) ;;
  ret {| t_sql := table_sql; columns := cols; row_count := rc;
         sample_rows := samples; indices := None; triggers := None |}.

Definition table_step (tables : gmap string TableInfo) (row : MasterRow)
  : M (gmap string TableInfo) :=
  let table_name := mr_name row in
  if startswith table_name "sqlite_" then ret tables
  else
    try_except
      (t <- introspect_table table_name (mr_sql row) ;;
       ret (<[table_name := t]> tables))
      is_sqlite_error (fun _ => ret tables).

Definition add_index (t : TableInfo) (a : Attached) : TableInfo :=
  {| t_sql := t_sql t; columns := columns t; row_count := row_count t;
     sample_rows := sample_rows t;
     indices := Some (default [] (indices t) ++ [a]);
     triggers := triggers t |}.

Definition add_trigger (t : TableInfo) (a : Attached) : TableInfo :=
  {| t_sql := t_sql t; columns := columns t; row_count := row_count t;
     sample_rows := sample_rows t;
     indices := indices t;
     triggers := Some (default [] (triggers t) ++ [a]) |}.

Definition index_step (acc : gmap string TableInfo * gmap string OwnedBy) (row : MasterRow)
  : gmap string TableInfo * gmap string OwnedBy :=
  let '(tables, idx) := acc in
  let index_name := mr_name row in
  let table_name := mr_tbl_name row in
  if startswith index_name "sqlite_" then acc
  else
    let tables' :=
      match tables !! table_name with
      | Some t => <[table_name := add_index t {| att_name := index_name; att_sql := mr_sql row |}]> tables
      | None => tables
      end in
    (tables', <[index_name := {| ob_table := table_name; ob_sql := mr_sql row |}]> idx).

Definition trigger_step (acc : gmap string TableInfo * gmap string OwnedBy) (row : MasterRow)
  : gmap string TableInfo * gmap string OwnedBy :=
  let '(tables, trg) := acc in
  let trigger_name := mr_name row in
  let table_name := mr_tbl_name row in
  let tables' :=
    match tables !! table_name with
    | Some t => <[table_name := add_trigger t {| att_name := trigger_name; att_sql := mr_sql row |}]> tables
    | None => tables
    end in
  (tables', <[trigger_name := {| ob_table := table_name; ob_sql := mr_sql row |}]> trg).

Definition set_schema (p : Parser) (sc : Schema) : Parser :=
  {| db_path := db_path p; file_size := file_size p;
     header_data := header_data p; page_size := page_size p;
     encoding := encoding p; user_version := user_version p;
     application_id := application_id p; schema_version := schema_version p;
     p_schema := Some sc; artifact_type := artifact_type p;
     connection := connection p |}.

(** The result is [None] for the empty dictionary [{}]. *)
Definition extract_schema : M (option Schema) :=
  connected <- ensure_connection ;;
  if negb connected then ret None
  else
    table_rows <- query master_tables ;;
    tables <- for_each table_rows ∅ table_step ;;
    index_rows <- query master_indices ;;
    let '(tables1, idx) := fold_left index_step index_rows (tables, ∅) in
    trigger_rows <- query master_triggers ;;
    let '(tables2, trg) := fold_left trigger_step trigger_rows (tables1, ∅) in
    let sc := {| s_tables := tables2; s_indices := idx; s_triggers := trg |} in
    p <- get_self ;;
    put_self (set_schema p sc) ;;;
    ret (Some sc).

(** ** [detect_artifact_type] *)

Record Signature : Type := {
  sig_tables : list string;
  file_patterns : list string
}.

Definition ARTIFACT_SIGNATURES : list (string * Signature) :=
  [ ("chrome_history", {| sig_tables := ["urls"; "visits"]; file_patterns := ["History"] |});
    ("chrome_cookies", {| sig_tables := ["cookies"]; file_patterns := ["Cookies"] |});
    ("firefox_history", {| sig_tables := ["moz_places"; "moz_historyvisits"]; file_patterns := ["places.sqlite"] |});
    ("firefox_cookies", {| sig_tables := ["moz_cookies"]; file_patterns := ["cookies.sqlite"] |});
    ("whatsapp_messages", {| sig_tables := ["messages"; "chat_list"]; file_patterns := ["msgstore.db"] |});
    ("android_contacts", {| sig_tables := ["contacts"; "raw_contacts"]; file_patterns := ["contacts2.db"] |});
    ("sms_messages", {| sig_tables := ["sms"; "messages"]; file_patterns := ["mmssms.db"] |});
    ("ios_sms", {| sig_tables := ["message"]; file_patterns := ["sms.db"] |});
    ("skype_messages", {| sig_tables := ["Messages"]; file_patterns := ["main.db"] |});
    ("telegram_messages", {| sig_tables := ["messages"]; file_patterns := ["telegram.db"] |}) ]%string.

(** [table in tables] *)
Definition has_table (tables : gset string) (t : string) : bool := bool_decide (t ∈ tables).

(** The [for artifact, signature in ...items()] loop; [Some artifact] is
    the [return artifact] inside it. *)
Fixpoint scan_signatures (sigs : list (string * Signature)) (tables : gset string)
  (filename : string) : option string :=
  match sigs with
  | [] => None
  | (artifact, sg) :: rest =>
      if existsb (has_table tables) (sig_tables sg) then
        if existsb (fun pattern => contains filename (lower pattern)) (file_patterns sg)
        then Some artifact
        else scan_signatures rest tables filename
      else scan_signatures rest tables filename
  end.

Definition set_artifact_type (p : Parser) (a : string) : Parser :=
  {| db_path := db_path p; file_size := file_size p;
     header_data := header_data p; page_size := page_size p;
     encoding := encoding p; user_version := user_version p;
     application_id := application_id p; schema_version := schema_version p;
     p_schema := p_schema p; artifact_type := Some a;
     connection := connection p |}.

(** [self.artifact_type = a; return a] *)
Definition classified (a : string) : M string :=
  p <- get_self ;; put_self (set_artifact_type p a) ;;; ret a.

(** [self.schema.get('tables')]: the table map, empty when there is none. *)
Definition schema_tables (p : Parser) : gmap string TableInfo :=
  match p_schema p with
  | Some sc => s_tables sc
  | None => ∅
  end.

Definition detect_artifact_type : M string :=
  p0 <- get_self ;;
  (match p_schema p0 with
   | None => extract_schema ;;; ret tt
   | Some _ => ret tt
   end) ;;;
  p <- get_self ;;
  if bool_decide (schema_tables p = ∅) then ret "unknown"%string
  else
    let tables := dom (schema_tables p) in
    let filename := lower (basename (db_path p)) in
    match scan_signatures ARTIFACT_SIGNATURES tables filename with
    | Some artifact => classified artifact
    | None =>
        if has_table tables "urls" && has_table tables "visits" then classified "web_browser_history"
        else if has_table tables "cookies" then classified "web_browser_cookies"
        else if has_table tables "messages" then classified "message_store"
        else if has_table tables "android_metadata" then classified "android_app_data"
        else classified "sqlite_application_data"
    end%string.

(** ** [search_for_deleted_records] *)

Definition search_for_deleted_records : M (list DeletedRecord) :=
  let deleted_records := [] in
  connected <- ensure_connection ;;
  if negb connected then ret deleted_records
  else
    deleted_records <-
      try_except
        (freelist_info <- query pragma_freelist_count ;;
         match freelist_info with
         | Some n => if n >? 0 then ret (deleted_records ++ [FreelistPages n])
                     else ret deleted_records
         | None => ret deleted_records
         end)
        is_sqlite_error
        (fun e => ret (deleted_records ++
           [DeletionError (String.append "Error searching for deleted records: " (exn_str e))])) ;;
    _ <- read_all ;;
    p <- get_self ;;
    match header_data p with
    | None => raise (AttributeError "'NoneType' object has no attribute 'get'")
    | Some hd =>
        let expected_size := database_size_pages hd * page_size p in
        if (file_size p >? expected_size) && (expected_size >? 0) then
          ret (deleted_records ++
                 [SlackSpace (hex expected_size) (file_size p - expected_size)])
        else ret deleted_records
    end.

(** ** [get_hex_dump] *)

Record HexDump : Type := {
  dump_offset : Z;
  dump_length : Z;
  hex_data : list string;
  ascii_data : list string;
  dump_error : option string
}.

(** [f.seek(offset); f.read(length)] on a file just opened in binary
    mode, on a 64-bit build of CPython. [seek] comes first: an offset
    that does not fit a signed 64-bit integer is refused before the
    operating system is asked, and the operating system refuses a
    negative offset and one above [max_offset]. Then [read]: a length
    that does not fit 64 bits is refused, as is one below -1; -1 reads to
    the end; any other length asks for a buffer of that many bytes, which
    [bytes] refuses when its header of 33 bytes no longer fits beside it
    and which the allocator may refuse. *)
Definition seek_read (os : Platform) (content : list byte) (offset length : Z)
  : outcome (list byte) :=
  if (offset <? -9223372036854775808) || (9223372036854775808 <=? offset) then
    Raise (ValueError "cannot fit 'int' into an offset-sized integer")
  else if (offset <? 0) || (max_offset os <? offset) then
    Raise (OSError "[Errno 22] Invalid argument")
  else if (length <? -9223372036854775808) || (9223372036854775808 <=? length) then
    Raise (OverflowError "cannot fit 'int' into an index-sized integer")
  else if length <? -1 then Raise (ValueError "read length must be non-negative or -1")
  else
    let rest := skipn (Z.to_nat offset) content in
    if length =? -1 then Return rest
    else if length =? 0 then Return []
    else if 9223372036854775774 <? length then Raise (OverflowError "byte string is too large")
    else if negb (can_allocate os length) then Raise (MemoryError "")
    else Return (firstn (Z.to_nat length) rest).

(** [range(0, n, step)] for a positive step. *)
Definition range_step (n step : nat) : list nat :=
  map (fun k => (k * step)%nat) (seq 0 ((n + step - 1) / step)).

(** [[s[j:j+2] for j in range(0, len(s), 2)]] *)
Fixpoint pairs (s : string) : list string :=
  match s with
  | EmptyString => []
  | String a EmptyString => [String a EmptyString]
  | String a (String b rest) => String a (String b EmptyString) :: pairs rest
  end.

Definition hex_row (row_data : list byte) : string :=
  join " " (pairs (hexlify row_data)).

Definition dump_rows (data : list byte) : list (list byte) :=
  map (fun i => slice data i (i + 16)) (range_step (List.length data) 16).

Definition get_hex_dump (os : Platform) (offset length : Z) : M HexDump :=
  let result := {| dump_offset := offset; dump_length := length;
                   hex_data := []; ascii_data := []; dump_error := None |} in
  try_except
    (content <- read_all ;;
     data <- (fun s => (seek_read os content offset length, s)) ;;
     let rows := dump_rows data in
     ret {| dump_offset := offset; dump_length := length;
            hex_data := map hex_row rows;
            ascii_data := map ascii_or_dot rows;
            dump_error := None |})
    is_exception
    (fun e => ret {| dump_offset := offset; dump_length := length;
                     hex_data := hex_data result; ascii_data := ascii_data result;
                     dump_error := Some (exn_str e) |}).

(** ** [find_hex_pattern] *)

Definition unhex_digit (c : ascii) : option N :=
  let n := N_of_ascii c in
  if (48 <=? n)%N && (n <=? 57)%N then Some (n - 48)%N
  else if (97 <=? n)%N && (n <=? 102)%N then Some (n - 87)%N
  else if (65 <=? n)%N && (n <=? 70)%N then Some (n - 55)%N
  else None.

Fixpoint unhex_pairs (s : string) : option (list byte) :=
  match s with
  | EmptyString => Some []
  | String _ EmptyString => None
  | String a (String b rest) =>
      match unhex_digit a, unhex_digit b with
      | Some hi, Some lo =>
          match Byte.of_N (hi * 16 + lo), unhex_pairs rest with
          | Some x, Some bs => Some (x :: bs)
          | _, _ => None
          end
      | _, _ => None
      end
  end.

(** [binascii.unhexlify(pattern)] *)
Definition unhexlify (pattern : string) : outcome (list byte) :=
  if Nat.odd (String.length pattern) then Raise (BinasciiError "Odd-length string")
  else match unhex_pairs pattern with
       | Some bs => Return bs
       | None => Raise (BinasciiError "Non-hexadecimal digit found")
       end.

(** The lowest position at or after [pos] where [sub] starts in the
    suffix [data] that begins at [pos], or -1. *)
Fixpoint find_at (data sub : list byte) (pos : nat) : Z :=
  if bytes_startswith data sub then Z.of_nat pos
  else match data with
       | [] => -1
       | _ :: data' => find_at data' sub (S pos)
       end.

(** [data.find(sub, start)] for [start >= 0]. *)
Definition bytes_find (data sub : list byte) (start : Z) : Z :=
  if start >? Z.of_nat (List.length data) then -1
  else find_at (skipn (Z.to_nat start) data) sub (Z.to_nat start).

Inductive SearchResult : Type :=
| Found (offset : Z) (offset_hex : string) (context : string) (context_ascii : string)
| SearchError (err : string).

(** The [while True] loop. [fuel] bounds the number of iterations that
    are run; [None] means that the loop has not left after them. *)
Fixpoint search_loop (fuel : nat) (data search_bytes : list byte) (offset : Z)
  (results : list SearchResult) : option (list SearchResult) :=
  match fuel with
  | O => None
  | S fuel' =>
      let offset := bytes_find data search_bytes offset in
      if offset =? -1 then Some results
      else
        let context_start := Z.max 0 (offset - 16) in
        let context_end :=
          Z.min (Z.of_nat (List.length data))
                (offset + Z.of_nat (List.length search_bytes) + 16) in
        let context_data := slice data (Z.to_nat context_start) (Z.to_nat context_end) in
        search_loop fuel' data search_bytes
          (offset + Z.of_nat (List.length search_bytes))
          (results ++ [Found offset (hex offset) (hexlify context_data)
                         (ascii_or_dot context_data)])
  end.

(** The method, run for at most [fuel] iterations of its loop. The
    outcome [None] means that the method is still in the loop. *)
Definition find_hex_pattern (fuel : nat) (pattern : string) : M (option (list SearchResult)) :=
  let results := [] in
  try_except
    (search_bytes <- (fun s => (unhexlify pattern, s)) ;;
     data <- read_all ;;
     ret (search_loop fuel data search_bytes 0 results))
    is_exception
    (fun e => ret (Some (results ++ [SearchError (exn_str e)]))).

(** ** [get_table_data] *)

Inductive TableData : Type :=
| PageResult (data : list (gmap string value)) (total_count page page_size total_pages : Z)
| TableError (err : string).

(** [column in valid_columns] *)
Definition in_columns (column : string) (valid_columns : list string) : bool :=
  existsb (String.eqb column) valid_columns.

(** [valid_columns = [row['name'] for row in cursor.fetchall()]] after
    [PRAGMA table_info(table_name)]. *)
Definition valid_columns_of (table_name : string) : M (list string) :=
  rows <- query (fun E => pragma_table_info E table_name) ;;
  ret (map cr_name rows).

(** One turn of [for column, value in filters.items()]. *)
Definition filter_step (table_name : string) (acc : list string * list string)
  (kv : string * string) : M (list string * list string) :=
  let '(where_clauses, params) := acc in
  let '(column, v) := kv in
  valid_columns <- valid_columns_of table_name ;;
  if negb (in_columns column valid_columns) then ret acc
  else ret (where_clauses ++ [String.append column " LIKE ?"],
            params ++ [String.append "%" (String.append v "%")]).

(** [finally: if self.connection: self.connection.close(); self.connection = None] *)
Definition finally_close {A} (m : M A) : M A :=
  fun s =>
    let '(r, s') := m s in
    (r, {| self := set_connection (self s') false; disk := disk s'; engine := engine s' |}).

Definition get_table_data (table_name : string) (page page_size : Z)
  (sort_column : option string) (sort_direction : string)
  (filters : option (list (string * string))) : M TableData :=
  connected <- ensure_connection ;;
  if negb connected then ret (TableError "Could not connect to database")
  else
    finally_close
      (try_except
         (found <- query (fun E => lookup_table E table_name) ;;
          if negb found then
            ret (TableError (String.append "Table " (String.append table_name " not found")))
          else
            let base_query := String.append "SELECT * FROM " table_name in
            let count_query := String.append "SELECT COUNT(*) FROM " table_name in
            wp <- match filters with
                  | Some (kv :: fs) => for_each (kv :: fs) ([], []) (filter_step table_name)
                  | _ => ret ([], [])
                  end ;;
            let '(where_clauses, params) := wp in
            let where_clause :=
              match where_clauses with
              | [] => EmptyString
              | _ => String.append " WHERE " (join " AND " where_clauses)
              end in
            let base_query := String.append base_query where_clause in
            let count_query := String.append count_query where_clause in
            base_query <-
              match sort_column with
              | None | Some EmptyString => ret base_query
              | Some sc =>
                  valid_columns <- valid_columns_of table_name ;;
                  if in_columns sc valid_columns then
                    ret (String.append base_query
                           (String.append " ORDER BY "
                              (String.append sc (String.append " " sort_direction))))
                  else ret base_query
              end ;;
            let offset := (page - 1) * page_size in
            let base_query :=
              String.append base_query
                (String.append " LIMIT "
                   (String.append (str_of_int page_size)
                      (String.append " OFFSET " (str_of_int offset)))) in
            total_count <- query (fun E => execute_count E count_query params) ;;
            rows <- query (fun E => execute_rows E base_query params) ;;
            let data := map row_dict rows in
            if page_size =? 0 then
              raise (ZeroDivisionError "integer division or modulo by zero")
            else
              ret (PageResult data total_count page page_size
                     ((total_count + page_size - 1) / page_size)))
         is_exception
         (fun e =>
            if is_sqlite_error e then ret (TableError (exn_str e))
            else ret (TableError (String.append "Unexpected error: " (exn_str e))))).

(** ** Python numbers *)

(** A Python [float] is a binary64 number of IEEE 754: a signed zero, an
    infinity, a NaN, or a sign, a mantissa and an exponent standing for
    [mantissa * 2 ^ exponent]. The operations are those of the standard,
    rounding to nearest with ties to even. *)
Definition float : Type := spec_float.

Definition prec : Z := 53.
Definition emax : Z := 1024.

(** [x - y] and [x * y] on floats *)
Definition float_sub : float -> float -> float := SFsub prec emax.
Definition float_mul : float -> float -> float := SFmul prec emax.

(** The float nearest to an integer, as an arithmetic operator takes its
    [int] operand next to a [float] one (an integer too large for a
    float is refused there; the only integer converted here is 0). *)
Definition float_of_int (z : Z) : float := binary_normalize prec emax z 0 false.

(** [a / b] on integers: the float nearest to the quotient, whatever the
    size of the operands. The divisor is never 0 where it is used. *)
Definition int_truediv (a b : Z) : float :=
  let operand := fun z : Z =>
    match z with
    | Z0 => S754_zero false
    | Zpos m => S754_finite false m 0
    | Zneg m => S754_finite true m 0
    end in
  SFdiv prec emax (operand a) (operand b).

(** [0.0], [1.0], [1/256], [8.0] and [-8.0] *)
Definition float_zero : float := S754_zero false.
Definition float_one : float := S754_finite false 4503599627370496 (-52).
Definition float_256th : float := S754_finite false 4503599627370496 (-60).
Definition float_eight : float := S754_finite false 4503599627370496 (-49).
Definition float_minus_eight : float := S754_finite true 4503599627370496 (-49).

(** A value that is an [int] or a [float]. *)
Inductive number : Type :=
| PyInt (z : Z)
| PyFloat (x : float).

Definition as_float (n : number) : float :=
  match n with
  | PyInt z => float_of_int z
  | PyFloat x => x
  end.

(** The mathematical library behind [math]: [math.log2] is the [log2] of
    the C library, a function from doubles to doubles that the language
    standard pins down at a few arguments only (C99, F.9.3.10: the
    logarithm of 1 is +0) and that is otherwise as accurate as the
    library makes it. It is applied to positive arguments only, where it
    does not raise. *)
Record Libm : Type := {
  log2 : float -> float;
  log2_one : log2 float_one = float_zero
}.

(** ** [calculate_entropy] *)

(** A Python dictionary from byte values to counts, in insertion order. *)
Definition Counts : Type := list (byte * Z).

(** [byte_counts.get(b, 0)] *)
Fixpoint counts_get (byte_counts : Counts) (b : byte) : Z :=
  match byte_counts with
  | [] => 0
  | (k, v) :: rest => if Byte.eqb k b then v else counts_get rest b
  end.

(** [byte_counts[b] = v]: in place for a present key, at the end else. *)
Fixpoint counts_set (byte_counts : Counts) (b : byte) (v : Z) : Counts :=
  match byte_counts with
  | [] => [(b, v)]
  | (k, w) :: rest =>
      if Byte.eqb k b then (k, v) :: rest else (k, w) :: counts_set rest b v
  end.

(** [for byte in data: byte_counts[byte] = byte_counts.get(byte, 0) + 1] *)
Definition count_bytes (data : list byte) : Counts :=
  fold_left (fun byte_counts b => counts_set byte_counts b (counts_get byte_counts b + 1))
            data [].

(** [calculate_entropy] of [main.py]. The empty input gives the integer
    0; otherwise [entropy] starts as the integer 0 and is a float from
    the first subtraction on. The counts are taken in the order of the
    dictionary, that of first occurrence. A byte string holds fewer than
    2^63 bytes, so every probability is a positive float. *)
Definition calculate_entropy (libm : Libm) (data : list byte) : number :=
  match data with
  | [] => PyInt 0
  | _ =>
      let byte_counts := count_bytes data in
      let data_size := Z.of_nat (List.length data) in
      fold_left
        (fun entropy count =>
           let probability := int_truediv count data_size in
           PyFloat (float_sub (as_float entropy)
                      (float_mul probability (log2 libm probability))))
        (map snd byte_counts) (PyInt 0)
  end.

(** ** The notions the specification is worded in *)

(** [pattern] is a case-insensitive substring of [s]. *)
Definition ci_substring (pattern s : string) : Prop :=
  exists pre post : string,
    lower s = String.append pre (String.append (lower pattern) post).

(** A signature matches a catalog and a base name: some table of its
    required set is in the catalog and some pattern of its is a
    case-insensitive substring of the base name. *)
Definition signature_matches (tables : gset string) (base : string) (sg : Signature) : Prop :=
  (exists t, In t (sig_tables sg) /\ t ∈ tables) /\
  (exists pattern, In pattern (file_patterns sg) /\ ci_substring pattern base).

(** The fallback rules, in their fixed order. *)
Definition fallback_kind (tables : gset string) : string :=
  if decide ("urls" ∈ tables /\ "visits" ∈ tables) then "web_browser_history"
  else if decide ("cookies" ∈ tables) then "web_browser_cookies"
  else if decide ("messages" ∈ tables) then "message_store"
  else if decide ("android_metadata" ∈ tables) then "android_app_data"
  else if decide (tables <> ∅) then "sqlite_application_data"
  else "unknown".

(** [sub] occurs in [data] at position [q]. *)
Definition occurs_at (data sub : list byte) (q : nat) : Prop :=
  slice data q (q + List.length sub) = sub.

(** The context window of a match at [o]: 16 bytes before and after,
    clipped to the file. *)
Definition context_window (data sub : list byte) (o : nat) : list byte :=
  slice data (o - 16) (Nat.min (List.length data) (o + List.length sub + 16)).

(** The entry reported for a match at [o]. *)
Definition found_at (data sub : list byte) (o : nat) : SearchResult :=
  Found (Z.of_nat o) (hex (Z.of_nat o))
        (hexlify (context_window data sub o))
        (ascii_or_dot (context_window data sub o)).

(** [offs] are the matches of a left-to-right scan that does not report
    overlapping occurrences: every offset is an occurrence, the next
    match starts at or after the end of the previous one, and every
    occurrence in the data starts inside a reported match. *)
Definition left_to_right_scan (data sub : list byte) (offs : list nat) : Prop :=
  Forall (occurs_at data sub) offs /\
  (forall i o1 o2, offs !! i = Some o1 -> offs !! S i = Some o2 ->
                   (o1 + List.length sub <= o2)%nat) /\
  (forall q, occurs_at data sub q ->
             exists o, In o offs /\ (o <= q < o + List.length sub)%nat).


(** The byte with value [n]. *)
Definition mk_byte (n : N) : byte := default x00 (Byte.of_N n).

(** The 256 byte values. *)
Definition all_bytes : list byte := map (fun n => mk_byte (N.of_nat n)) (seq 0 256).

(** The number of times [b] is in [data]. *)
Definition occurrences (data : list byte) (b : byte) : nat :=
  count_occ Byte.byte_eq_dec data b.

(** The byte values of [data], each once, in the order in which they
    first occur. *)
Definition first_occurrences (data : list byte) : list byte :=
  fold_left (fun seen b => if existsb (Byte.eqb b) seen then seen else seen ++ [b])
            data [].

(** The share [p(b)] of [b] in [data], as a float. *)
Definition share (data : list byte) (b : byte) : float :=
  int_truediv (Z.of_nat (occurrences data b)) (Z.of_nat (List.length data)).

(** The sum of [- p(b) * log2 (p(b))] over the byte values that occur,
    evaluated in floats from 0, one value after the other in the order
    of first occurrence. *)
Definition entropy_sum (libm : Libm) (data : list byte) : number :=
  fold_left
    (fun entropy b =>
       PyFloat (float_sub (as_float entropy)
                  (float_mul (share data b) (log2 libm (share data b)))))
    (first_occurrences data) (PyInt 0).

(** [x < 0] and [x > 0] on floats; both are false of a NaN. *)
Definition float_negative (x : float) : bool := SFltb x float_zero.
Definition float_positive (x : float) : bool := SFltb float_zero x.

(** ** Sample files and engines *)

Definition be32 (n : N) : list byte :=
  [mk_byte (n / 16777216 mod 256); mk_byte (n / 65536 mod 256);
   mk_byte (n / 256 mod 256); mk_byte (n mod 256)]%N.

(** A well-formed 100-byte header with the given raw page size bytes,
    size in pages and freelist count. *)
Definition sample_header (page_hi page_lo : byte) (db_pages freelist : N) : list byte :=
  SQLITE_SIGNATURE ++ [page_hi; page_lo] ++
  map mk_byte [1; 1; 0; 64; 32; 32]%N ++
  be32 7 ++ be32 db_pages ++ be32 0 ++ be32 freelist ++
  be32 3 ++ be32 4 ++ be32 0 ++ be32 0 ++ be32 1 ++ be32 0 ++ be32 0 ++ be32 0 ++
  repeat x00 20 ++ be32 7 ++ be32 3045000.

(** A file of two pages of 4096 bytes whose header declares one page and
    five freelist pages. *)
Definition slack_file : File :=
  Readable (sample_header x10 x00 1 5 ++ repeat x00 (Z.to_nat 8092)).

(** A file too short to hold a header. *)
Definition short_file : File := Readable (list_byte_of_string "not a database").

(** A 64-bit Linux machine whose file system is ext4 with blocks of
    4 KiB: files end below 16 TiB, and a read of up to 2 GiB finds its
    buffer. *)
Definition linux_ext4 : Platform :=
  {| max_offset := 17592186040320;
     can_allocate := fun n => n <=? 2147483648 |}.

(** The logarithm at the arguments the examples reach: 1, 1/2, 1/256,
    the floats nearest to 1/3 and 1/6 and those nearest to
    500001/128000001 and 500000/128000001, with the values that the C
    library returns there, which are the floats nearest to the exact
    logarithms (0, -1, -8, -1.5849625007211563, -2.584962500721156,
    -7.9999971258838585 and -8.000000011271055). No other argument is
    given a value. *)
Definition sample_log2 (x : float) : float :=
  if SFeqb x float_one then float_zero
  else if SFeqb x (S754_finite false 4503599627370496 (-53)) then
    S754_finite true 4503599627370496 (-52)
  else if SFeqb x float_256th then float_minus_eight
  else if SFeqb x (S754_finite false 6004799503160661 (-54)) then
    S754_finite true 7138036527644009 (-52)
  else if SFeqb x (S754_finite false 6004799503160661 (-55)) then
    S754_finite true 5820818077507252 (-51)
  else if SFeqb x (S754_finite false 4503608599385309 (-60)) then
    S754_finite true 9007196018773896 (-50)
  else if SFeqb x (S754_finite false 9007199184372248 (-61)) then
    S754_finite true 4503599633715536 (-49)
  else S754_nan.

Definition sample_libm : Libm :=
  {| log2 := sample_log2; log2_one := eq_refl |}.

(** An engine that cannot be reached. *)
Definition no_engine : Engine :=
  {| can_connect := false;
     master_tables := inl "unable to open database file";
     master_indices := inl "unable to open database file";
     master_triggers := inl "unable to open database file";
     pragma_table_info := fun _ => inl "unable to open database file";
     select_count_all := fun _ => inl "unable to open database file";
     select_sample := fun _ => inl "unable to open database file";
     pragma_freelist_count := inl "unable to open database file";
     lookup_table := fun _ => inl "unable to open database file";
     execute_count := fun _ _ => inl "unable to open database file";
     execute_rows := fun _ _ => inl "unable to open database file" |}.

Definition users_columns : list ColumnRow :=
  [ {| cr_name := "id"; cr_type := "INTEGER"; cr_notnull := 1;
       cr_dflt_value := None; cr_pk := 1 |};
    {| cr_name := "name"; cr_type := "TEXT"; cr_notnull := 0;
       cr_dflt_value := None; cr_pk := 0 |} ].

Definition users_row : Row := [("id", VInt 51); ("name", VText "ada")].

(** An engine over a database with the tables [users] (125 rows, whose
    sample cannot be fetched), [broken] (whose columns cannot be read)
    and [sqlite_sequence], one index and one internal index on [users],
    and a trigger with an internal name. *)
Definition toy_engine : Engine :=
  {| can_connect := true;
     master_tables := inr
       [ {| mr_name := "users"; mr_tbl_name := "users"; mr_sql := Some "CREATE TABLE users (id, name)" |};
         {| mr_name := "broken"; mr_tbl_name := "broken"; mr_sql := None |};
         {| mr_name := "sqlite_sequence"; mr_tbl_name := "sqlite_sequence"; mr_sql := None |} ];
     master_indices := inr
       [ {| mr_name := "idx_users_name"; mr_tbl_name := "users"; mr_sql := Some "CREATE INDEX idx_users_name ON users (name)" |};
         {| mr_name := "sqlite_autoindex_users_1"; mr_tbl_name := "users"; mr_sql := None |} ];
     master_triggers := inr
       [ {| mr_name := "sqlite_trg"; mr_tbl_name := "users"; mr_sql := None |} ];
     pragma_table_info := fun t =>
       if String.eqb t "users" then inr users_columns
       else inl "malformed database schema";
     select_count_all := fun t =>
       if String.eqb t "users" then inr 125 else inl "no such table";
     select_sample := fun _ => inl "database disk image is malformed";
     pragma_freelist_count := inr (Some 5);
     lookup_table := fun t => inr (String.eqb t "users");
     execute_count := fun stmt _ =>
       if String.eqb stmt "SELECT COUNT(*) FROM users WHERE name LIKE ?"
       then inr 125 else inl "syntax error";
     execute_rows := fun stmt _ =>
       if String.eqb stmt
            "SELECT * FROM users WHERE name LIKE ? ORDER BY name ASC LIMIT 50 OFFSET 50"
       then inr [users_row] else inl "syntax error" |}.

(** The double quote. *)
Definition dquote : string := String (ascii_of_nat 34) EmptyString.

(** An engine over a database whose only table is named [a.b]. The
    catalog lists it, but a statement into which the name is pasted
    unquoted reads it as table [b] of a database [a]. *)
Definition dotted_engine : Engine :=
  {| can_connect := true;
     master_tables := inr
       [ {| mr_name := "a.b"; mr_tbl_name := "a.b"; mr_sql := None |} ];
     master_indices := inr [];
     master_triggers := inr [];
     pragma_table_info := fun _ =>
       inl (String.append "near "
              (String.append dquote
                 (String.append "." (String.append dquote ": syntax error"))));
     select_count_all := fun _ => inl "no such table: a.b";
     select_sample := fun _ => inl "no such table: a.b";
     pragma_freelist_count := inr (Some 0);
     lookup_table := fun t => inr (String.eqb t "a.b");
     execute_count := fun _ _ => inl "no such table: a.b";
     execute_rows := fun _ _ => inl "no such table: a.b" |}.



(** A parser whose schema holds the given table names, for the file at
    [path]. *)
Definition empty_table : TableInfo :=
  {| t_sql := None; columns := []; row_count := 0; sample_rows := [];
     indices := None; triggers := None |}.

Definition parser_with_tables (path : string) (names : list string) : Parser :=
  set_schema (init path (Readable []))
    {| s_tables := list_to_map (map (fun n => (n, empty_table)) names);
       s_indices := ∅; s_triggers := ∅ |}.

(** The state in which a fresh parser for [f] at [path] starts. *)
Definition start (path : string) (f : File) (E : Engine) : State :=
  {| self := init path f; disk := f; engine := E |}.


(** The signature as a hex pattern. *)
Definition signature_hex : string := "53514c69746520666f726d6174203300".

(** A file that is a header and nothing more. *)
Definition header_only : list byte := sample_header x10 x00 1 0.

(** A catalog with the tables [urls] and [visits], once in a file named
    [History] and once in a file with an unrelated name. *)
Definition history_state : State :=
  {| self := parser_with_tables "/evidence/profile/History" ["urls"; "visits"]%string;
     disk := Readable []; engine := no_engine |}.

Definition renamed_history_state : State :=
  {| self := parser_with_tables "/evidence/export.bin" ["urls"; "visits"]%string;
     disk := Readable []; engine := no_engine |}.

(** ** The statements [get_table_data] is expected to send *)

(** The filters whose column is one of the table's columns. *)
Definition kept_filters (valid_columns : list string)
  (filters : option (list (string * string))) : list (string * string) :=
  List.filter (fun kv => in_columns (fst kv) valid_columns)
    (match filters with Some fs => fs | None => [] end).

(** The [WHERE] clause for the kept filters, empty when there is none. *)
Definition where_of (kept : list (string * string)) : string :=
  let where_clauses := map (fun kv => String.append (fst kv) " LIKE ?") kept in
  match where_clauses with
  | [] => EmptyString
  | _ :: _ => String.append " WHERE " (join " AND " where_clauses)
  end.

(** The bound parameters for the kept filters. *)
Definition params_of (kept : list (string * string)) : list string :=
  map (fun kv => String.append "%" (String.append (snd kv) "%")) kept.

(** The query with its [ORDER BY], which is there only for a sort column
    that is one of the table's columns. *)
Definition with_order (q : string) (valid_columns : list string)
  (sort_column : option string) (sort_direction : string) : string :=
  match sort_column with
  | None | Some EmptyString => q
  | Some sc =>
      if in_columns sc valid_columns then
        String.append q
          (String.append " ORDER BY " (String.append sc (String.append " " sort_direction)))
      else q
  end.

(** The query with its window: [page_size] rows from the zero-based
    offset [(page - 1) * page_size]. *)
Definition with_window (q : string) (page page_size : Z) : string :=
  String.append q
    (String.append " LIMIT "
       (String.append (str_of_int page_size)
          (String.append " OFFSET " (str_of_int ((page - 1) * page_size))))).


(** ** What [extract_schema] records *)

(** The engine can introspect the table [name]: its name is not
    engine-internal, and its columns and its row count can be read. *)
Definition introspectable (E : Engine) (name : string) : Prop :=
  startswith name "sqlite_" = false /\
  (exists cols, pragma_table_info E name = inr cols) /\
  (exists n, select_count_all E name = inr n).

(** The catalog entry [t] describes the table [name] of the engine: its
    columns and row count are the engine's, and its sample rows are the
    engine's when the table has rows and the sample can be fetched, and
    none else. *)
Definition described_by (E : Engine) (name : string) (t : TableInfo) : Prop :=
  exists cols n,
    pragma_table_info E name = inr cols /\
    select_count_all E name = inr n /\
    columns t = map column_of cols /\
    row_count t = n /\
    sample_rows t =
      (if n >? 0 then
         match select_sample E name with
         | inr rows => map row_dict rows
         | inl _ => []
         end
       else []).



(** A block in which every byte value occurs twice. *)
Definition uniform_block : list byte := all_bytes ++ all_bytes.

(** A block of [256 k + 1] bytes: [k] times each byte value, in the
    order of the values, and one more zero byte at the end. *)
Definition near_uniform (k : nat) : list byte :=
  concat (map (fun b => repeat b k) all_bytes) ++ [x00].

(** The five kinds the fallback rules give to a catalog with tables. *)
Definition FALLBACK_KINDS : list string :=
  ["web_browser_history"; "web_browser_cookies"; "message_store";
   "android_app_data"; "sqlite_application_data"]%string.

(** The catalog of [history_state] in a file whose name is in upper case. *)
Definition shouting_history_state : State :=
  {| self := parser_with_tables "/EVIDENCE/Profile/HISTORY" ["urls"; "visits"]%string;
     disk := Readable []; engine := no_engine |}.

(** ** [generate_recommendations] *)

Record Recommendation : Type := {
  rec_type : string;
  rec_priority : string;
  rec_message : string
}.

(** An entry of [schema_issues]. *)
Record Issue : Type := {
  issue_type : string;
  issue_message : string;
  severity : string;
  issue_table : option string;
  issue_column : option string
}.

(** The entries of the [metadata] dictionary that
    [generate_recommendations] reads: ['header'], the ['tables'] count of
    ['structure_summary'], ['deleted_records'] and ['artifact_type']. *)
Record Metadata : Type := {
  md_header : option HeaderData;
  md_tables : Z;
  md_deleted_records : list DeletedRecord;
  md_artifact_type : string
}.

Definition corrupted_advice : Recommendation :=
  {| rec_type := "data_recovery"; rec_priority := "high";
     rec_message := "Database appears to be corrupted or incomplete. Consider specialized SQLite forensic recovery tools." |}.

Definition deleted_advice : Recommendation :=
  {| rec_type := "data_recovery"; rec_priority := "medium";
     rec_message := "Database contains potentially recoverable deleted records. Consider carving tools or manual hex analysis." |}.

Definition browsing_advice : Recommendation :=
  {| rec_type := "investigation"; rec_priority := "medium";
     rec_message := "Extract full browsing history with timestamps and visit counts for timeline analysis." |}.

Definition message_advice : Recommendation :=
  {| rec_type := "investigation"; rec_priority := "high";
     rec_message := "Extract all messages with complete metadata and media attachments for communication analysis." |}.

Definition schema_advice : Recommendation :=
  {| rec_type := "technical"; rec_priority := "medium";
     rec_message := "Database has significant schema issues. Consider manual analysis of database structure." |}.

Definition generate_recommendations (metadata : Metadata) (schema_issues : list Issue)
  : list Recommendation :=
  let recommendations := [] in
  let recommendations :=
    if match md_header metadata with None => true | Some _ => false end
       || (md_tables metadata =? 0)
    then recommendations ++ [corrupted_advice] else recommendations in
  let recommendations :=
    match md_deleted_records metadata with
    | [] => recommendations
    | _ :: _ => recommendations ++ [deleted_advice]
    end in
  let recommendations :=
    if String.eqb (md_artifact_type metadata) "web_browser_history"
    then recommendations ++ [browsing_advice]
    else if String.eqb (md_artifact_type metadata) "message_store"
    then recommendations ++ [message_advice]
    else recommendations in
  if existsb (fun issue => String.eqb (severity issue) "high") schema_issues
  then recommendations ++ [schema_advice] else recommendations.

(** ** The byte histogram of [generate_histogram] *)

Definition upper_char (c : ascii) : ascii :=
  let n := nat_of_ascii c in
  if (97 <=? n)%nat && (n <=? 122)%nat then ascii_of_nat (n - 32) else c.

(** [s.upper()] *)
Fixpoint upper (s : string) : string :=
  match s with
  | EmptyString => EmptyString
  | String c s' => String (upper_char c) (upper s')
  end.

(** [s[2:]] *)
Definition drop2 (s : string) : string :=
  match s with
  | String _ (String _ rest) => rest
  | _ => EmptyString
  end.

(** [s.zfill(width)] of a string that does not start with a sign. *)
Definition zfill (width : nat) (s : string) : string :=
  String.append (string_of_list_ascii (repeat "0"%char (width - String.length s))) s.

Record HistogramEntry : Type := {
  he_byte : Z;
  he_hex : string;
  he_ascii : option string;
  he_frequency : Z
}.

(** [byte_counts = [0] * 256] and [for byte in byte_data:
    byte_counts[byte] += 1]; a byte is always a valid index. *)
Definition count_frequencies (byte_data : list byte) : list Z :=
  fold_left
    (fun byte_counts b =>
       let i := Byte.to_nat b in
       <[ i := default 0 (byte_counts !! i) + 1 ]> byte_counts)
    byte_data (replicate 256 0).

(** The list built by [for i in range(256)]. *)
Definition histogram (byte_data : list byte) : list HistogramEntry :=
  let byte_counts := count_frequencies byte_data in
  map (fun i : nat =>
         let z := Z.of_nat i in
         {| he_byte := z;
            he_hex := upper (zfill 2 (drop2 (hex z)));
            he_ascii := if (32 <=? z) && (z <=? 126)
                        then Some (String (ascii_of_nat i) EmptyString) else None;
            he_frequency := default 0 (byte_counts !! i) |})
      (seq 0 256).

(** ** The entropy profile of [generate_entropy] *)

Record EntropyBlock : Type := {
  block_offset : Z;
  block_entropy : number
}.

Record EntropyData : Type := {
  overall : number;
  blocks : list EntropyBlock
}.

(** [range(0, stop, step)] for [stop >= 0]: a zero step is refused and a
    negative step gives no element. *)
Definition range_from_zero (stop step : Z) : outcome (list Z) :=
  if step =? 0 then Raise (ValueError "range() arg 3 must not be zero")
  else if step <? 0 then Return []
  else Return (map (fun k => Z.of_nat k * step)
                   (seq 0 (Z.to_nat ((stop + step - 1) / step)))).

(** The body of [generate_entropy] once the file is read. *)
Definition entropy_profile (libm : Libm) (file_data : list byte) (block_size : Z)
  : outcome EntropyData :=
  let file_size := Z.of_nat (List.length file_data) in
  let overall_entropy := calculate_entropy libm file_data in
  let blocks := [] in
  let block_size :=
    if file_size <? block_size then Z.max (file_size / 10) 1 else block_size in
  match range_from_zero file_size block_size with
  | Raise e => Raise e
  | Return offsets =>
      Return
        {| overall := overall_entropy;
           blocks :=
             fold_left
               (fun blocks offset =>
                  let end_ := Z.min (offset + block_size) file_size in
                  let block_data := slice file_data (Z.to_nat offset) (Z.to_nat end_) in
                  if Z.of_nat (List.length block_data) >? 0
                  then blocks ++ [{| block_offset := offset;
                                     block_entropy := calculate_entropy libm block_data |}]
                  else blocks)
               offsets blocks |}
  end.

(** ** [validate_sqlite_database] of [main.py] *)

(** What [sqlite3] raises there: a [sqlite3.DatabaseError], which the
    function handles where it arises, or another exception, which only
    its outermost handler sees. *)
Inductive Failure : Type :=
| DatabaseError (msg : string)
| OtherError (msg : string).

(** The connection [sqlite3.connect(file_path)] gives, as the answers to
    the statements the function sends through its cursor. *)
Record Connection : Type := {
  (* SELECT name FROM sqlite_master WHERE type='table' *)
  table_names : Failure + list string;
  (* a statement given by its text: [None] when it runs *)
  execute : string -> option Failure
}.

Record DatabaseRecoveryInfo : Type := {
  is_corrupted : bool;
  corruption_details : option (list string);
  recovered_tables : list string;
  partial_analysis : bool;
  error_log : list string
}.

(** [l.remove(x)]: [l] without its first element equal to [x]. *)
Fixpoint list_remove (x : string) (l : list string) : list string :=
  match l with
  | [] => []
  | y :: l' => if String.eqb y x then l' else y :: list_remove x l'
  end.

(** [f"SELECT * FROM {table} LIMIT 1"] *)
Definition probe_statement (table : string) : string :=
  String.append "SELECT * FROM " (String.append table " LIMIT 1").

(** [for table in recovery_info.recovered_tables], whose body removes
    from the very list it runs over: the iterator is the index [i] of
    the next element of [tables]. The result holds the exception that
    left the loop, if any, next to the list and the errors. [fuel]
    bounds the iterations that are run; [None] means that the loop has
    not left after them. *)
Fixpoint check_tables (fuel : nat) (conn : Connection) (i : nat)
  (tables errors : list string) : option (option string * list string * list string) :=
  match fuel with
  | O => None
  | S fuel' =>
      match tables !! i with
      | None => Some (None, tables, errors)
      | Some table =>
          match execute conn (probe_statement table) with
          | None => check_tables fuel' conn (S i) tables errors
          | Some (DatabaseError msg) =>
              check_tables fuel' conn (S i) (list_remove table tables)
                (errors ++ [String.append "Table "
                              (String.append table (String.append " error: " msg))])
          | Some (OtherError msg) => Some (Some msg, tables, errors)
          end
      end
  end.

(** The function, for a file and for what [sqlite3.connect] gives on it.
    The body of the outer [try] ends in the exception that leaves it, if
    any, and in the values of [errors], [is_corrupted],
    [recovered_tables] and [partial_analysis]; [conn.close()] is taken
    to succeed. *)
Definition validate_sqlite_database (fuel : nat) (file : File) (db : Failure + Connection)
  : option (bool * list string * DatabaseRecoveryInfo) :=
  let errors : list string := [] in
  let body :=
    match open_rb file with
    | Raise e => Some (Some (exn_str e), errors, false, [], false)
    | Return content =>
        let header := firstn 16 content in
        let bad := negb (bytes_startswith header SQLITE_SIGNATURE) in
        let errors :=
          if bad then errors ++ ["Invalid SQLite header signature"%string] else errors in
        match db with
        | inl (DatabaseError msg) =>
            Some (None, errors ++ [String.append "Database error: " msg], true, [], true)
        | inl (OtherError msg) => Some (Some msg, errors, bad, [], false)
        | inr conn =>
            match table_names conn with
            | inl (OtherError msg) => Some (Some msg, errors, bad, [], false)
            | inl (DatabaseError msg) =>
                match check_tables fuel conn 0 []
                        (errors ++ [String.append "Schema error: " msg]) with
                | None => None
                | Some (raised, recovered, errors) =>
                    Some (raised, errors, true, recovered, true)
                end
            | inr names =>
                match check_tables fuel conn 0 names errors with
                | None => None
                | Some (raised, recovered, errors) =>
                    Some (raised, errors, bad, recovered, false)
                end
            end
        end
    end in
  match body with
  | None => None
  | Some (raised, errors, corrupted, recovered, partial) =>
      let errors :=
        match raised with
        | Some msg => errors ++ [String.append "General error: " msg]
        | None => errors
        end in
      let corrupted := match raised with Some _ => true | None => corrupted end in
      Some (Nat.eqb (List.length errors) 0, errors,
            {| is_corrupted := corrupted;
               corruption_details := Some errors;
               recovered_tables := recovered;
               partial_analysis := partial;
               error_log := errors |})
  end.

(** The tables the schema check lists, none when it does not answer. *)
Definition listed_tables (db : Failure + Connection) : list string :=
  match db with
  | inr conn => match table_names conn with inr names => names | inl _ => [] end
  | inl _ => []
  end.

(** A connection on which the tables [broken] cannot be read. *)
Definition flaky_connection (names broken : list string) : Connection :=
  {| table_names := inr names;
     execute := fun stmt =>
       if existsb (fun t => String.eqb stmt (probe_statement t)) broken
       then Some (DatabaseError "database disk image is malformed") else None |}.

(** ** [calculate_file_hashes] of [main.py] *)

(** A [hashlib] object: the bytes it has been fed so far, in order, and
    the digest function of its algorithm; [hexdigest] is the digest of
    the bytes fed. *)
Record HashObject : Type := {
  fed : list byte;
  algorithm : list byte -> string
}.

Definition hash_new (algorithm : list byte -> string) : HashObject :=
  {| fed := []; algorithm := algorithm |}.

Definition hash_update (h : HashObject) (chunk : list byte) : HashObject :=
  {| fed := fed h ++ chunk; algorithm := algorithm h |}.

Definition hexdigest (h : HashObject) : string := algorithm h (fed h).

(** What the helpers of [main.py] raise. *)
Inductive HTTPException : Type :=
| HTTPError (status_code : Z) (detail : string).

(** [for chunk in iter(lambda: f.read(4096), b"")] on the rest of the
    file: reads of 4096 bytes until one is empty, each chunk fed to both
    objects. [fuel] bounds the reads that are run; [None] means that the
    loop has not left after them. *)
Fixpoint hash_chunks (fuel : nat) (rest : list byte) (md5_hash sha1_hash : HashObject)
  : option (HashObject * HashObject) :=
  match fuel with
  | O => None
  | S fuel' =>
      match firstn 4096 rest with
      | [] => Some (md5_hash, sha1_hash)
      | chunk =>
          hash_chunks fuel' (skipn 4096 rest)
            (hash_update md5_hash chunk) (hash_update sha1_hash chunk)
      end
  end.

Definition calculate_file_hashes (fuel : nat) (md5 sha1 : list byte -> string) (file : File)
  : option (HTTPException + string * string) :=
  let md5_hash := hash_new md5 in
  let sha1_hash := hash_new sha1 in
  match open_rb file with
  | Raise e =>
      Some (inl (HTTPError 500 (String.append "Error calculating file hashes: " (exn_str e))))
  | Return content =>
      match hash_chunks fuel content md5_hash sha1_hash with
      | None => None
      | Some (md5_hash, sha1_hash) => Some (inr (hexdigest md5_hash, hexdigest sha1_hash))
      end
  end.

(** * Properties *)

(** ** Lists, bytes and text *)

Lemma bytes_startswith_firstn (bs p : list byte) :
  bytes_startswith bs p = true <-> firstn (List.length p) bs = p.
Proof.
  revert bs. induction p as [|x p IH]; intros bs; simpl.
  - destruct bs; split; reflexivity.
  - destruct bs as [|y bs]; simpl.
    + split; discriminate.
    + rewrite andb_true_iff, IH. split.
      * intros [Hxy Hp]. apply byte_dec_bl in Hxy. congruence.
      * intros H. injection H as Hy Hp. split; [|exact Hp].
        apply byte_dec_lb. congruence.
Qed.

Lemma firstn_firstn_le {A} (l : list A) (i j : nat) :
  (i <= j)%nat -> firstn i (firstn j l) = firstn i l.
Proof.
  intros Hij. rewrite firstn_firstn. f_equal. lia.
Qed.

Lemma unpack_be_two (hi lo : byte) :
  unpack_be [hi; lo] = 256 * byte_val hi + byte_val lo.
Proof. unfold unpack_be. simpl. lia. Qed.

Lemma byte_val_range (b : byte) : 0 <= byte_val b < 256.
Proof.
  unfold byte_val. pose proof (Byte.to_N_bounded b). lia.
Qed.

Lemma slice_two {A} (d : A) (l : list A) (i : nat) :
  (i + 2 <= List.length l)%nat ->
  slice l i (i + 2) = [nth i l d; nth (S i) l d].
Proof.
  revert l. induction i as [|i IH]; intros l Hl.
  - destruct l as [|a [|b l]]; simpl in Hl; try lia. reflexivity.
  - destruct l as [|a l]; simpl in Hl; try lia.
    specialize (IH l ltac:(lia)). unfold slice in *.
    replace (S i + 2 - S i)%nat with (i + 2 - i)%nat by lia.
    simpl skipn. rewrite IH. reflexivity.
Qed.

(** ** [parse_header] *)

(** What [parse_header] does on a readable file, case by case. *)
Lemma parse_header_cases (p : Parser) (content : list byte) (E : Engine) :
  let s := {| self := p; disk := Readable content; engine := E |} in
  disk (snd (parse_header s)) = Readable content /\
  (((List.length content < 100)%nat /\ fst (parse_header s) = Raise too_short_error) \/
   ((100 <= List.length content)%nat /\ firstn 16 content <> SQLITE_SIGNATURE /\
    fst (parse_header s) = Raise bad_signature_error) \/
   ((100 <= List.length content)%nat /\ firstn 16 content = SQLITE_SIGNATURE /\
    exists hd, fst (parse_header s) = Return hd /\
               header_data (self (snd (parse_header s))) = Some hd /\
               page_size (self (snd (parse_header s))) = hd_page_size hd /\
               hd_page_size hd =
                 (if unpack_be (slice (firstn 100 content) 16 18) =? 1 then 65536
                  else unpack_be (slice (firstn 100 content) 16 18)))).
Proof.
  intros s. unfold parse_header, bind, read_all. simpl.
  rewrite length_firstn.
  destruct (Z.ltb_spec (Z.of_nat (Nat.min 100 (List.length content))) 100) as [Hlt|Hge].
  - simpl. split; [reflexivity|]. left. split; [lia | reflexivity].
  - assert (Hlen : (100 <= List.length content)%nat) by lia.
    destruct (bytes_startswith (firstn 100 content) SQLITE_SIGNATURE) eqn:Hsig; simpl.
    + split; [reflexivity|]. right. right.
      apply bytes_startswith_firstn in Hsig.
      change (List.length SQLITE_SIGNATURE) with 16%nat in Hsig.
      rewrite firstn_firstn_le in Hsig by lia.
      split; [exact Hlen|]. split; [exact Hsig|].
      eexists. split; [reflexivity|]. split; [reflexivity|]. split; reflexivity.
    + split; [reflexivity|]. right. left.
      split; [exact Hlen|]. split; [|reflexivity].
      intros Heq.
      assert (bytes_startswith (firstn 100 content) SQLITE_SIGNATURE = true) as Habs.
      { apply bytes_startswith_firstn.
        change (List.length SQLITE_SIGNATURE) with 16%nat.
        rewrite firstn_firstn_le by lia. exact Heq. }
      congruence.
Qed.

(** C2, as the code has it. On a readable file [parse_header] fails with
    the too-short error exactly when the file holds fewer than 100 bytes;
    it fails with the bad-signature error exactly when the file holds at
    least 100 bytes and its first 16 bytes are not the signature; it
    succeeds, returning the decoded fields it also stores in the parser,
    exactly when the file holds at least 100 bytes that start with the
    signature; and the file is left as it was in every case. *)
Theorem parse_header_errors (p : Parser) (content : list byte) (E : Engine) :
  let s := {| self := p; disk := Readable content; engine := E |} in
  (fst (parse_header s) = Raise too_short_error <-> (List.length content < 100)%nat) /\
  (fst (parse_header s) = Raise bad_signature_error <->
     (100 <= List.length content)%nat /\ firstn 16 content <> SQLITE_SIGNATURE) /\
  ((exists hd, fst (parse_header s) = Return hd /\
               header_data (self (snd (parse_header s))) = Some hd) <->
     (100 <= List.length content)%nat /\ firstn 16 content = SQLITE_SIGNATURE) /\
  disk (snd (parse_header s)) = Readable content.
Proof.
  intros s.
  destruct (parse_header_cases p content E) as [Hdisk Hcases].
  fold s in Hdisk, Hcases.
  assert (Hne : too_short_error <> bad_signature_error) by discriminate.
  destruct Hcases as [[Hl Hr] | [(Hl & Hs & Hr) | (Hl & Hs & hd & Hr & Hh & _)]].
  - rewrite Hr. split; [|split; [|split]]; try exact Hdisk.
    + split; [intros _; exact Hl | reflexivity].
    + split; [intros H; congruence | intros [H _]; lia].
    + split; [intros (hd & H & _); discriminate | intros [H _]; lia].
  - rewrite Hr. split; [|split; [|split]]; try exact Hdisk.
    + split; [intros H; congruence | intros H; lia].
    + split; [intros _; split; assumption | reflexivity].
    + split; [intros (hd & H & _); discriminate | intros [_ H]; congruence].
  - rewrite Hr. split; [|split; [|split]]; try exact Hdisk.
    + split; [discriminate | intros H; lia].
    + split; [discriminate | intros [_ H]; congruence].
    + split; [intros _; split; assumption |].
      intros _. exists hd. split; [reflexivity | exact Hh].
Qed.

(** C2, the claim as worded fails: a file of 14 bytes does not start
    with the signature, yet the error is the too-short one, not the
    bad-signature one. *)
Lemma parse_header_short_file_counterexample :
  let s := start "evidence.db" short_file no_engine in
  firstn 16 (list_byte_of_string "not a database") <> SQLITE_SIGNATURE /\
  fst (parse_header s) = Raise too_short_error /\
  ~ (fst (parse_header s) = Raise bad_signature_error <->
     firstn 16 (list_byte_of_string "not a database") <> SQLITE_SIGNATURE).
Proof.
  intros s.
  assert (H1 : firstn 16 (list_byte_of_string "not a database") <> SQLITE_SIGNATURE)
    by (vm_compute; discriminate).
  assert (H2 : fst (parse_header s) = Raise too_short_error) by reflexivity.
  split; [exact H1|]. split; [exact H2|].
  intros [_ Hback]. specialize (Hback H1). rewrite H2 in Hback. discriminate.
Qed.



(** The raw value 4096 decodes to itself. *)
Example page_size_4096 :
  exists hd,
    fst (parse_header (start "slack.db" slack_file no_engine)) = Return hd /\
    hd_page_size hd = 4096.
Proof. eexists. split; reflexivity. Qed.

(** ** [search_for_deleted_records] *)

(** Unfolds the plumbing of a method down to the case analyses it makes. *)
Ltac run_method :=
  cbv beta iota zeta delta
    [bind ret raise try_except get_self put_self read_all query
     ensure_connection connect_to_db fst snd self disk engine sql negb
     is_sqlite_error is_exception open_rb].

(** C3, the claim as worded fails: the header declares five freelist
    pages and the file is 4096 bytes longer than its declared extent, yet
    with no connection to the engine no signal is emitted. *)
Lemma deleted_records_no_connection_counterexample :
  let s := snd (parse_header (start "slack.db" slack_file no_engine)) in
  exists hd,
    header_data (self s) = Some hd /\
    total_freelist_pages hd = 5 /\
    database_size_pages hd * hd_page_size hd = 4096 /\
    file_size (self s) = 8192 /\
    fst (search_for_deleted_records s) = Return [].
Proof.
  intros s. eexists. split; [reflexivity|].
  repeat split; vm_compute; reflexivity.
Qed.

(** C3, as the code has it. With the header decoded, the file readable, a
    connection open or obtainable and the engine reporting [n] freelist
    pages, the detector emits a [freelist_pages] signal carrying [n]
    exactly when [n > 0], and after it a [slack_space] signal with the
    offset [database_size_pages * page_size] and the size
    [file_size - offset] exactly when that product is positive and
    smaller than the file size; either rule fires whatever the other
    does. With no connection obtainable nothing is emitted. *)
Theorem deleted_records_with_connection (s : State) :
  (forall (hd : HeaderData) (content : list byte) (n : Z),
     connection (self s) = true \/ can_connect (engine s) = true ->
     pragma_freelist_count (engine s) = inr (Some n) ->
     disk s = Readable content ->
     header_data (self s) = Some hd ->
     let expected_size := database_size_pages hd * page_size (self s) in
     fst (search_for_deleted_records s) =
       Return ((if n >? 0 then [FreelistPages n] else []) ++
               (if (expected_size >? 0) && (file_size (self s) >? expected_size)
                then [SlackSpace (hex expected_size) (file_size (self s) - expected_size)]
                else []))) /\
  (connection (self s) = false -> can_connect (engine s) = false ->
   fst (search_for_deleted_records s) = Return []).
Proof.
  destruct s as [p d E]. split.
  - intros hd content n Hconn Hfree Hdisk Hhd expected_size. simpl in *.
    assert (Hc : (if connection p then true else can_connect E) = true).
    { destruct Hconn as [-> | ->]; [reflexivity | destruct (connection p); reflexivity]. }
    subst d. unfold search_for_deleted_records. run_method.
    destruct (connection p) eqn:Hcp; run_method;
      rewrite ?Hc, ?Hfree; run_method; simpl;
      destruct (n >? 0); run_method; simpl; rewrite ?Hcp, Hhd; fold expected_size;
        rewrite (andb_comm (file_size p >? expected_size));
        destruct ((expected_size >? 0) && (file_size p >? expected_size)); reflexivity.
  - simpl. intros Hcp HE. unfold search_for_deleted_records. run_method.
    rewrite Hcp. run_method. rewrite HE. reflexivity.
Qed.

Lemma deleted_records_with_connection_witness :
  let s := snd (parse_header (start "slack.db" slack_file toy_engine)) in
  fst (search_for_deleted_records s) =
    Return [FreelistPages 5; SlackSpace "0x1000" 4096].
Proof.
  intros s.
  exact (proj1 (deleted_records_with_connection s) _ _ 5
           (or_intror eq_refl) eq_refl eq_refl eq_refl).
Defined.

(** ** [find_hex_pattern] *)

Lemma bytes_startswith_nil_r (bs : list byte) : bytes_startswith bs [] = true.
Proof. destruct bs; reflexivity. Qed.

Lemma bytes_startswith_nil_l (sub : list byte) :
  sub <> [] -> bytes_startswith [] sub = false.
Proof. destruct sub; [congruence | reflexivity]. Qed.

Lemma occurs_at_startswith (data sub : list byte) (q : nat) :
  occurs_at data sub q <-> bytes_startswith (skipn q data) sub = true.
Proof.
  unfold occurs_at, slice. rewrite bytes_startswith_firstn.
  replace (q + List.length sub - q)%nat with (List.length sub) by lia.
  reflexivity.
Qed.

Lemma occurs_at_bound (data sub : list byte) (q : nat) :
  occurs_at data sub q -> (q + List.length sub <= List.length data \/ sub = [])%nat.
Proof.
  unfold occurs_at, slice. intros H.
  destruct sub as [|x sub]; [right; reflexivity | left].
  apply (f_equal (@List.length byte)) in H.
  rewrite length_firstn, length_skipn in H. simpl in *. lia.
Qed.

(** The loop never leaves on the empty pattern. *)
Lemma search_loop_empty_pattern (fuel : nat) (data : list byte) (results : list SearchResult) :
  search_loop fuel data [] 0 results = None.
Proof.
  revert results. induction fuel as [|fuel IH]; intros results; [reflexivity|].
  simpl. unfold bytes_find.
  destruct (Z.gtb_spec 0 (Z.of_nat (List.length data))) as [Hlt|Hle]; [lia|].
  simpl. destruct data; simpl; apply IH.
Qed.

(** What [find_at] answers: -1 when [sub] starts nowhere in [data], and
    else the first position where it starts. *)
Lemma find_at_spec (data sub : list byte) (pos : nat) :
  (find_at data sub pos = -1 /\
   forall k, (k <= List.length data)%nat -> bytes_startswith (skipn k data) sub = false) \/
  (exists k, find_at data sub pos = Z.of_nat (pos + k) /\
             (k <= List.length data)%nat /\
             bytes_startswith (skipn k data) sub = true /\
             forall j, (j < k)%nat -> bytes_startswith (skipn j data) sub = false).
Proof.
  revert pos. induction data as [|a data IH]; intros pos.
  - cbn [find_at]. destruct (bytes_startswith [] sub) eqn:Hs.
    + right. exists 0%nat. rewrite Nat.add_0_r.
      repeat split; try (simpl; lia); try exact Hs.
    + left. split; [reflexivity|]. intros k Hk.
      destruct k; simpl; exact Hs.
  - cbn [find_at]. destruct (bytes_startswith (a :: data) sub) eqn:Hs.
    + right. exists 0%nat. rewrite Nat.add_0_r.
      repeat split; try (simpl; lia); try exact Hs.
    + destruct (IH (S pos)) as [[Hf Hno] | (k & Hf & Hk & Hyes & Hno)].
      * left. split; [exact Hf|]. intros [|k] Hk; [exact Hs|].
        simpl. apply Hno. simpl in Hk. lia.
      * right. exists (S k). repeat split.
        -- rewrite Hf. f_equal. lia.
        -- simpl. lia.
        -- exact Hyes.
        -- intros [|j] Hj; [exact Hs|]. simpl. apply Hno. lia.
Qed.

(** The entry appended by one turn of the loop is the one the
    specification describes. *)
Lemma found_entry (data sub : list byte) (o : nat) :
  let offset := Z.of_nat o in
  let context_data :=
    slice data (Z.to_nat (Z.max 0 (offset - 16)))
      (Z.to_nat (Z.min (Z.of_nat (List.length data))
                       (offset + Z.of_nat (List.length sub) + 16))) in
  Found offset (hex offset) (hexlify context_data) (ascii_or_dot context_data) =
  found_at data sub o.
Proof.
  intros offset context_data. unfold found_at, context_window.
  subst context_data offset.
  replace (Z.to_nat (Z.max 0 (Z.of_nat o - 16))) with (o - 16)%nat by lia.
  replace (Z.to_nat (Z.min (Z.of_nat (List.length data))
                          (Z.of_nat o + Z.of_nat (List.length sub) + 16)))
    with (Nat.min (List.length data) (o + List.length sub + 16)) by lia.
  reflexivity.
Qed.

(** The loop started at cursor [c], with more fuel than bytes are left,
    leaves with the matches of a left-to-right scan from [c]. *)
Lemma search_loop_scan (data sub : list byte) :
  sub <> [] ->
  forall (fuel c : nat) (results : list SearchResult),
    (c <= List.length data)%nat ->
    (List.length data - c < fuel)%nat ->
    exists offs,
      search_loop fuel data sub (Z.of_nat c) results =
        Some (results ++ map (found_at data sub) offs) /\
      Forall (fun o => (c <= o)%nat /\ occurs_at data sub o) offs /\
      (forall i o1 o2, offs !! i = Some o1 -> offs !! S i = Some o2 ->
                       (o1 + List.length sub <= o2)%nat) /\
      (forall q, (c <= q)%nat -> occurs_at data sub q ->
                 exists o, In o offs /\ (o <= q < o + List.length sub)%nat).
Proof.
  intros Hsub fuel. induction fuel as [|fuel IH]; intros c results Hc Hfuel; [lia|].
  cbn [search_loop]. unfold bytes_find.
  destruct (Z.gtb_spec (Z.of_nat c) (Z.of_nat (List.length data))) as [Hgt|_]; [lia|].
  rewrite Nat2Z.id.
  destruct (find_at_spec (skipn c data) sub c) as [[Hf Hno] | (k & Hf & Hk & Hyes & Hno)].
  - rewrite Hf. simpl. exists []. simpl. rewrite app_nil_r.
    split; [reflexivity|]. split; [constructor|]. split.
    + intros i o1 o2 H. destruct i; discriminate.
    + intros q Hq Hocc. exfalso.
      apply occurs_at_startswith in Hocc.
      replace q with (c + (q - c))%nat in Hocc by lia.
      rewrite <- drop_drop in Hocc.
      destruct (Nat.le_gt_cases (q - c) (List.length (skipn c data))) as [Hle|Hgt].
      * rewrite (Hno _ Hle) in Hocc. discriminate.
      * rewrite skipn_all2 in Hocc by lia.
        rewrite bytes_startswith_nil_l in Hocc by exact Hsub. discriminate.
  - rewrite Hf.
    destruct (Z.eqb_spec (Z.of_nat (c + k)) (-1)) as [Habs|_]; [lia|].
    pose proof Hyes as Hocc. rewrite drop_drop in Hocc.
    apply occurs_at_startswith in Hocc.
    destruct (occurs_at_bound _ _ _ Hocc) as [Hb|Hb]; [|congruence].
    assert (Hlen : (1 <= List.length sub)%nat)
      by (destruct sub; [congruence | simpl; lia]).
    rewrite found_entry.
    replace (Z.of_nat (c + k) + Z.of_nat (List.length sub))
      with (Z.of_nat (c + k + List.length sub)) by lia.
    destruct (IH (c + k + List.length sub)%nat
                 (results ++ [found_at data sub (c + k)]) ltac:(lia) ltac:(lia))
      as (offs & Hrun & Hall & Hgap & Hcov).
    exists ((c + k)%nat :: offs). split; [|split; [|split]].
    + rewrite Hrun. rewrite <- app_assoc. reflexivity.
    + constructor; [split; [lia | exact Hocc]|].
      eapply Forall_impl; [exact Hall|]. simpl. intros o [Ho1 Ho2]. split; [lia | exact Ho2].
    + intros [|i] o1 o2 H1 H2; simpl in H1, H2.
      * injection H1 as <-.
        assert (Hin : o2 ∈ offs) by (eapply list_elem_of_lookup_2; exact H2).
        rewrite Forall_forall in Hall. apply Hall in Hin. lia.
      * eapply Hgap; eassumption.
    + intros q Hq Hoq.
      destruct (Nat.lt_ge_cases q (c + k)) as [Hlt|Hge].
      * exfalso. apply occurs_at_startswith in Hoq.
        replace q with (c + (q - c))%nat in Hoq by lia.
        rewrite <- drop_drop in Hoq.
        rewrite Hno in Hoq by lia. discriminate.
      * destruct (Nat.lt_ge_cases q (c + k + List.length sub)) as [Hin|Hout].
        -- exists (c + k)%nat. split; [left; reflexivity | lia].
        -- destruct (Hcov q Hout Hoq) as (o & Ho & Hr).
           exists o. split; [right; exact Ho | exact Hr].
Qed.

Lemma search_loop_more_fuel (data sub : list byte) (fuel : nat) :
  forall (offset : Z) (results out : list SearchResult) (fuel' : nat),
    search_loop fuel data sub offset results = Some out ->
    (fuel <= fuel')%nat ->
    search_loop fuel' data sub offset results = Some out.
Proof.
  induction fuel as [|fuel IH]; intros offset results out fuel' Hrun Hle; [discriminate|].
  destruct fuel' as [|fuel']; [lia|].
  cbn [search_loop] in *.
  destruct (bytes_find data sub offset =? -1); [exact Hrun|].
  eapply IH; [exact Hrun | lia].
Qed.

(** C5. For a hex pattern that decodes to a non-empty byte string and a
    readable file, the search leaves its loop within [length data + 1]
    turns and returns, for the offsets of a left-to-right scan without
    overlaps, the absolute offset of each match with the context window
    of 16 bytes before and after it, clipped to the file; when the
    pattern occurs at offset 0 and nowhere else (as the 16-byte signature
    does in a file that begins with it), the only match is at offset 0. *)
Theorem find_hex_pattern_scan (s : State) (pattern : string) (sub data : list byte) :
  unhexlify pattern = Return sub ->
  sub <> [] ->
  disk s = Readable data ->
  exists offs,
    (forall fuel, (List.length data < fuel)%nat ->
       find_hex_pattern fuel pattern s =
         (Return (Some (map (found_at data sub) offs)), s)) /\
    left_to_right_scan data sub offs /\
    (occurs_at data sub 0 ->
     (forall q, (0 < q)%nat -> ~ occurs_at data sub q) ->
     offs = [0%nat]).
Proof.
  intros Hhex Hsub Hdisk.
  destruct (search_loop_scan data sub Hsub (S (List.length data)) 0 []
              ltac:(lia) ltac:(lia)) as (offs & Hrun & Hall & Hgap & Hcov).
  exists offs. split; [|split].
  - intros fuel Hfuel. destruct s as [p d E]. simpl in Hdisk. subst d.
    unfold find_hex_pattern. run_method. rewrite Hhex.
    change (Z.of_nat 0) with 0 in Hrun.
    rewrite (search_loop_more_fuel _ _ _ _ _ _ fuel Hrun) by lia.
    reflexivity.
  - split; [|split].
    + eapply Forall_impl; [exact Hall|]. intros o [_ Ho]. exact Ho.
    + exact Hgap.
    + intros q Hq. apply Hcov; [lia | exact Hq].
  - intros H0 Honly.
    assert (Hzero : forall o, o ∈ offs -> o = 0%nat).
    { intros o Ho. rewrite Forall_forall in Hall.
      destruct (Hall o Ho) as [_ Hocc].
      destruct o as [|o]; [reflexivity|].
      exfalso. apply (Honly (S o)); [lia | exact Hocc]. }
    destruct offs as [|o1 [|o2 rest]].
    + destruct (Hcov 0%nat ltac:(lia) H0) as (o & [] & _).
    + f_equal. apply Hzero. left.
    + exfalso.
      assert (H1 : o1 = 0%nat) by (apply Hzero; left).
      assert (H2 : o2 = 0%nat) by (apply Hzero; right; left).
      specialize (Hgap 0%nat o1 o2 eq_refl eq_refl).
      destruct sub; [congruence | simpl in Hgap; lia].
Qed.

(** C10, what the code does on the empty pattern: however many turns of
    the loop are run, the method has not returned. *)
Theorem find_hex_pattern_empty_pattern_never_returns
  (fuel : nat) (p : Parser) (content : list byte) (E : Engine) :
  fst (find_hex_pattern fuel ""
         {| self := p; disk := Readable content; engine := E |}) = Return None.
Proof.
  unfold find_hex_pattern. run_method. simpl.
  rewrite search_loop_empty_pattern. reflexivity.
Qed.

Lemma find_hex_pattern_scan_witness :
  let s := start "header.db" (Readable header_only) no_engine in
  find_hex_pattern 101 signature_hex s =
    (Return (Some [found_at header_only SQLITE_SIGNATURE 0]), s) /\
  left_to_right_scan header_only SQLITE_SIGNATURE [0%nat].
Proof.
  intros s.
  destruct (find_hex_pattern_scan s signature_hex SQLITE_SIGNATURE header_only
              eq_refl ltac:(discriminate) eq_refl) as (offs & Hrun & Hscan & _).
  assert (Hoffs : offs = [0%nat]).
  { specialize (Hrun 101%nat ltac:(vm_compute; lia)).
    destruct offs as [|o [|o' rest]]; vm_compute in Hrun; try discriminate.
    destruct o; [reflexivity | discriminate]. }
  subst offs. split; [apply Hrun; vm_compute; lia | exact Hscan].
Defined.

(** ** [detect_artifact_type] *)

Lemma append_cons (c : ascii) (p q : string) :
  String.append (String c p) q = String c (String.append p q).
Proof. reflexivity. Qed.

Lemma prefix_append (p s : string) :
  String.prefix p s = true <-> exists post, s = String.append p post.
Proof.
  revert s. induction p as [|c p IH]; intros s.
  - destruct s; simpl; split; try reflexivity; intros _; eexists; reflexivity.
  - destruct s as [|d s]; simpl.
    + split; [discriminate | intros [post H]; discriminate].
    + destruct (Ascii.ascii_dec c d) as [->|Hne].
      * rewrite IH. split; intros [post H]; exists post;
          rewrite append_cons in *; congruence.
      * split; [discriminate | intros [post H]; rewrite append_cons in H; congruence].
Qed.

Lemma contains_spec (s p : string) :
  contains s p = true <->
  exists pre post, s = String.append pre (String.append p post).
Proof.
  induction s as [|c s IH].
  - cbn [contains]. rewrite orb_false_r, prefix_append. split.
    + intros [post H]. exists EmptyString, post. exact H.
    + intros (pre & post & H). destruct pre; [exists post; exact H | discriminate].
  - cbn [contains]. rewrite orb_true_iff, prefix_append, IH. split.
    + intros [[post H] | (pre & post & H)].
      * exists EmptyString, post. exact H.
      * exists (String c pre), post. rewrite append_cons. congruence.
    + intros (pre & post & H). destruct pre as [|d pre].
      * left. exists post. exact H.
      * right. exists pre, post. rewrite append_cons in H. congruence.
Qed.

Lemma ci_substring_contains (pattern s : string) :
  ci_substring pattern s <-> contains (lower s) (lower pattern) = true.
Proof. unfold ci_substring. rewrite contains_spec. reflexivity. Qed.

(** The test the loop makes on one signature. *)
Lemma signature_test (tables : gset string) (base : string) (sg : Signature) :
  signature_matches tables base sg <->
  existsb (has_table tables) (sig_tables sg) = true /\
  existsb (fun pattern => contains (lower base) (lower pattern)) (file_patterns sg) = true.
Proof.
  unfold signature_matches. rewrite !existsb_exists. split.
  - intros [(t & Ht & Hin) (pat & Hp & Hci)]. split.
    + exists t. split; [exact Ht|]. unfold has_table. apply bool_decide_eq_true. exact Hin.
    + exists pat. split; [exact Hp|]. apply ci_substring_contains. exact Hci.
  - intros [(t & Ht & Hin) (pat & Hp & Hci)]. split.
    + exists t. split; [exact Ht|]. unfold has_table in Hin.
      apply bool_decide_eq_true in Hin. exact Hin.
    + exists pat. split; [exact Hp|]. apply ci_substring_contains. exact Hci.
Qed.

Lemma scan_signatures_none (sigs : list (string * Signature)) (tables : gset string)
  (base : string) :
  (forall x, In x sigs -> ~ signature_matches tables base (snd x)) ->
  scan_signatures sigs tables (lower base) = None.
Proof.
  induction sigs as [|[a sg] sigs IH]; intros Hno; [reflexivity|].
  cbn [scan_signatures].
  assert (Hsg : ~ signature_matches tables base sg) by (apply (Hno (a, sg)); left; reflexivity).
  rewrite signature_test in Hsg.
  destruct (existsb (has_table tables) (sig_tables sg)) eqn:H1;
    [destruct (existsb _ (file_patterns sg)) eqn:H2|].
  - exfalso. apply Hsg. split; reflexivity.
  - apply IH. intros x Hx. apply Hno. right. exact Hx.
  - apply IH. intros x Hx. apply Hno. right. exact Hx.
Qed.

Lemma scan_signatures_first (pre post : list (string * Signature)) (artifact : string)
  (sg : Signature) (tables : gset string) (base : string) :
  signature_matches tables base sg ->
  (forall x, In x pre -> ~ signature_matches tables base (snd x)) ->
  scan_signatures (pre ++ (artifact, sg) :: post) tables (lower base) = Some artifact.
Proof.
  intros Hsg. induction pre as [|[a0 sg0] pre IH]; intros Hno.
  - cbn [app scan_signatures]. apply signature_test in Hsg as [-> ->]. reflexivity.
  - cbn [app scan_signatures].
    assert (H0 : ~ signature_matches tables base sg0) by (apply (Hno (a0, sg0)); left; reflexivity).
    rewrite signature_test in H0.
    destruct (existsb (has_table tables) (sig_tables sg0)) eqn:H1;
      [destruct (existsb _ (file_patterns sg0)) eqn:H2|].
    + exfalso. apply H0. split; reflexivity.
    + apply IH. intros x Hx. apply Hno. right. exact Hx.
    + apply IH. intros x Hx. apply Hno. right. exact Hx.
Qed.

(** The chain of tests after the loop is the chain of fallback rules. *)
Lemma fallback_chain (tables : gset string) :
  tables <> ∅ ->
  (if has_table tables "urls" && has_table tables "visits" then "web_browser_history"
   else if has_table tables "cookies" then "web_browser_cookies"
   else if has_table tables "messages" then "message_store"
   else if has_table tables "android_metadata" then "android_app_data"
   else "sqlite_application_data")%string = fallback_kind tables.
Proof.
  intros Hne. unfold fallback_kind, has_table.
  repeat (case_bool_decide; simpl); repeat case_decide; first [reflexivity | tauto].
Qed.

Lemma fallback_empty : fallback_kind ∅ = "unknown"%string.
Proof.
  vm_compute. reflexivity.
Qed.

(** C1. With a catalog loaded, the first signature in declared order
    that matches (some table of its required set is in the catalog and
    some pattern of its is a case-insensitive substring of the base name
    of the file) gives the result; when no signature matches, the result
    follows the fallback rules in their order: [urls] and [visits], then
    [cookies], then [messages], then [android_metadata], then any
    non-empty catalog, then unknown. *)
Theorem detect_artifact_type_precedence (s : State) (sc : Schema) :
  p_schema (self s) = Some sc ->
  let tables := dom (s_tables sc) in
  let base := basename (db_path (self s)) in
  (forall pre artifact sg post,
     ARTIFACT_SIGNATURES = pre ++ (artifact, sg) :: post ->
     signature_matches tables base sg ->
     (forall x, In x pre -> ~ signature_matches tables base (snd x)) ->
     fst (detect_artifact_type s) = Return artifact) /\
  ((forall x, In x ARTIFACT_SIGNATURES -> ~ signature_matches tables base (snd x)) ->
   fst (detect_artifact_type s) = Return (fallback_kind tables)).
Proof.
  intros Hsc tables base. destruct s as [p d E]. simpl in Hsc, base.
  assert (Hrun : forall r,
    fst (detect_artifact_type {| self := p; disk := d; engine := E |}) = r <->
    (if bool_decide (s_tables sc = ∅) then Return "unknown"%string
     else match scan_signatures ARTIFACT_SIGNATURES tables (lower base) with
          | Some artifact => Return artifact
          | None =>
              Return (if has_table tables "urls" && has_table tables "visits"
                      then "web_browser_history"
                      else if has_table tables "cookies" then "web_browser_cookies"
                      else if has_table tables "messages" then "message_store"
                      else if has_table tables "android_metadata" then "android_app_data"
                      else "sqlite_application_data")%string
          end) = r).
  { intros r. unfold detect_artifact_type. run_method. rewrite Hsc. run_method.
    unfold schema_tables. rewrite Hsc. fold tables. fold base.
    destruct (bool_decide (s_tables sc = ∅)); [reflexivity|].
    destruct (scan_signatures ARTIFACT_SIGNATURES tables (lower base));
      [unfold classified; run_method; reflexivity|].
    destruct (has_table tables "urls" && has_table tables "visits");
      [unfold classified; run_method; reflexivity|].
    destruct (has_table tables "cookies");
      [unfold classified; run_method; reflexivity|].
    destruct (has_table tables "messages");
      [unfold classified; run_method; reflexivity|].
    destruct (has_table tables "android_metadata");
      unfold classified; run_method; reflexivity. }
  split.
  - intros pre artifact sg post Hsigs Hsg Hpre.
    apply Hrun.
    assert (Hne : s_tables sc <> ∅).
    { destruct Hsg as [(t & _ & Ht) _]. intros Hempty.
      unfold tables in Ht. rewrite Hempty, dom_empty_L in Ht.
      exact (not_elem_of_empty t Ht). }
    rewrite bool_decide_eq_false_2 by exact Hne.
    rewrite Hsigs, (scan_signatures_first pre post artifact sg tables base Hsg Hpre).
    reflexivity.
  - intros Hno. apply Hrun.
    rewrite (scan_signatures_none _ _ _ Hno).
    case_bool_decide as Hempty.
    + unfold tables. rewrite Hempty, dom_empty_L, fallback_empty. reflexivity.
    + rewrite fallback_chain; [reflexivity|].
      unfold tables. intros Hdom. apply Hempty. apply dom_empty_iff_L. exact Hdom.
Qed.

Lemma detect_artifact_type_precedence_witness :
  fst (detect_artifact_type history_state) = Return "chrome_history"%string /\
  fst (detect_artifact_type renamed_history_state) = Return "web_browser_history"%string.
Proof.
  split.
  - refine (proj1 (detect_artifact_type_precedence history_state _ eq_refl)
              [] _ _ _ eq_refl _ _).
    + apply signature_test. vm_compute. split; reflexivity.
    + intros x [].
  - refine (eq_trans
              (proj2 (detect_artifact_type_precedence renamed_history_state _ eq_refl) _) _).
    + apply (proj1 (List.Forall_forall _ _)).
      repeat constructor; intros Hm; apply signature_test in Hm;
        vm_compute in Hm; destruct Hm; discriminate.
    + vm_compute. reflexivity.
Defined.

(** ** [get_hex_dump] *)

Lemma pairs_hexlify (row : list byte) :
  pairs (hexlify row) = map hex_pair row.
Proof.
  induction row as [|b row IH]; [reflexivity|].
  cbn [hexlify map]. unfold hex_pair at 1.
  change (pairs (String (hex_digit (Byte.to_N b / 16))
                   (String (hex_digit (Byte.to_N b mod 16)) (hexlify row))) =
          hex_pair b :: map hex_pair row).
  cbn [pairs]. rewrite IH. reflexivity.
Qed.

Lemma range_step_16_succ (n : nat) :
  (0 < n)%nat ->
  range_step n 16 = 0%nat :: map (fun i => (16 + i)%nat) (range_step (n - 16) 16).
Proof.
  intros Hn. unfold range_step.
  assert (Hdiv : ((n + 16 - 1) / 16 = S ((n - 16 + 16 - 1) / 16))%nat).
  { destruct (Nat.lt_ge_cases n 16) as [Hlt|Hge].
    - replace (n - 16)%nat with 0%nat by lia.
      change ((0 + 16 - 1) / 16)%nat with 0%nat.
      symmetry. apply Nat.div_unique with (r := (n - 1)%nat); lia.
    - replace (n + 16 - 1)%nat with ((n - 16 + 16 - 1) + 1 * 16)%nat by lia.
      rewrite Nat.div_add by lia. lia. }
  rewrite Hdiv. cbn [seq map]. f_equal.
  rewrite <- seq_shift, !map_map. apply map_ext. intros k. lia.
Qed.

Lemma dump_rows_nil : dump_rows [] = [].
Proof. reflexivity. Qed.

Lemma dump_rows_cons (data : list byte) :
  data <> [] ->
  dump_rows data = firstn 16 data :: dump_rows (skipn 16 data).
Proof.
  intros Hne. unfold dump_rows.
  rewrite range_step_16_succ by (destruct data; [congruence | simpl; lia]).
  cbn [map]. f_equal.
  rewrite length_skipn, map_map. apply map_ext. intros i.
  unfold slice. rewrite drop_drop.
  replace (16 + i + 16 - (16 + i))%nat with (i + 16 - i)%nat by lia.
  reflexivity.
Qed.

(** The rows of a dump: they partition the bytes read, every row but the
    last holds 16 bytes and the last holds between 1 and 16. *)
Lemma dump_rows_partition (n : nat) :
  forall data : list byte,
    (List.length data <= n)%nat ->
    concat (dump_rows data) = data /\
    Forall (fun row => (1 <= List.length row <= 16)%nat) (dump_rows data) /\
    (forall i row, dump_rows data !! i = Some row ->
                   (S i < List.length (dump_rows data))%nat ->
                   List.length row = 16%nat).
Proof.
  induction n as [|n IH]; intros data Hlen.
  - destruct data; [|simpl in Hlen; lia].
    rewrite dump_rows_nil. repeat split; [constructor | intros i row H; discriminate].
  - destruct data as [|b data'] eqn:Hd.
    { rewrite dump_rows_nil. repeat split; [constructor | intros i row H; discriminate]. }
    rewrite <- Hd in *. assert (Hne : data <> []) by (subst; discriminate).
    rewrite (dump_rows_cons data Hne).
    assert (Hpos : (1 <= List.length data)%nat) by (subst; simpl; lia).
    destruct (IH (skipn 16 data)) as (Hcat & Hall & Hfull).
    { rewrite length_skipn. lia. }
    split; [|split].
    + cbn [concat]. rewrite Hcat. apply firstn_skipn.
    + constructor; [|exact Hall]. rewrite length_firstn. lia.
    + intros [|i] row Hrow Hlast; cbn [List.length] in Hlast.
      * change (Some (firstn 16 data) = Some row) in Hrow.
        injection Hrow as <-. rewrite length_firstn.
        destruct (Nat.lt_ge_cases (List.length data) 16) as [Hlt|Hge]; [|lia].
        exfalso.
        assert (Hnil : skipn 16 data = []) by (apply skipn_all2; lia).
        rewrite Hnil, dump_rows_nil in Hlast. simpl in Hlast. lia.
      * change (dump_rows (skipn 16 data) !! i = Some row) in Hrow.
        apply (Hfull i row Hrow). lia.
Qed.

Lemma ascii_or_dot_map (row : list byte) :
  ascii_or_dot row = string_of_list_ascii (map printable row).
Proof.
  induction row as [|b row IH]; [reflexivity|].
  cbn [ascii_or_dot map string_of_list_ascii]. rewrite IH. reflexivity.
Qed.

(** [seek] and [read] within what the machine allows: the bytes from the
    offset on, [length] of them at most. *)
Lemma seek_read_in_range (os : Platform) (content : list byte) (offset length : Z) :
  0 <= offset <= max_offset os -> offset < 9223372036854775808 ->
  0 <= length <= 9223372036854775774 ->
  (0 < length -> can_allocate os length = true) ->
  seek_read os content offset length =
    Return (firstn (Z.to_nat length) (skipn (Z.to_nat offset) content)).
Proof.
  intros Hoff Hfit Hlen Hbuf. unfold seek_read.
  destruct (Z.ltb_spec offset (-9223372036854775808)) as [?|_]; [lia|].
  destruct (Z.leb_spec 9223372036854775808 offset) as [?|_]; [lia|].
  destruct (Z.ltb_spec offset 0) as [?|_]; [lia|].
  destruct (Z.ltb_spec (max_offset os) offset) as [?|_]; [lia|].
  destruct (Z.ltb_spec length (-9223372036854775808)) as [?|_]; [lia|].
  destruct (Z.leb_spec 9223372036854775808 length) as [?|_]; [lia|].
  destruct (Z.ltb_spec length (-1)) as [?|_]; [lia|].
  destruct (Z.eqb_spec length (-1)) as [?|_]; [lia|].
  cbn [orb].
  destruct (Z.eqb_spec length 0) as [-> | Hnz]; [reflexivity|].
  destruct (Z.ltb_spec 9223372036854775774 length) as [?|_]; [lia|].
  rewrite Hbuf by lia. reflexivity.
Qed.

(** C7, the claim as worded fails. On a file of 100 bytes the offset
    2^63 lies past the end of the file, yet the result is not the empty
    dump: it carries an error field, because the offset does not fit the
    64 bits of a file position. And a length of 2^63 - 1 at offset 0,
    where fewer bytes are to be had, is an error as well. *)
Lemma get_hex_dump_far_offset_counterexample :
  Z.of_nat (List.length header_only) <= 9223372036854775808 /\
  fst (get_hex_dump linux_ext4 9223372036854775808 16
         (start "header.db" (Readable header_only) no_engine)) =
    Return {| dump_offset := 9223372036854775808; dump_length := 16;
              hex_data := []; ascii_data := [];
              dump_error := Some "cannot fit 'int' into an offset-sized integer" |} /\
  fst (get_hex_dump linux_ext4 0 9223372036854775807
         (start "header.db" (Readable header_only) no_engine)) =
    Return {| dump_offset := 0; dump_length := 9223372036854775807;
              hex_data := []; ascii_data := [];
              dump_error := Some "byte string is too large" |}.
Proof. split; [cbn; lia|]. split; reflexivity. Qed.

(** C7, as the code has it. On a readable file, for an offset from 0 up to the
    largest one the file system takes and a length from 0 up to the
    largest one whose buffer can be had, the dump holds the bytes
    [content[offset : offset+length]] (fewer at the end of the file, none
    past it, never an error) cut into rows of 16 bytes, the last row
    possibly shorter; each row is rendered as its two-digit hex pairs
    joined by spaces and as a text row in which the bytes 0x20-0x7E stand
    as their character and every other byte as a dot. An unreadable file
    gives a result whose error field holds the message, and no offset or
    length makes the method raise. *)
Theorem get_hex_dump_result (os : Platform) (s : State) (offset length : Z) :
  (forall content,
     disk s = Readable content ->
     0 <= offset <= max_offset os -> offset < 9223372036854775808 ->
     0 <= length <= 9223372036854775774 ->
     (0 < length -> can_allocate os length = true) ->
     let data := firstn (Z.to_nat length) (skipn (Z.to_nat offset) content) in
     let rows := dump_rows data in
     fst (get_hex_dump os offset length s) =
       Return {| dump_offset := offset; dump_length := length;
                 hex_data := map (fun row => join " " (map hex_pair row)) rows;
                 ascii_data := map (fun row => string_of_list_ascii (map printable row)) rows;
                 dump_error := None |} /\
     (List.length data <= Z.to_nat length)%nat /\
     concat rows = data /\
     Forall (fun row => (1 <= List.length row <= 16)%nat) rows /\
     (forall i row, rows !! i = Some row -> (S i < List.length rows)%nat ->
                    List.length row = 16%nat) /\
     ((List.length content <= Z.to_nat offset)%nat -> rows = [])) /\
  (forall b, (32 <= byte_val b <= 126 -> printable b = ascii_of_byte b) /\
             (~ 32 <= byte_val b <= 126 -> printable b = "."%char)) /\
  (forall msg,
     disk s = Unreadable msg ->
     fst (get_hex_dump os offset length s) =
       Return {| dump_offset := offset; dump_length := length;
                 hex_data := []; ascii_data := []; dump_error := Some msg |}) /\
  (exists r, fst (get_hex_dump os offset length s) = Return r).
Proof.
  destruct s as [p d E]. cbn [disk]. split; [|split; [|split]].
  - intros content -> Hoff Hfit Hlen Hbuf.
    set (data := firstn (Z.to_nat length) (skipn (Z.to_nat offset) content)).
    set (rows := dump_rows data).
    split; [|split; [|split; [|split; [|split]]]].
    + unfold get_hex_dump. run_method. rewrite (seek_read_in_range os content offset length)
        by assumption.
      fold data. fold rows. f_equal. f_equal.
      * apply map_ext. intros row. unfold hex_row. rewrite pairs_hexlify. reflexivity.
      * apply map_ext. intros row. apply ascii_or_dot_map.
    + unfold data. rewrite length_firstn. lia.
    + apply (dump_rows_partition (List.length data) data). lia.
    + apply (dump_rows_partition (List.length data) data). lia.
    + apply (dump_rows_partition (List.length data) data). lia.
    + intros Hpast. unfold rows, data.
      rewrite skipn_all2 by exact Hpast. rewrite firstn_nil. reflexivity.
  - intros b. unfold printable. split.
    + intros [H1 H2].
      destruct (Z.leb_spec 32 (byte_val b)); [|lia].
      destruct (Z.leb_spec (byte_val b) 126); [reflexivity | lia].
    + intros Hout.
      destruct (Z.leb_spec 32 (byte_val b)); [|reflexivity].
      destruct (Z.leb_spec (byte_val b) 126); [lia | reflexivity].
  - intros msg ->. reflexivity.
  - unfold get_hex_dump. run_method.
    destruct d as [content|msg]; [|eexists; reflexivity].
    destruct (seek_read os content offset length); eexists; reflexivity.
Qed.

Lemma get_hex_dump_result_witness :
  fst (get_hex_dump linux_ext4 0 20 (start "header.db" (Readable header_only) no_engine)) =
    Return {| dump_offset := 0; dump_length := 20;
              hex_data := ["53 51 4c 69 74 65 20 66 6f 72 6d 61 74 20 33 00";
                           "10 00 01 01"]%string;
              ascii_data := ["SQLite format 3."; "...."]%string;
              dump_error := None |}.
Proof.
  destruct (proj1 (get_hex_dump_result linux_ext4
                     (start "header.db" (Readable header_only) no_engine) 0 20)
              header_only eq_refl ltac:(cbn; lia) ltac:(lia) ltac:(lia)
              ltac:(intros _; reflexivity)) as [Hdump _].
  rewrite Hdump. vm_compute. reflexivity.
Defined.

(** ** [get_table_data] *)


(** The filter loop keeps the filters on actual columns, in order. *)
Lemma filter_loop (table_name : string) (cols : list ColumnRow) (s : State) :
  pragma_table_info (engine s) table_name = inr cols ->
  forall (fs : list (string * string)) (where_clauses params : list string),
    for_each fs (where_clauses, params) (filter_step table_name) s =
      (Return
         (where_clauses ++
            map (fun kv => String.append (fst kv) " LIKE ?")
              (kept_filters (map cr_name cols) (Some fs)),
          params ++ params_of (kept_filters (map cr_name cols) (Some fs))),
       s).
Proof.
  destruct s as [p d E]. cbn [engine].
  intros Hcols fs. induction fs as [|[column v] fs IH]; intros where_clauses params.
  - cbn. rewrite !app_nil_r. reflexivity.
  - cbn [for_each]. unfold bind at 1. unfold filter_step at 1.
    unfold valid_columns_of. run_method. rewrite Hcols.
    unfold kept_filters, params_of in *. cbn [List.filter fst] in *.
    destruct (in_columns column (map cr_name cols)); cbn [negb].
    + rewrite IH. cbn [map fst snd]. rewrite <- !app_assoc. reflexivity.
    + rewrite IH. reflexivity.
Qed.


Lemma bind_return {A B} (m : M A) (k : A -> M B) (s s' : State) (a : A) :
  m s = (Return a, s') -> bind m k s = k a s'.
Proof. unfold bind. intros ->. reflexivity. Qed.

(** With a connection open or obtainable the guard answers yes and
    leaves the file and the engine as they were. *)
Lemma ensure_connection_ok (s : State) :
  connection (self s) = true \/ can_connect (engine s) = true ->
  exists p', ensure_connection s =
               (Return true, {| self := p'; disk := disk s; engine := engine s |}).
Proof.
  destruct s as [p d E]. cbn [self engine disk]. intros Hconn.
  unfold ensure_connection. run_method.
  destruct (connection p) eqn:Hcp.
  - exists p. reflexivity.
  - destruct Hconn as [Hconn | Hconn]; [discriminate|].
    exists (set_connection p true). run_method. rewrite Hconn. reflexivity.
Qed.

Lemma query_return {A} (stmt : Engine -> string + A) (s : State) (a : A) :
  stmt (engine s) = inr a -> query stmt s = (Return a, s).
Proof. unfold query, sql. intros ->. reflexivity. Qed.

Lemma filter_phase (table_name : string) (cols : list ColumnRow) (s : State)
  (filters : option (list (string * string))) :
  pragma_table_info (engine s) table_name = inr cols ->
  match filters with
  | Some (kv :: fs) => for_each (kv :: fs) ([], []) (filter_step table_name)
  | _ => ret ([], [])
  end s =
  (Return (map (fun kv => String.append (fst kv) " LIKE ?")
             (kept_filters (map cr_name cols) filters),
           params_of (kept_filters (map cr_name cols) filters)), s).
Proof.
  intros Hcols. destruct filters as [[|kv fs]|]; try reflexivity.
  rewrite (filter_loop table_name cols s Hcols). reflexivity.
Qed.

Lemma sort_phase (table_name : string) (cols : list ColumnRow) (s : State)
  (q : string) (sort_column : option string) (sort_direction : string) :
  pragma_table_info (engine s) table_name = inr cols ->
  match sort_column with
  | None | Some EmptyString => ret q
  | Some sc =>
      valid_columns <- valid_columns_of table_name ;;
      if in_columns sc valid_columns then
        ret (String.append q
               (String.append " ORDER BY "
                  (String.append sc (String.append " " sort_direction))))
      else ret q
  end s =
  (Return (with_order q (map cr_name cols) sort_column sort_direction), s).
Proof.
  intros Hcols. destruct sort_column as [[|c sc]|]; try reflexivity.
  unfold valid_columns_of.
  rewrite (bind_return _ _ s s (map cr_name cols)).
  - unfold with_order. destruct (in_columns _ _); reflexivity.
  - rewrite (bind_return _ _ s s cols); [reflexivity|].
    apply query_return. exact Hcols.
Qed.




(** ** [extract_schema] *)

Lemma introspect_table_spec (s : State) (name : string) (tsql : option string) :
  (exists t, introspect_table name tsql s = (Return t, s) /\
             described_by (engine s) name t /\
             (exists cols, pragma_table_info (engine s) name = inr cols) /\
             (exists n, select_count_all (engine s) name = inr n)) \/
  ((exists msg, introspect_table name tsql s = (Raise (SqliteError msg), s)) /\
   ~ ((exists cols, pragma_table_info (engine s) name = inr cols) /\
      (exists n, select_count_all (engine s) name = inr n))).
Proof.
  destruct s as [p d E]. cbn [engine]. unfold introspect_table. run_method.
  destruct (pragma_table_info E name) as [msg|cols] eqn:Hcols.
  { right. split; [exists msg; reflexivity|]. intros [[c Hc] _]. discriminate. }
  destruct (select_count_all E name) as [msg|n] eqn:Hn.
  { right. split; [exists msg; reflexivity|]. intros [_ [c Hc]]. discriminate. }
  left.
  destruct (n >? 0) eqn:Hpos; run_method.
  - destruct (select_sample E name) as [msg|rows] eqn:Hs; run_method.
    + eexists. split; [reflexivity|]. split; [|split; eexists; reflexivity].
      exists cols, n. cbn. rewrite Hcols, Hn, Hpos, Hs. repeat split; reflexivity.
    + eexists. split; [reflexivity|]. split; [|split; eexists; reflexivity].
      exists cols, n. cbn. rewrite Hcols, Hn, Hpos, Hs. repeat split; reflexivity.
  - eexists. split; [reflexivity|]. split; [|split; eexists; reflexivity].
    exists cols, n. cbn. rewrite Hcols, Hn, Hpos. repeat split; reflexivity.
Qed.

(** One turn of the table loop: an introspectable table is stored, any
    other changes nothing, and the loop goes on in both cases. *)
Lemma table_step_spec (s : State) (tables : gmap string TableInfo) (row : MasterRow) :
  exists tables',
    table_step tables row s = (Return tables', s) /\
    ((introspectable (engine s) (mr_name row) /\
      exists t, described_by (engine s) (mr_name row) t /\
                tables' = <[mr_name row := t]> tables) \/
     (~ introspectable (engine s) (mr_name row) /\ tables' = tables)).
Proof.
  unfold table_step.
  destruct (startswith (mr_name row) "sqlite_") eqn:Hpre.
  - exists tables. split; [reflexivity|]. right. split; [|reflexivity].
    intros [H _]. congruence.
  - unfold try_except, bind.
    destruct (introspect_table_spec s (mr_name row) (mr_sql row))
      as [(t & Hrun & Hdesc & Hc & Hn) | [[msg Hrun] Hno]]; rewrite Hrun.
    + exists (<[mr_name row := t]> tables). split; [reflexivity|]. left.
      split; [split; [exact Hpre | split; assumption]|].
      exists t. split; [exact Hdesc | reflexivity].
    + exists tables. split; [reflexivity|]. right. split; [|reflexivity].
      intros (_ & Hc & Hn). apply Hno. split; assumption.
Qed.

(** The table loop: it ends, and the map it builds holds exactly the
    introspectable tables among the rows, each described by the engine. *)
Lemma table_loop_spec (s : State) (rows : list MasterRow) :
  forall tables0 : gmap string TableInfo,
    exists tables,
      for_each rows tables0 table_step s = (Return tables, s) /\
      (forall name, name ∈ dom tables <->
         name ∈ dom tables0 \/
         ((exists row, In row rows /\ mr_name row = name) /\
          introspectable (engine s) name)) /\
      (forall name t, tables !! name = Some t ->
         tables0 !! name = Some t \/ described_by (engine s) name t).
Proof.
  induction rows as [|row rows IH]; intros tables0.
  - exists tables0. split; [reflexivity|]. split.
    + intros name. split; [intros H; left; exact H|].
      intros [H | [(r & [] & _) _]]. exact H.
    + intros name t H. left. exact H.
  - cbn [for_each].
    destruct (table_step_spec s tables0 row) as (tables1 & Hstep & Hcase).
    destruct (IH tables1) as (tables & Hrun & Hdom & Hdesc).
    exists tables. split; [rewrite (bind_return _ _ _ _ _ Hstep); exact Hrun|].
    destruct Hcase as [[Hok (t & Ht & ->)] | [Hno ->]].
    + split.
      * intros name. rewrite Hdom, dom_insert. rewrite elem_of_union, elem_of_singleton.
        split.
        -- intros [[-> | H] | [(r & Hr & Hn) Hi]].
           ++ right. split; [exists row; split; [left; reflexivity | reflexivity] | exact Hok].
           ++ left. exact H.
           ++ right. split; [exists r; split; [right; exact Hr | exact Hn] | exact Hi].
        -- intros [H | [(r & [<- | Hr] & Hn) Hi]].
           ++ left. right. exact H.
           ++ left. left. symmetry. exact Hn.
           ++ right. split; [exists r; split; assumption | exact Hi].
      * intros name t' H. destruct (Hdesc name t' H) as [H0 | H0]; [|right; exact H0].
        destruct (decide (mr_name row = name)) as [<- | Hne].
        -- rewrite lookup_insert_eq in H0. injection H0 as <-. right. exact Ht.
        -- rewrite lookup_insert_ne in H0 by exact Hne. left. exact H0.
    + split.
      * intros name. rewrite Hdom. split.
        -- intros [H | [(r & Hr & Hn) Hi]]; [left; exact H|].
           right. split; [exists r; split; [right; exact Hr | exact Hn] | exact Hi].
        -- intros [H | [(r & [<- | Hr] & Hn) Hi]]; [left; exact H | |].
           ++ exfalso. apply Hno. rewrite Hn. exact Hi.
           ++ right. split; [exists r; split; assumption | exact Hi].
      * exact Hdesc.
Qed.










(** ** [calculate_entropy] *)

Lemma byte_eqb_eq (a b : byte) : Byte.eqb a b = true <-> a = b.
Proof. split; [apply byte_dec_bl | apply byte_dec_lb]. Qed.

Lemma byte_eqb_neq (a b : byte) : Byte.eqb a b = false <-> a <> b.
Proof.
  split; [apply Byte.eqb_false|].
  intros Hne. destruct (Byte.eqb a b) eqn:E; [|reflexivity].
  apply byte_eqb_eq in E. contradiction.
Qed.

Lemma counts_get_absent (bc : Counts) (b : byte) :
  ~ In b (map fst bc) -> counts_get bc b = 0.
Proof.
  induction bc as [|[k v] bc IH]; intros Hno; [reflexivity|].
  cbn [counts_get]. destruct (Byte.eqb k b) eqn:E.
  - apply byte_eqb_eq in E. exfalso. apply Hno. left. exact E.
  - apply IH. intros H. apply Hno. right. exact H.
Qed.

Lemma counts_get_set (bc : Counts) (b b' : byte) (v : Z) :
  counts_get (counts_set bc b v) b' = if Byte.eqb b b' then v else counts_get bc b'.
Proof.
  induction bc as [|[k w] bc IH].
  - cbn. destruct (Byte.eqb b b'); reflexivity.
  - cbn [counts_set counts_get]. destruct (Byte.eqb k b) eqn:E.
    + apply byte_eqb_eq in E. subst k. cbn [counts_get].
      destruct (Byte.eqb b b'); reflexivity.
    + cbn [counts_get]. rewrite IH.
      destruct (Byte.eqb k b') eqn:E'; [|reflexivity].
      apply byte_eqb_eq in E'. subst k.
      destruct (Byte.eqb b b') eqn:E2; [|reflexivity].
      apply byte_eqb_eq in E2. subst b'.
      rewrite (proj2 (byte_eqb_eq b b) eq_refl) in E. discriminate.
Qed.

Lemma keys_set_present (bc : Counts) (b : byte) (v : Z) :
  In b (map fst bc) -> map fst (counts_set bc b v) = map fst bc.
Proof.
  induction bc as [|[k w] bc IH]; intros Hin; [destruct Hin|].
  cbn [counts_set]. destruct (Byte.eqb k b) eqn:E; [reflexivity|].
  cbn [map fst]. f_equal. apply IH.
  destruct Hin as [Hk | Hin]; [|exact Hin].
  apply byte_eqb_neq in E. contradiction.
Qed.

Lemma keys_set_absent (bc : Counts) (b : byte) (v : Z) :
  ~ In b (map fst bc) -> map fst (counts_set bc b v) = map fst bc ++ [b].
Proof.
  induction bc as [|[k w] bc IH]; intros Hno; [reflexivity|].
  cbn [counts_set]. destruct (Byte.eqb k b) eqn:E.
  - apply byte_eqb_eq in E. exfalso. apply Hno. left. exact E.
  - cbn [map fst app]. f_equal. apply IH. intros H. apply Hno. right. exact H.
Qed.

(** The counting loop from a dictionary that counts [pre]: the result
    counts [pre ++ data], and its keys are the values seen, once each. *)
Lemma count_loop (data : list byte) :
  forall (pre : list byte) (bc : Counts),
    List.NoDup (map fst bc) ->
    (forall b, In b (map fst bc) <-> In b pre) ->
    (forall b, counts_get bc b = Z.of_nat (occurrences pre b)) ->
    let out :=
      fold_left (fun byte_counts b =>
                   counts_set byte_counts b (counts_get byte_counts b + 1)) data bc in
    List.NoDup (map fst out) /\
    (forall b, In b (map fst out) <-> In b (pre ++ data)) /\
    (forall b, counts_get out b = Z.of_nat (occurrences (pre ++ data) b)).
Proof.
  induction data as [|a data IH]; intros pre bc Hnd Hkeys Hget.
  - cbn. rewrite app_nil_r. repeat split; try assumption; apply Hkeys.
  - cbn [fold_left].
    replace (pre ++ a :: data) with ((pre ++ [a]) ++ data)
      by (rewrite <- app_assoc; reflexivity).
    apply IH.
    + destruct (in_dec Byte.byte_eq_dec a (map fst bc)) as [Hin | Hno].
      * rewrite keys_set_present by exact Hin. exact Hnd.
      * rewrite keys_set_absent by exact Hno.
        apply NoDup_app_remove_l with (l := []). cbn.
        apply List.NoDup_rev in Hnd.
        rewrite <- (rev_involutive (map fst bc ++ [a])). apply List.NoDup_rev.
        rewrite rev_app_distr. cbn. constructor; [|exact Hnd].
        rewrite <- in_rev. exact Hno.
    + intros b. rewrite in_app_iff.
      destruct (in_dec Byte.byte_eq_dec a (map fst bc)) as [Hin | Hno].
      * rewrite keys_set_present by exact Hin. rewrite Hkeys. cbn.
        split; [intros H; left; exact H|].
        intros [H | [<- | []]]; [exact H | apply Hkeys; exact Hin].
      * rewrite keys_set_absent by exact Hno. rewrite in_app_iff, Hkeys. reflexivity.
    + intros b. rewrite counts_get_set. unfold occurrences in *.
      rewrite count_occ_app. cbn [count_occ].
      destruct (Byte.byte_eq_dec a b) as [<- | Hne].
      * rewrite (proj2 (byte_eqb_eq a a) eq_refl), Hget. lia.
      * rewrite (proj2 (byte_eqb_neq a b) Hne), Hget. lia.
Qed.

Lemma count_bytes_spec (data : list byte) :
  List.NoDup (map fst (count_bytes data)) /\
  (forall b, In b (map fst (count_bytes data)) <-> In b data) /\
  (forall b, counts_get (count_bytes data) b = Z.of_nat (occurrences data b)).
Proof.
  apply (count_loop data [] []).
  - constructor.
  - intros b. reflexivity.
  - intros b. reflexivity.
Qed.

Lemma values_of_keys (bc : Counts) :
  List.NoDup (map fst bc) -> map snd bc = map (counts_get bc) (map fst bc).
Proof.
  induction bc as [|[k v] bc IH]; intros Hnd; [reflexivity|].
  inversion Hnd as [|x l Hk Hrest]; subst.
  cbn [map fst snd counts_get]. rewrite (proj2 (byte_eqb_eq k k) eq_refl). f_equal.
  rewrite IH by exact Hrest. apply map_ext_in. intros b Hb.
  destruct (Byte.eqb k b) eqn:E; [|reflexivity].
  apply byte_eqb_eq in E. subst b. contradiction.
Qed.

(** ** The 256 byte values *)

Lemma all_bytes_values : map Byte.to_nat all_bytes = seq 0 256.
Proof. vm_compute. reflexivity. Qed.

Lemma all_bytes_length : List.length all_bytes = 256%nat.
Proof. vm_compute. reflexivity. Qed.

Lemma all_bytes_NoDup : List.NoDup all_bytes.
Proof.
  apply (NoDup_map_inv Byte.to_nat). rewrite all_bytes_values. apply seq_NoDup.
Qed.

Lemma all_bytes_complete (b : byte) : In b all_bytes.
Proof.
  assert (H : In (Byte.to_nat b) (map Byte.to_nat all_bytes)).
  { rewrite all_bytes_values. apply in_seq. pose proof (Byte.to_nat_bounded b). lia. }
  apply in_map_iff in H. destruct H as (b' & Heq & Hin).
  assert (b' = b); [|subst; exact Hin].
  apply (f_equal Byte.of_nat) in Heq. rewrite !Byte.of_to_nat in Heq. congruence.
Qed.

Lemma occurrences_all_bytes (b : byte) : occurrences all_bytes b = 1%nat.
Proof.
  unfold occurrences.
  apply (proj1 (NoDup_count_occ' Byte.byte_eq_dec all_bytes) all_bytes_NoDup).
  apply all_bytes_complete.
Qed.

Lemma uniform_block_split (b : byte) :
  occurrences uniform_block b = (occurrences all_bytes b + occurrences all_bytes b)%nat.
Proof. apply (count_occ_app Byte.byte_eq_dec all_bytes all_bytes b). Qed.

Lemma uniform_block_occurrences (b : byte) : occurrences uniform_block b = 2%nat.
Proof.
  rewrite uniform_block_split, occurrences_all_bytes. reflexivity.
Qed.

(** The occurrences of all byte values add up to the length. *)
Lemma list_sum_cons (x : nat) (l : list nat) : list_sum (x :: l) = (x + list_sum l)%nat.
Proof. reflexivity. Qed.

Lemma indicator_none (a : byte) (l : list byte) :
  ~ In a l ->
  list_sum (map (fun b => if Byte.byte_eq_dec a b then 1%nat else 0%nat) l) = 0%nat.
Proof.
  induction l as [|y l IH]; intros Hno; [reflexivity|].
  cbn [map]. rewrite list_sum_cons, IH by (intros H; apply Hno; right; exact H).
  destruct (Byte.byte_eq_dec a y) as [Heq | _]; [|reflexivity].
  exfalso. apply Hno. left. symmetry. exact Heq.
Qed.

Lemma indicator_total (a : byte) (l : list byte) :
  List.NoDup l -> In a l ->
  list_sum (map (fun b => if Byte.byte_eq_dec a b then 1%nat else 0%nat) l) = 1%nat.
Proof.
  induction l as [|x l IH]; intros Hnd Hin; [destruct Hin|].
  inversion Hnd as [|y l' Hx Hl]; subst. cbn [map]. rewrite list_sum_cons.
  destruct (Byte.byte_eq_dec a x) as [Heq | Hne].
  - subst x. rewrite (indicator_none a l Hx). reflexivity.
  - destruct Hin as [Heq | Hin]; [congruence|]. rewrite (IH Hl Hin). reflexivity.
Qed.

Lemma list_sum_plus {A} (f g : A -> nat) (l : list A) :
  list_sum (map (fun x => (f x + g x)%nat) l) =
  (list_sum (map f l) + list_sum (map g l))%nat.
Proof.
  induction l as [|x l IH]; [reflexivity|].
  cbn [map]. rewrite !list_sum_cons, IH. lia.
Qed.

Lemma list_sum_const {A} (c : nat) (l : list A) :
  list_sum (map (fun _ => c) l) = (List.length l * c)%nat.
Proof.
  induction l as [|x l IH]; [reflexivity|].
  cbn [map List.length]. rewrite list_sum_cons, IH. lia.
Qed.

Lemma occurrences_total (data : list byte) :
  list_sum (map (occurrences data) all_bytes) = List.length data.
Proof.
  induction data as [|a data IH].
  - apply (list_sum_const 0 all_bytes).
  - rewrite (map_ext _ (fun b => (occurrences data b +
                                   (if Byte.byte_eq_dec a b then 1 else 0))%nat)).
    + rewrite list_sum_plus, IH,
        (indicator_total a all_bytes all_bytes_NoDup (all_bytes_complete a)).
      cbn [List.length]. lia.
    + intros b. unfold occurrences. cbn [count_occ].
      destruct (Byte.byte_eq_dec a b); lia.
Qed.

(** ** Floats *)

Lemma div_eucl_div_mod (a b : Z) : Z.div_eucl a b = (a / b, a mod b).
Proof. unfold Z.div, Z.modulo. destruct (Z.div_eucl a b). reflexivity. Qed.

Lemma new_location_exact (n : Z) : new_location n 0 = loc_Exact.
Proof. unfold new_location. destruct (Z.even n); reflexivity. Qed.

(** [n / n] is [1.0], whatever the size of [n]. *)
Lemma int_truediv_same (n : Z) : 0 < n -> int_truediv n n = float_one.
Proof.
  intros Hn. destruct n as [|p|p]; try lia.
  unfold int_truediv, SFdiv, SFdiv_core_binary.
  replace (Zdigits2 (Z.pos p) + 0 - (Zdigits2 (Z.pos p) + 0)) with 0 by lia.
  change (Z.min (fexp prec emax 0) (0 - 0)) with (-53).
  change (0 - 0 - -53) with 53.
  cbv iota beta zeta.
  rewrite Z.shiftl_mul_pow2 by lia.
  rewrite div_eucl_div_mod, Z.mul_comm, Z.div_mul, Z.mod_mul by lia.
  rewrite new_location_exact. reflexivity.
Qed.

Lemma Zdigits2_shift8 (p : positive) : Zdigits2 (256 * Z.pos p) = Zdigits2 (Z.pos p) + 8.
Proof.
  change (256 * Z.pos p) with (Z.pos (p~0~0~0~0~0~0~0~0)).
  cbn [Zdigits2 digits2_pos]. lia.
Qed.

(** [k / (256 k)] is [1/256], whatever the size of [k]. *)
Lemma int_truediv_256 (k : Z) : 0 < k -> int_truediv k (256 * k) = float_256th.
Proof.
  intros Hk. destruct k as [|p|p]; try lia.
  unfold int_truediv.
  change (256 * Z.pos p) with (Z.pos (p~0~0~0~0~0~0~0~0)).
  unfold SFdiv, SFdiv_core_binary.
  change (Z.pos (p~0~0~0~0~0~0~0~0)) with (256 * Z.pos p).
  rewrite Zdigits2_shift8.
  replace (Zdigits2 (Z.pos p) + 0 - (Zdigits2 (Z.pos p) + 8 + 0)) with (-8) by lia.
  change (Z.min (fexp prec emax (-8)) (0 - 0)) with (-61).
  change (0 - 0 - -61) with 61.
  cbv iota beta zeta.
  rewrite Z.shiftl_mul_pow2 by lia.
  replace (Z.pos p * 2 ^ 61) with (2 ^ 53 * (256 * Z.pos p))
    by (change (2 ^ 61) with (2 ^ 53 * 256); lia).
  rewrite div_eucl_div_mod, Z.div_mul, Z.mod_mul by lia.
  rewrite new_location_exact. reflexivity.
Qed.

(** The sign of a float: not below 0 and not above 0. A NaN is both. *)
Inductive signed (s : bool) : float -> Prop :=
| signed_zero (s' : bool) : signed s (S754_zero s')
| signed_infinity : signed s (S754_infinity s)
| signed_nan : signed s S754_nan
| signed_finite (m : positive) (e : Z) : signed s (S754_finite s m e).

Lemma signed_not_negative (x : float) : signed false x <-> float_negative x = false.
Proof.
  split.
  - intros H. destruct H; reflexivity.
  - destruct x as [s | [|] | | [|] m e]; intros H; try discriminate H; constructor.
Qed.

Lemma signed_not_positive (x : float) : signed true x <-> float_positive x = false.
Proof.
  split.
  - intros H. destruct H; reflexivity.
  - destruct x as [s | [|] | | [|] m e]; intros H; try discriminate H; constructor.
Qed.

Lemma binary_round_aux_signed (s : bool) (m e : Z) (l : location) :
  signed s (binary_round_aux prec emax s m e l).
Proof.
  unfold binary_round_aux.
  destruct (shr_fexp prec emax m e l) as [mrs' e'].
  destruct (shr_fexp prec emax _ e' loc_Exact) as [mrs'' e''].
  destruct (shr_m mrs'') as [|q|q]; try constructor.
  destruct (e'' <=? emax - prec); constructor.
Qed.

Lemma binary_round_signed (s : bool) (m : positive) (e : Z) :
  signed s (binary_round prec emax s m e).
Proof.
  unfold binary_round. destruct (shl_align m e _) as [mz ez].
  apply binary_round_aux_signed.
Qed.

Lemma int_truediv_signed (a b : Z) : 0 < a -> 0 < b -> signed false (int_truediv a b).
Proof.
  intros Ha Hb. destruct a as [|pa|pa]; try lia. destruct b as [|pb|pb]; try lia.
  unfold int_truediv, SFdiv.
  destruct (SFdiv_core_binary prec emax (Z.pos pa) 0 (Z.pos pb) 0) as [[mz ez] lz].
  apply binary_round_aux_signed.
Qed.

Lemma float_mul_signed (x y : float) :
  signed false x -> signed true y -> signed true (float_mul x y).
Proof.
  intros Hx Hy. unfold float_mul, SFmul.
  destruct Hx as [sx | | | mx ex]; destruct Hy as [sy | | | my ey];
    try constructor.
  apply binary_round_aux_signed.
Qed.

Lemma float_sub_signed (x y : float) :
  signed false x -> signed true y -> signed false (float_sub x y).
Proof.
  intros Hx Hy. unfold float_sub, SFsub.
  destruct Hx as [sx | | | mx ex]; destruct Hy as [sy | | | my ey];
    try constructor.
  - destruct sx, sy; constructor.
  - cbn [cond_Zopp Z.opp Z.sub Z.add negb]. apply binary_round_signed.
Qed.

(** ** The entropy the code computes *)

Lemma existsb_eqb_In (b : byte) (l : list byte) :
  existsb (Byte.eqb b) l = true <-> In b l.
Proof.
  rewrite existsb_exists. split.
  - intros (x & Hx & Heq). apply byte_eqb_eq in Heq. subst. exact Hx.
  - intros Hin. exists b. split; [exact Hin | apply byte_eqb_eq; reflexivity].
Qed.

(** The keys of the dictionary are the byte values in the order of
    first occurrence. *)
Lemma count_loop_keys (data : list byte) :
  forall bc : Counts,
    map fst (fold_left (fun byte_counts b =>
                          counts_set byte_counts b (counts_get byte_counts b + 1)) data bc) =
    fold_left (fun seen b => if existsb (Byte.eqb b) seen then seen else seen ++ [b])
              data (map fst bc).
Proof.
  induction data as [|a data IH]; intros bc; [reflexivity|].
  cbn [fold_left]. rewrite IH. f_equal.
  destruct (existsb (Byte.eqb a) (map fst bc)) eqn:Hex.
  - apply keys_set_present. apply existsb_eqb_In. exact Hex.
  - apply keys_set_absent. intros Hin. apply existsb_eqb_In in Hin. congruence.
Qed.

Lemma count_bytes_keys (data : list byte) :
  map fst (count_bytes data) = first_occurrences data.
Proof. apply (count_loop_keys data []). Qed.

Lemma fold_left_ext_in {A B} (f g : A -> B -> A) (l : list B) :
  (forall a x, In x l -> f a x = g a x) ->
  forall a, fold_left f l a = fold_left g l a.
Proof.
  induction l as [|x l IH]; intros Hfg a; [reflexivity|].
  cbn [fold_left]. rewrite Hfg by (left; reflexivity).
  apply IH. intros a' y Hy. apply Hfg. right. exact Hy.
Qed.

Lemma fold_left_map_ext {A B C} (f : A -> C -> A) (g : A -> B -> A) (h : B -> C)
  (l : list B) :
  (forall a x, In x l -> f a (h x) = g a x) ->
  forall a, fold_left f (map h l) a = fold_left g l a.
Proof.
  induction l as [|x l IH]; intros Hfg a; [reflexivity|].
  cbn [map fold_left]. rewrite Hfg by (left; reflexivity).
  apply IH. intros a' y Hy. apply Hfg. right. exact Hy.
Qed.

(** [calculate_entropy] is the sum of the specification, taken in
    floats in the order of first occurrence. *)
Lemma calculate_entropy_is_sum (libm : Libm) (data : list byte) :
  calculate_entropy libm data = entropy_sum libm data.
Proof.
  destruct data as [|b0 data0] eqn:Hd; [reflexivity|].
  rewrite <- Hd. unfold entropy_sum.
  destruct (count_bytes_spec data) as (Hnd & _ & Hget).
  replace (calculate_entropy libm data)
    with (fold_left
            (fun entropy count =>
               PyFloat (float_sub (as_float entropy)
                          (float_mul (int_truediv count (Z.of_nat (List.length data)))
                             (log2 libm (int_truediv count (Z.of_nat (List.length data)))))))
            (map snd (count_bytes data)) (PyInt 0))
    by (subst data; reflexivity).
  rewrite (values_of_keys _ Hnd), count_bytes_keys.
  apply fold_left_map_ext. intros a b _. unfold share. rewrite Hget. reflexivity.
Qed.

Lemma first_occurrences_repeat (b : byte) (n : nat) :
  first_occurrences (repeat b (S n)) = [b].
Proof.
  unfold first_occurrences. cbn [repeat fold_left existsb app].
  induction n as [|n IH]; [reflexivity|].
  cbn [repeat fold_left existsb]. rewrite (proj2 (byte_eqb_eq b b) eq_refl). exact IH.
Qed.

(** A block of one repeated byte value: one share of [1.0], whose
    logarithm is +0. *)
Lemma calculate_entropy_single_value (libm : Libm) (b : byte) (n : nat) :
  calculate_entropy libm (repeat b (S n)) = PyFloat float_zero.
Proof.
  rewrite calculate_entropy_is_sum. unfold entropy_sum.
  rewrite first_occurrences_repeat. cbn [fold_left].
  assert (Hshare : share (repeat b (S n)) b = float_one).
  { unfold share, occurrences. rewrite count_occ_repeat_eq by reflexivity.
    rewrite repeat_length. apply int_truediv_same. lia. }
  rewrite Hshare, (log2_one libm). reflexivity.
Qed.

Lemma first_occurrences_all (data : list byte) :
  (forall b, occurrences data b <> 0%nat) ->
  List.length (first_occurrences data) = 256%nat.
Proof.
  intros Hocc. rewrite <- count_bytes_keys, <- all_bytes_length.
  destruct (count_bytes_spec data) as (Hnd & Hkeys & _).
  apply Permutation_length. apply Permutation.NoDup_Permutation.
  - exact Hnd.
  - exact all_bytes_NoDup.
  - intros b. split; [intros _; apply all_bytes_complete|].
    intros _. apply Hkeys. apply (count_occ_In Byte.byte_eq_dec).
    specialize (Hocc b). unfold occurrences in Hocc. lia.
Qed.

Lemma fold_left_constant {A B} (g : A -> A) (l : list B) (a : A) :
  fold_left (fun acc _ => g acc) l a = Nat.iter (List.length l) g a.
Proof.
  revert a. induction l as [|x l IH]; intros a; [reflexivity|].
  cbn [fold_left List.length]. rewrite IH. symmetry. apply Nat.iter_succ_r.
Qed.

(** A block in which all 256 byte values occur equally often: 256 shares
    of [1/256]; with a logarithm of -8 there, the 256 partial sums are
    exact. *)
Lemma calculate_entropy_uniform (libm : Libm) (data : list byte) (k : nat) :
  (0 < k)%nat -> (forall b, occurrences data b = k) ->
  log2 libm float_256th = float_minus_eight ->
  calculate_entropy libm data = PyFloat float_eight.
Proof.
  intros Hk Hocc Hlog.
  assert (Hlen : Z.of_nat (List.length data) = 256 * Z.of_nat k).
  { rewrite <- occurrences_total.
    rewrite (map_ext _ (fun _ => k)) by exact Hocc.
    rewrite list_sum_const, all_bytes_length. lia. }
  assert (Hshare : forall b, share data b = float_256th).
  { intros b. unfold share. rewrite Hocc, Hlen. apply int_truediv_256. lia. }
  rewrite calculate_entropy_is_sum. unfold entropy_sum.
  rewrite (fold_left_ext_in _
             (fun entropy (_ : byte) =>
                PyFloat (float_sub (as_float entropy)
                           (float_mul float_256th float_minus_eight))))
    by (intros a b _; rewrite Hshare, Hlog; reflexivity).
  rewrite (fold_left_constant
             (fun entropy => PyFloat (float_sub (as_float entropy)
                                        (float_mul float_256th float_minus_eight)))).
  rewrite first_occurrences_all by (intros b; rewrite Hocc; lia).
  vm_compute. reflexivity.
Qed.

(** With a logarithm that is not above 0 at the shares, no partial sum
    is below 0. *)
Lemma entropy_sum_not_negative (libm : Libm) (data : list byte) :
  (forall b, In b data -> float_positive (log2 libm (share data b)) = false) ->
  match calculate_entropy libm data with
  | PyInt z => z = 0
  | PyFloat x => float_negative x = false
  end.
Proof.
  intros Hlog. rewrite calculate_entropy_is_sum. unfold entropy_sum.
  assert (Hkeys : forall b, In b (first_occurrences data) -> In b data).
  { intros b. rewrite <- count_bytes_keys. apply (count_bytes_spec data). }
  assert (Hstart : match PyInt 0 with
                   | PyInt z => z = 0
                   | PyFloat x => signed false x
                   end) by reflexivity.
  revert Hkeys Hstart. generalize (PyInt 0). generalize (first_occurrences data).
  intros keys. induction keys as [|b keys IH]; intros acc Hkeys Hacc.
  - destruct acc as [z | x]; [exact Hacc | apply signed_not_negative; exact Hacc].
  - cbn [fold_left]. apply IH.
    + intros b' Hb'. apply Hkeys. right. exact Hb'.
    + apply float_sub_signed.
      * destruct acc as [z | x]; [subst z; constructor | exact Hacc].
      * apply float_mul_signed.
        -- assert (Hin : In b data) by (apply Hkeys; left; reflexivity).
           unfold share. apply int_truediv_signed.
           ++ apply (count_occ_In Byte.byte_eq_dec) in Hin. unfold occurrences. lia.
           ++ destruct data; [destruct Hin | cbn [List.length]; lia].
        -- apply signed_not_positive. apply Hlog. apply Hkeys. left. reflexivity.
Qed.

(** ** A block that is almost uniform *)

Lemma first_occurrences_app (l1 l2 : list byte) :
  first_occurrences (l1 ++ l2) =
  fold_left (fun seen b => if existsb (Byte.eqb b) seen then seen else seen ++ [b])
            l2 (first_occurrences l1).
Proof. unfold first_occurrences. apply fold_left_app. Qed.

Lemma seen_again (l seen : list byte) :
  (forall b, In b l -> In b seen) ->
  fold_left (fun seen b => if existsb (Byte.eqb b) seen then seen else seen ++ [b]) l seen =
  seen.
Proof.
  revert seen. induction l as [|a l IH]; intros seen Hin; [reflexivity|].
  cbn [fold_left].
  rewrite (proj2 (existsb_eqb_In a seen)) by (apply Hin; left; reflexivity).
  apply IH. intros b Hb. apply Hin. right. exact Hb.
Qed.

Lemma seen_runs (k : nat) (l : list byte) :
  (0 < k)%nat -> List.NoDup l ->
  forall seen : list byte,
    (forall b, In b l -> ~ In b seen) ->
    fold_left (fun seen b => if existsb (Byte.eqb b) seen then seen else seen ++ [b])
              (concat (map (fun b => repeat b k) l)) seen =
    seen ++ l.
Proof.
  intros Hk. induction l as [|a l IH]; intros Hnd seen Hnew.
  - cbn. rewrite app_nil_r. reflexivity.
  - inversion Hnd as [|x l' Ha Hl]; subst.
    cbn [map concat]. rewrite fold_left_app.
    destruct k as [|k]; [lia|]. cbn [repeat fold_left].
    assert (Hfresh : existsb (Byte.eqb a) seen = false).
    { destruct (existsb (Byte.eqb a) seen) eqn:E; [|reflexivity].
      apply existsb_eqb_In in E. exfalso. apply (Hnew a); [left; reflexivity | exact E]. }
    rewrite Hfresh.
    rewrite (seen_again (repeat a k) (seen ++ [a])).
    + rewrite IH; [rewrite <- app_assoc; reflexivity | exact Hl |].
      intros b Hb Hin. apply in_app_or in Hin. destruct Hin as [Hin | [<- | []]].
      * apply (Hnew b); [right; exact Hb | exact Hin].
      * contradiction.
    + intros b Hb. apply repeat_spec in Hb. subst b.
      apply in_or_app. right. left. reflexivity.
Qed.

Lemma first_occurrences_near_uniform (k : nat) :
  (0 < k)%nat -> first_occurrences (near_uniform k) = all_bytes.
Proof.
  intros Hk. unfold near_uniform. rewrite first_occurrences_app.
  unfold first_occurrences at 1.
  rewrite (seen_runs k all_bytes Hk all_bytes_NoDup []) by (intros b _ []).
  cbn [app]. apply seen_again. intros b _. apply all_bytes_complete.
Qed.

Lemma occurrences_runs (k : nat) (l : list byte) (b : byte) :
  List.NoDup l -> In b l ->
  occurrences (concat (map (fun c => repeat c k) l)) b = k.
Proof.
  unfold occurrences. induction l as [|a l IH]; intros Hnd Hin; [destruct Hin|].
  inversion Hnd as [|x l' Ha Hl]; subst.
  cbn [map concat]. rewrite count_occ_app.
  destruct (Byte.byte_eq_dec a b) as [Heq | Hne].
  - subst a. rewrite count_occ_repeat_eq by reflexivity.
    assert (Hz : count_occ Byte.byte_eq_dec (concat (map (fun c => repeat c k) l)) b = 0%nat).
    { apply count_occ_not_In. intros Hc. apply in_concat in Hc.
      destruct Hc as (run & Hrun & Hb). apply in_map_iff in Hrun.
      destruct Hrun as (c & <- & Hc). apply repeat_spec in Hb. subst c. contradiction. }
    rewrite Hz. lia.
  - rewrite count_occ_repeat_neq by congruence.
    destruct Hin as [Heq | Hin]; [contradiction|]. apply (IH Hl Hin).
Qed.

Lemma occurrences_near_uniform (k : nat) (b : byte) :
  occurrences (near_uniform k) b = (k + if Byte.eqb b x00 then 1 else 0)%nat.
Proof.
  unfold near_uniform, occurrences. rewrite count_occ_app.
  fold (occurrences (concat (map (fun c => repeat c k) all_bytes)) b).
  rewrite (occurrences_runs k all_bytes b all_bytes_NoDup (all_bytes_complete b)).
  f_equal. cbn [count_occ].
  destruct (Byte.byte_eq_dec x00 b) as [<- | Hne]; [reflexivity|].
  rewrite (proj2 (byte_eqb_neq b x00)) by congruence. reflexivity.
Qed.

Lemma length_near_uniform (k : nat) :
  List.length (near_uniform k) = (256 * k + 1)%nat.
Proof.
  rewrite <- occurrences_total.
  rewrite (map_ext _ (fun b => (k + if Byte.eqb b x00 then 1 else 0)%nat))
    by (intros b; apply occurrences_near_uniform).
  rewrite (list_sum_plus (fun _ => k) (fun b => if Byte.eqb b x00 then 1%nat else 0%nat)).
  rewrite list_sum_const, all_bytes_length.
  replace (list_sum (map (fun b => if Byte.eqb b x00 then 1%nat else 0%nat) all_bytes))
    with 1%nat by (vm_compute; reflexivity).
  lia.
Qed.

(** The entropy of such a block, as a sum over the 256 values. *)
Lemma calculate_entropy_near_uniform (libm : Libm) (k : nat) :
  (0 < k)%nat ->
  calculate_entropy libm (near_uniform k) =
  fold_left
    (fun entropy b =>
       let probability :=
         int_truediv (Z.of_nat k + if Byte.eqb b x00 then 1 else 0) (256 * Z.of_nat k + 1) in
       PyFloat (float_sub (as_float entropy)
                  (float_mul probability (log2 libm probability))))
    all_bytes (PyInt 0).
Proof.
  intros Hk. rewrite calculate_entropy_is_sum. unfold entropy_sum.
  rewrite (first_occurrences_near_uniform k Hk).
  apply fold_left_ext_in. intros a b _. cbv zeta. unfold share.
  rewrite occurrences_near_uniform, length_near_uniform.
  replace (Z.of_nat (k + (if Byte.eqb b x00 then 1 else 0)))
    with (Z.of_nat k + (if Byte.eqb b x00 then 1 else 0))
    by (destruct (Byte.eqb b x00); lia).
  replace (Z.of_nat (256 * k + 1)) with (256 * Z.of_nat k + 1) by lia.
  reflexivity.
Qed.

(** C9, the claim as worded fails. The byte strings [abbccc] and
    [acccbb] have the same distribution of byte values, hence the same
    Shannon entropy, but [calculate_entropy] adds the three terms in
    floats in the order of first occurrence and returns two different
    values for them, 1.4591479170272448 and 1.4591479170272446. And on
    the block of 128000001 bytes in which every byte value occurs 500000
    times and the zero byte once more, the rounding errors of the 256
    terms add up to a result above 8, 8.000000000000009. *)
Lemma calculate_entropy_order_counterexample :
  Permutation [x61; x62; x62; x63; x63; x63] [x61; x63; x63; x63; x62; x62] /\
  calculate_entropy sample_libm [x61; x62; x62; x63; x63; x63] =
    PyFloat (S754_finite false 6571418015402335 (-52)) /\
  calculate_entropy sample_libm [x61; x63; x63; x63; x62; x62] =
    PyFloat (S754_finite false 6571418015402334 (-52)) /\
  calculate_entropy sample_libm (near_uniform (Z.to_nat 500000)) =
    PyFloat (S754_finite false 4503599627370501 (-49)) /\
  SFltb float_eight (S754_finite false 4503599627370501 (-49)) = true.
Proof.
  split; [|split; [|split; [|split]]].
  - apply perm_skip.
    apply (Permutation_app_comm [x62; x62] [x63; x63; x63]).
  - vm_compute. reflexivity.
  - vm_compute. reflexivity.
  - rewrite calculate_entropy_near_uniform by lia.
    rewrite Z2Nat.id by lia. vm_compute. reflexivity.
  - reflexivity.
Qed.

(** C9, as the code has it. For every byte string [calculate_entropy] returns the
    sum of [- p(b) * log2 (p(b))] over the byte values that occur, taken
    in floats in the order of first occurrence, which follows the
    Shannon entropy up to rounding. It returns the integer 0 for the
    empty input, 0.0 for a block of one repeated byte value, and exactly
    8.0 for a block in which all 256 byte values occur equally often,
    given a logarithm that is exact at 1/256. It is never below 0, given
    a logarithm that is not above 0 at the shares. *)
Theorem calculate_entropy_shannon (libm : Libm) (data : list byte) :
  calculate_entropy libm data = entropy_sum libm data /\
  (data = [] -> calculate_entropy libm data = PyInt 0) /\
  (forall b n, data = repeat b (S n) -> calculate_entropy libm data = PyFloat float_zero) /\
  (forall k, (0 < k)%nat -> (forall b, occurrences data b = k) ->
             log2 libm float_256th = float_minus_eight ->
             calculate_entropy libm data = PyFloat float_eight) /\
  ((forall b, In b data -> float_positive (log2 libm (share data b)) = false) ->
   match calculate_entropy libm data with
   | PyInt z => z = 0
   | PyFloat x => float_negative x = false
   end).
Proof.
  split; [apply calculate_entropy_is_sum|]. split; [|split; [|split]].
  - intros ->. reflexivity.
  - intros b n ->. apply calculate_entropy_single_value.
  - intros k Hk Hocc Hlog. apply (calculate_entropy_uniform libm data k Hk Hocc Hlog).
  - apply entropy_sum_not_negative.
Qed.

Lemma calculate_entropy_shannon_witness :
  calculate_entropy sample_libm (repeat x00 1024) = PyFloat float_zero /\
  calculate_entropy sample_libm uniform_block = PyFloat float_eight /\
  match calculate_entropy sample_libm [x61; x62; x62; x63; x63; x63] with
  | PyInt z => z = 0
  | PyFloat x => float_negative x = false
  end.
Proof.
  split; [|split].
  - apply (proj1 (proj2 (proj2 (calculate_entropy_shannon sample_libm (repeat x00 1024))))
             x00 1023%nat).
    reflexivity.
  - apply (proj1 (proj2 (proj2 (proj2 (calculate_entropy_shannon sample_libm uniform_block))))
             2%nat (Nat.lt_0_succ 1) uniform_block_occurrences).
    reflexivity.
  - apply (proj2 (proj2 (proj2 (proj2
             (calculate_entropy_shannon sample_libm [x61; x62; x62; x63; x63; x63]))))).
    intros b Hb. repeat (destruct Hb as [<- | Hb]; [vm_compute; reflexivity|]).
    destruct Hb.
Defined.

(** * Further properties *)

(** ** [find_hex_pattern]: malformed input *)

(** X1. [find_hex_pattern] never raises and never touches the parser or
    the file. A pattern that is not valid hex gives a list with one
    error entry that holds the message of [binascii], and so does a file
    that cannot be read, with the message of the I/O failure. *)
Theorem find_hex_pattern_error_entries (fuel : nat) (pattern : string) (s : State) :
  (forall e, unhexlify pattern = Raise e ->
     find_hex_pattern fuel pattern s = (Return (Some [SearchError (exn_str e)]), s)) /\
  (forall sub msg, unhexlify pattern = Return sub -> disk s = Unreadable msg ->
     find_hex_pattern fuel pattern s = (Return (Some [SearchError msg]), s)) /\
  (exists r, find_hex_pattern fuel pattern s = (Return r, s)).
Proof.
  destruct s as [p d E]. cbn [disk]. unfold find_hex_pattern. run_method.
  split; [|split].
  - intros e ->. reflexivity.
  - intros sub msg -> ->. reflexivity.
  - destruct (unhexlify pattern) as [sub|e]; [|eexists; reflexivity].
    destruct d as [content|msg]; eexists; reflexivity.
Qed.

Lemma find_hex_pattern_error_entries_witness :
  find_hex_pattern 10 "53514c6" (start "header.db" (Readable header_only) no_engine) =
    (Return (Some [SearchError "Odd-length string"]),
     start "header.db" (Readable header_only) no_engine) /\
  find_hex_pattern 10 "5351zz" (start "header.db" (Readable header_only) no_engine) =
    (Return (Some [SearchError "Non-hexadecimal digit found"]),
     start "header.db" (Readable header_only) no_engine).
Proof.
  split.
  - apply (proj1 (find_hex_pattern_error_entries 10 "53514c6"
                    (start "header.db" (Readable header_only) no_engine))
             (BinasciiError "Odd-length string")).
    reflexivity.
  - apply (proj1 (find_hex_pattern_error_entries 10 "5351zz"
                    (start "header.db" (Readable header_only) no_engine))
             (BinasciiError "Non-hexadecimal digit found")).
    reflexivity.
Defined.

(** ** Hex text and bytes *)

Lemma unhex_hex_pair (b : byte) (rest : string) :
  unhex_pairs (String.append (hex_pair b) rest) =
    match unhex_pairs rest with
    | Some bs => Some (b :: bs)
    | None => None
    end.
Proof.
  destruct b; reflexivity.
Qed.

Lemma unhex_pairs_hexlify (bs : list byte) : unhex_pairs (hexlify bs) = Some bs.
Proof.
  induction bs as [|b bs IH]; [reflexivity|].
  cbn [hexlify]. rewrite unhex_hex_pair, IH. reflexivity.
Qed.

Lemma hexlify_length (bs : list byte) :
  String.length (hexlify bs) = (2 * List.length bs)%nat.
Proof.
  induction bs as [|b bs IH]; [reflexivity|].
  cbn [hexlify]. unfold hex_pair. rewrite !append_cons.
  change (String.append EmptyString (hexlify bs)) with (hexlify bs).
  cbn [String.length List.length]. rewrite IH. lia.
Qed.

(** What [hexlify] writes, [unhexlify] reads back. *)
Lemma unhexlify_hexlify (bs : list byte) : unhexlify (hexlify bs) = Return bs.
Proof.
  unfold unhexlify. rewrite hexlify_length, unhex_pairs_hexlify.
  replace (Nat.odd (2 * List.length bs)) with false; [reflexivity|].
  symmetry. rewrite <- Nat.negb_even, Nat.even_mul. reflexivity.
Qed.

(** X2. Round trip through hex text: for a non-empty byte string that
    occurs in a readable file, searching for its [hexlify] leaves the
    loop and reports a first match which is the leftmost occurrence of
    the bytes in the file. *)
Theorem find_hex_pattern_finds_bytes (s : State) (data sub : list byte) (q : nat) :
  disk s = Readable data ->
  sub <> [] ->
  occurs_at data sub q ->
  exists o offs,
    find_hex_pattern (S (List.length data)) (hexlify sub) s =
      (Return (Some (found_at data sub o :: map (found_at data sub) offs)), s) /\
    occurs_at data sub o /\
    (o <= q)%nat /\
    (forall q', occurs_at data sub q' -> (o <= q')%nat).
Proof.
  intros Hdisk Hsub Hq.
  destruct (search_loop_scan data sub Hsub (S (List.length data)) 0 []
              ltac:(lia) ltac:(lia)) as (offs0 & Hrun & Hall & Hgap & Hcov).
  change (Z.of_nat 0) with 0 in Hrun.
  assert (Hsorted : forall o offs, offs0 = o :: offs -> forall x, In x offs -> (o <= x)%nat).
  { clear Hrun Hall Hcov Hq. induction offs0 as [|a l IH]; intros o offs Heq x Hx; [discriminate|].
    injection Heq as -> ->. destruct offs as [|b offs]; [destruct Hx|].
    pose proof (Hgap 0%nat o b eq_refl eq_refl) as Hob.
    destruct Hx as [<- | Hx]; [lia|].
    assert (b <= x)%nat; [|lia].
    apply (IH (fun i => Hgap (S i)) b offs eq_refl x Hx). }
  destruct offs0 as [|o offs].
  - destruct (Hcov q ltac:(lia) Hq) as (o & [] & _).
  - exists o, offs. split; [|split; [|split]].
    + destruct s as [p d E]. cbn [disk] in Hdisk. subst d.
      unfold find_hex_pattern. run_method. rewrite unhexlify_hexlify, Hrun. reflexivity.
    + rewrite Forall_forall in Hall. apply Hall. left.
    + assert (Hmin : forall q', occurs_at data sub q' -> (o <= q')%nat).
      { intros q' Hq'. destruct (Hcov q' ltac:(lia) Hq') as (x & [<- | Hx] & Hr); [lia|].
        pose proof (Hsorted o offs eq_refl x Hx). lia. }
      apply Hmin. exact Hq.
    + intros q' Hq'. destruct (Hcov q' ltac:(lia) Hq') as (x & [<- | Hx] & Hr); [lia|].
      pose proof (Hsorted o offs eq_refl x Hx). lia.
Qed.

Lemma find_hex_pattern_finds_bytes_witness :
  exists o offs,
    find_hex_pattern 101 (hexlify (list_byte_of_string "format"))
      (start "header.db" (Readable header_only) no_engine) =
      (Return (Some (found_at header_only (list_byte_of_string "format") o ::
                     map (found_at header_only (list_byte_of_string "format")) offs)),
       start "header.db" (Readable header_only) no_engine) /\
    (o <= 7)%nat.
Proof.
  destruct (find_hex_pattern_finds_bytes
              (start "header.db" (Readable header_only) no_engine)
              header_only (list_byte_of_string "format") 7
              eq_refl ltac:(discriminate) eq_refl) as (o & offs & Hrun & _ & Hle & _).
  exists o, offs. split; [exact Hrun | exact Hle].
Defined.

(** ** [get_hex_dump]: the edges of [seek] and [read] *)




(** ** [detect_artifact_type]: what it returns and what it stores *)

(** The whole effect of [detect_artifact_type] on a parser whose schema
    is loaded. *)
Lemma detect_artifact_type_run (p : Parser) (d : File) (E : Engine) (sc : Schema) :
  p_schema p = Some sc ->
  let tables := dom (s_tables sc) in
  let kind :=
    match scan_signatures ARTIFACT_SIGNATURES tables (lower (basename (db_path p))) with
    | Some artifact => artifact
    | None =>
        (if has_table tables "urls" && has_table tables "visits" then "web_browser_history"
         else if has_table tables "cookies" then "web_browser_cookies"
         else if has_table tables "messages" then "message_store"
         else if has_table tables "android_metadata" then "android_app_data"
         else "sqlite_application_data")%string
    end in
  detect_artifact_type {| self := p; disk := d; engine := E |} =
    if bool_decide (s_tables sc = ∅)
    then (Return "unknown"%string, {| self := p; disk := d; engine := E |})
    else (Return kind, {| self := set_artifact_type p kind; disk := d; engine := E |}).
Proof.
  intros Hsc tables kind. unfold detect_artifact_type. run_method. rewrite Hsc. run_method.
  unfold schema_tables. rewrite Hsc. fold tables.
  destruct (bool_decide (s_tables sc = ∅)); [reflexivity|].
  subst kind.
  destruct (scan_signatures ARTIFACT_SIGNATURES tables (lower (basename (db_path p))));
    [unfold classified; run_method; reflexivity|].
  destruct (has_table tables "urls" && has_table tables "visits");
    [unfold classified; run_method; reflexivity|].
  destruct (has_table tables "cookies");
    [unfold classified; run_method; reflexivity|].
  destruct (has_table tables "messages");
    [unfold classified; run_method; reflexivity|].
  destruct (has_table tables "android_metadata");
    unfold classified; run_method; reflexivity.
Qed.

Lemma scan_signatures_in (sigs : list (string * Signature)) (tables : gset string)
  (filename artifact : string) :
  scan_signatures sigs tables filename = Some artifact -> In artifact (map fst sigs).
Proof.
  induction sigs as [|[a sg] sigs IH]; [discriminate|].
  cbn [scan_signatures map fst].
  destruct (existsb (has_table tables) (sig_tables sg));
    [destruct (existsb _ (file_patterns sg))|].
  - intros H. injection H as ->. left. reflexivity.
  - intros H. right. apply IH. exact H.
  - intros H. right. apply IH. exact H.
Qed.

(** X4. With the schema loaded, [detect_artifact_type] answers
    ["unknown"] exactly when the catalog has no table, and then it
    leaves the parser as it was; with at least one table it answers one
    of the ten signature names or of the five fallback kinds and stores
    that answer in [artifact_type], changing nothing else. *)
Theorem detect_artifact_type_unknown (s : State) (sc : Schema) :
  p_schema (self s) = Some sc ->
  (fst (detect_artifact_type s) = Return "unknown"%string <-> s_tables sc = ∅) /\
  (s_tables sc = ∅ -> snd (detect_artifact_type s) = s) /\
  (s_tables sc <> ∅ ->
   exists kind,
     fst (detect_artifact_type s) = Return kind /\
     In kind (map fst ARTIFACT_SIGNATURES ++ FALLBACK_KINDS) /\
     snd (detect_artifact_type s) =
       {| self := set_artifact_type (self s) kind; disk := disk s; engine := engine s |}).
Proof.
  destruct s as [p d E]. cbn [self disk engine]. intros Hsc.
  pose proof (detect_artifact_type_run p d E sc Hsc) as Hrun. cbv zeta in Hrun.
  set (tables := dom (s_tables sc)) in *.
  set (kind := match scan_signatures ARTIFACT_SIGNATURES tables
                       (lower (basename (db_path p))) with
               | Some artifact => artifact
               | None => _
               end) in *.
  assert (Hkind : In kind (map fst ARTIFACT_SIGNATURES ++ FALLBACK_KINDS)).
  { subst kind. apply in_or_app.
    destruct (scan_signatures ARTIFACT_SIGNATURES tables (lower (basename (db_path p))))
      eqn:Hscan.
    - left. eapply scan_signatures_in. exact Hscan.
    - right. unfold FALLBACK_KINDS.
      destruct (has_table tables "urls" && has_table tables "visits"); [cbn; tauto|].
      destruct (has_table tables "cookies"); [cbn; tauto|].
      destruct (has_table tables "messages"); [cbn; tauto|].
      destruct (has_table tables "android_metadata"); cbn; tauto. }
  assert (Hnot : kind <> "unknown"%string).
  { intros Heq. rewrite Heq in Hkind. revert Hkind. clear.
    cbn. intros H. repeat (destruct H as [H | H]; [discriminate|]). exact H. }
  rewrite Hrun. case_bool_decide as Hempty; cbn [fst snd].
  - split; [tauto|]. split; [reflexivity | contradiction].
  - split; [|split].
    + split; [intros H; injection H as H; contradiction | contradiction].
    + contradiction.
    + intros _. exists kind. repeat split. exact Hkind.
Qed.

Lemma detect_artifact_type_unknown_witness :
  exists kind,
    fst (detect_artifact_type history_state) = Return kind /\
    kind <> "unknown"%string /\
    artifact_type (self (snd (detect_artifact_type history_state))) = Some kind.
Proof.
  assert (Hne : s_tables {| s_tables := list_to_map
                              (map (fun n => (n, empty_table)) ["urls"; "visits"]%string);
                            s_indices := ∅; s_triggers := ∅ |} <> ∅).
  { intros H. apply (f_equal (fun m : gmap string TableInfo => m !! "urls"%string)) in H.
    vm_compute in H. discriminate. }
  destruct (proj2 (proj2 (detect_artifact_type_unknown history_state _ eq_refl)) Hne)
    as (kind & Hres & Hin & Hst).
  exists kind. split; [exact Hres|]. split.
  - intros Heq. rewrite Heq in Hin. revert Hin. clear.
    cbn. intros H. repeat (destruct H as [H | H]; [discriminate|]). exact H.
  - rewrite Hst. reflexivity.
Defined.

(** ** [detect_artifact_type]: the case of the file name *)

Lemma lower_char_slash (c : ascii) : Ascii.eqb (lower_char c) "/" = Ascii.eqb c "/".
Proof.
  destruct c as [[] [] [] [] [] [] [] []]; reflexivity.
Qed.

Lemma prefix_slash (s : string) :
  String.prefix "/" s = match s with
                        | EmptyString => false
                        | String c _ => Ascii.eqb c "/"
                        end.
Proof.
  destruct s as [|c s]; [reflexivity|].
  change (String.prefix "/" (String c s))
    with (if Ascii.ascii_dec "/" c then String.prefix "" s else false).
  destruct (Ascii.ascii_dec "/" c) as [<- | Hne].
  - destruct s; reflexivity.
  - symmetry. apply Ascii.eqb_neq. congruence.
Qed.

Lemma contains_slash_lower (s : string) :
  contains (lower s) "/" = contains s "/".
Proof.
  induction s as [|c s IH]; [reflexivity|].
  cbn [lower contains]. rewrite !prefix_slash, lower_char_slash, IH. reflexivity.
Qed.

(** Lowering a path and taking its base name commute. *)
Lemma basename_lower (path : string) : basename (lower path) = lower (basename path).
Proof.
  induction path as [|c rest IH]; [reflexivity|].
  cbn [lower basename]. rewrite contains_slash_lower, lower_char_slash.
  destruct (contains rest "/"); [exact IH|].
  destruct (Ascii.eqb c "/"); reflexivity.
Qed.

(** X5. The classification does not depend on the case of the letters of
    the path: two parsers with the same catalog whose paths differ only
    in case get the same answer. *)
Theorem detect_artifact_type_ignores_case (s s' : State) (sc : Schema) :
  p_schema (self s) = Some sc ->
  p_schema (self s') = Some sc ->
  lower (db_path (self s)) = lower (db_path (self s')) ->
  fst (detect_artifact_type s) = fst (detect_artifact_type s').
Proof.
  destruct s as [p d E], s' as [p' d' E']. cbn [self]. intros Hsc Hsc' Hpath.
  rewrite (detect_artifact_type_run p d E sc Hsc),
    (detect_artifact_type_run p' d' E' sc Hsc').
  assert (Hbase : lower (basename (db_path p)) = lower (basename (db_path p')))
    by (rewrite <- !basename_lower, Hpath; reflexivity).
  rewrite Hbase. destruct (bool_decide (s_tables sc = ∅)); reflexivity.
Qed.

Lemma detect_artifact_type_ignores_case_witness :
  fst (detect_artifact_type shouting_history_state) =
  fst (detect_artifact_type history_state).
Proof.
  apply (detect_artifact_type_ignores_case shouting_history_state history_state _
           eq_refl eq_refl).
  reflexivity.
Defined.

(** ** [extract_schema]: what is not isolated *)

Lemma bind_raise {A B} (m : M A) (k : A -> M B) (s s' : State) (e : exn) :
  m s = (Raise e, s') -> bind m k s = (Raise e, s').
Proof. unfold bind. intros ->. reflexivity. Qed.

Lemma query_raise {A} (stmt : Engine -> string + A) (s : State) (msg : string) :
  stmt (engine s) = inl msg -> query stmt s = (Raise (SqliteError msg), s).
Proof. unfold query, sql. intros ->. reflexivity. Qed.

(** The guard changes at most the connection flag of the parser. *)
Lemma ensure_connection_keeps (s : State) :
  exists c,
    snd (ensure_connection s) =
      {| self := set_connection (self s) c; disk := disk s; engine := engine s |} \/
    snd (ensure_connection s) = s.
Proof.
  destruct s as [p d E]. unfold ensure_connection. run_method.
  destruct (connection p).
  - exists true. right. reflexivity.
  - exists (can_connect E). left. reflexivity.
Qed.

(** X6. Without a connection [extract_schema] answers the empty
    dictionary. With one, a failure of any of the three listings of
    [sqlite_master] is not isolated: it is raised to the caller. In all
    these cases the schema held by the parser stays what it was. *)
Theorem extract_schema_failures (s : State) :
  (connection (self s) = false -> can_connect (engine s) = false ->
   fst (extract_schema s) = Return None /\
   p_schema (self (snd (extract_schema s))) = p_schema (self s)) /\
  (connection (self s) = true \/ can_connect (engine s) = true ->
   forall msg,
     master_tables (engine s) = inl msg \/
     ((exists rows, master_tables (engine s) = inr rows) /\
      master_indices (engine s) = inl msg) \/
     ((exists rows, master_tables (engine s) = inr rows) /\
      (exists rows, master_indices (engine s) = inr rows) /\
      master_triggers (engine s) = inl msg) ->
     fst (extract_schema s) = Raise (SqliteError msg) /\
     p_schema (self (snd (extract_schema s))) = p_schema (self s)).
Proof.
  split.
  - destruct s as [p d E]. cbn [self engine]. intros Hc HE.
    unfold extract_schema. run_method. rewrite Hc. run_method. rewrite HE.
    split; reflexivity.
  - intros Hconn msg Hfail.
    destruct (ensure_connection_ok s Hconn) as [p' Hensure].
    assert (Hp' : p_schema p' = p_schema (self s)).
    { destruct (ensure_connection_keeps s) as [c [Hk | Hk]];
        rewrite Hensure in Hk; cbn [snd] in Hk.
      - injection Hk as ->. reflexivity.
      - rewrite <- Hk. reflexivity. }
    set (s1 := {| self := p'; disk := disk s; engine := engine s |}) in *.
    unfold extract_schema.
    rewrite (bind_return _ _ _ _ _ Hensure). cbn [negb].
    destruct Hfail as [Ht | [[[rows Ht] Hi] | [[rows Ht] [[irows Hi] Hg]]]].
    + rewrite (bind_raise _ _ s1 s1 (SqliteError msg)) by (apply query_raise; exact Ht).
      split; [reflexivity | exact Hp'].
    + rewrite (bind_return _ _ s1 s1 rows) by (apply query_return; exact Ht).
      destruct (table_loop_spec s1 rows ∅) as (tables & Hloop & _).
      rewrite (bind_return _ _ _ _ _ Hloop).
      rewrite (bind_raise _ _ s1 s1 (SqliteError msg)) by (apply query_raise; exact Hi).
      split; [reflexivity | exact Hp'].
    + rewrite (bind_return _ _ s1 s1 rows) by (apply query_return; exact Ht).
      destruct (table_loop_spec s1 rows ∅) as (tables & Hloop & _).
      rewrite (bind_return _ _ _ _ _ Hloop).
      rewrite (bind_return _ _ s1 s1 irows) by (apply query_return; exact Hi).
      destruct (fold_left index_step irows (tables, ∅)) as [tables1 idx].
      rewrite (bind_raise _ _ s1 s1 (SqliteError msg)) by (apply query_raise; exact Hg).
      split; [reflexivity | exact Hp'].
Qed.

Lemma extract_schema_failures_witness :
  fst (extract_schema (start "app.db" (Readable header_only) no_engine)) = Return None.
Proof.
  apply (proj1 (extract_schema_failures (start "app.db" (Readable header_only) no_engine))
           eq_refl eq_refl).
Defined.

(** ** [search_for_deleted_records]: when something fails *)

(** X7. With a connection available: when the engine refuses the
    freelist query, one [error] record with its message is emitted and
    the slack-space rule is still evaluated after it; when the file
    cannot be read, its I/O error is raised; and when the header was
    never decoded, the method raises [AttributeError]. *)
Theorem deleted_records_failures (s : State) :
  connection (self s) = true \/ can_connect (engine s) = true ->
  (forall msg content hd,
     pragma_freelist_count (engine s) = inl msg ->
     disk s = Readable content ->
     header_data (self s) = Some hd ->
     let expected_size := database_size_pages hd * page_size (self s) in
     fst (search_for_deleted_records s) =
       Return (DeletionError
                 (String.append "Error searching for deleted records: " msg) ::
               (if (expected_size >? 0) && (file_size (self s) >? expected_size)
                then [SlackSpace (hex expected_size) (file_size (self s) - expected_size)]
                else []))) /\
  (forall err, disk s = Unreadable err ->
     fst (search_for_deleted_records s) = Raise (OSError err)) /\
  (forall content, disk s = Readable content -> header_data (self s) = None ->
     fst (search_for_deleted_records s) =
       Raise (AttributeError "'NoneType' object has no attribute 'get'")).
Proof.
  destruct s as [p d E]. cbn [self engine disk]. intros Hconn.
  assert (Hc : (if connection p then true else can_connect E) = true).
  { destruct Hconn as [-> | ->]; [reflexivity | destruct (connection p); reflexivity]. }
  split; [|split].
  - intros msg content hd Hfree -> Hhd.
    set (expected_size := database_size_pages hd * page_size p).
    unfold search_for_deleted_records. run_method.
    destruct (connection p) eqn:Hcp; run_method;
      rewrite ?Hc, ?Hfree; run_method; cbn [set_connection header_data page_size file_size];
      rewrite ?Hcp, Hhd; fold expected_size;
      rewrite (andb_comm (file_size p >? expected_size));
      destruct ((expected_size >? 0) && (file_size p >? expected_size)); reflexivity.
  - intros err ->.
    unfold search_for_deleted_records. run_method.
    destruct (connection p) eqn:Hcp; run_method; rewrite ?Hc; run_method;
      destruct (pragma_freelist_count E) as [m | [n|]]; run_method;
      try destruct (n >? 0); reflexivity.
  - intros content -> Hhd.
    unfold search_for_deleted_records. run_method.
    destruct (connection p) eqn:Hcp; run_method; rewrite ?Hc; run_method;
      destruct (pragma_freelist_count E) as [m | [n|]]; run_method;
      try destruct (n >? 0); run_method;
      cbn [set_connection header_data]; rewrite ?Hcp, Hhd; reflexivity.
Qed.

Lemma deleted_records_failures_witness :
  fst (search_for_deleted_records (start "slack.db" slack_file toy_engine)) =
    Raise (AttributeError "'NoneType' object has no attribute 'get'").
Proof.
  refine (proj2 (proj2 (deleted_records_failures (start "slack.db" slack_file toy_engine)
                          (or_intror eq_refl))) _ eq_refl eq_refl).
Defined.

(** ** [get_table_data]: always an answer, never an open connection *)

(** A method whose body is guarded by [except Exception] returns. *)
Lemma try_except_all_returns {A} (m : M A) (h : exn -> M A) (s : State) :
  (forall e s', exists a, h e s' = (Return a, s')) ->
  exists a, fst (try_except m is_exception h s) = Return a /\
            snd (try_except m is_exception h s) = snd (m s).
Proof.
  intros Hh. unfold try_except. destruct (m s) as [[a | e] s'].
  - exists a. split; reflexivity.
  - cbn [is_exception]. destruct (Hh e s') as [a Ha]. rewrite Ha.
    exists a. split; reflexivity.
Qed.

(** X8. [get_table_data] reports a failure as a result and leaves no
    connection behind. Without a connection, when [sqlite3.connect]
    answers with [sqlite3.Error], it returns the could-not-connect error
    and the parser still holds no connection. With a connection held or
    obtained it returns a result, whatever the arguments and whatever
    the engine answers to the statements, and the connection is closed
    afterwards. *)
Theorem get_table_data_returns_closed (s : State) (table_name : string)
  (page page_size : Z) (sort_column : option string) (sort_direction : string)
  (filters : option (list (string * string))) :
  (connection (self s) = false -> can_connect (engine s) = false ->
   fst (get_table_data table_name page page_size sort_column sort_direction filters s) =
     Return (TableError "Could not connect to database") /\
   connection (self (snd (get_table_data table_name page page_size sort_column
                            sort_direction filters s))) = false) /\
  (connection (self s) = true \/ can_connect (engine s) = true ->
   exists r,
     fst (get_table_data table_name page page_size sort_column sort_direction filters s) =
       Return r /\
     connection (self (snd (get_table_data table_name page page_size sort_column
                              sort_direction filters s))) = false).
Proof.
  split.
  - destruct s as [p d E]. cbn [self engine]. intros Hc HE.
    unfold get_table_data. run_method. rewrite Hc. run_method. rewrite HE.
    split; reflexivity.
  - intros Hconn. destruct (ensure_connection_ok s Hconn) as [p' Hensure].
    unfold get_table_data.
    rewrite (bind_return _ _ _ _ _ Hensure). cbn [negb]. unfold finally_close.
    match goal with
    | |- context [try_except ?m is_exception ?h ?s1] =>
        destruct (try_except_all_returns m h s1) as (a & Ha & _);
          [|destruct (try_except m is_exception h s1) as [o s'] eqn:Hrun]
    end.
    + intros e s'. destruct (is_sqlite_error e); eexists; reflexivity.
    + cbn [fst snd] in *. subst o. exists a. split; reflexivity.
Qed.

Lemma get_table_data_returns_closed_witness :
  exists r,
    fst (get_table_data "a.b" 1 50 None "ASC" None
           (start "app.db" (Readable header_only) dotted_engine)) = Return r /\
    connection (self (snd (get_table_data "a.b" 1 50 None "ASC" None
                             (start "app.db" (Readable header_only) dotted_engine)))) = false.
Proof.
  apply (proj2 (get_table_data_returns_closed
                  (start "app.db" (Readable header_only) dotted_engine)
                  "a.b" 1 50 None "ASC" None)).
  right. reflexivity.
Defined.

(** X9. A page size of 0 is not refused up front: for a table of the
    live catalog whose statements the engine answers, the division for
    [total_pages] fails and the result is the error
    [Unexpected error: integer division or modulo by zero]. *)
Theorem get_table_data_zero_page_size (s : State) (table_name : string) (page : Z)
  (sort_column : option string) (sort_direction : string)
  (filters : option (list (string * string)))
  (cols : list ColumnRow) (total : Z) (rows : list Row) :
  connection (self s) = true \/ can_connect (engine s) = true ->
  lookup_table (engine s) table_name = inr true ->
  pragma_table_info (engine s) table_name = inr cols ->
  let valid := map cr_name cols in
  let kept := kept_filters valid filters in
  execute_count (engine s)
    (String.append (String.append "SELECT COUNT(*) FROM " table_name) (where_of kept))
    (params_of kept) = inr total ->
  execute_rows (engine s)
    (with_window
       (with_order
          (String.append (String.append "SELECT * FROM " table_name) (where_of kept))
          valid sort_column sort_direction)
       page 0)
    (params_of kept) = inr rows ->
  fst (get_table_data table_name page 0 sort_column sort_direction filters s) =
    Return (TableError "Unexpected error: integer division or modulo by zero").
Proof.
  intros Hconn Hlook Hcols valid kept Hcount Hrows.
  destruct (ensure_connection_ok s Hconn) as [p' Hensure].
  set (s1 := {| self := p'; disk := disk s; engine := engine s |}) in *.
  unfold get_table_data.
  rewrite (bind_return _ _ _ _ _ Hensure). cbn [negb].
  unfold finally_close, try_except.
  rewrite (bind_return _ _ s1 s1 true) by (apply query_return; exact Hlook).
  cbn [negb].
  rewrite (bind_return _ _ s1 s1 _ (filter_phase table_name cols s1 filters Hcols)).
  fold valid. fold kept.
  change (match map (fun kv => String.append (fst kv) " LIKE ?") kept with
          | [] => EmptyString
          | _ :: _ => String.append " WHERE "
                        (join " AND " (map (fun kv => String.append (fst kv) " LIKE ?") kept))
          end) with (where_of kept).
  rewrite (bind_return _ _ s1 s1 _
             (sort_phase table_name cols s1 _ sort_column sort_direction Hcols)).
  fold valid.
  rewrite (bind_return _ _ s1 s1 total) by (apply query_return; exact Hcount).
  rewrite (bind_return _ _ s1 s1 rows) by (apply query_return; exact Hrows).
  reflexivity.
Qed.

Lemma get_table_data_zero_page_size_witness :
  fst (get_table_data "users" 1 0 None "ASC" None
         (start "app.db" (Readable header_only)
            {| can_connect := true;
               master_tables := inr []; master_indices := inr [];
               master_triggers := inr [];
               pragma_table_info := fun _ => inr users_columns;
               select_count_all := fun _ => inr 1;
               select_sample := fun _ => inr [];
               pragma_freelist_count := inr None;
               lookup_table := fun _ => inr true;
               execute_count := fun _ _ => inr 1;
               execute_rows := fun _ _ => inr [users_row] |}))%string =
    Return (TableError "Unexpected error: integer division or modulo by zero").
Proof.
  apply (get_table_data_zero_page_size _ _ _ _ _ _ users_columns 1 [users_row]);
    solve [reflexivity | right; reflexivity].
Defined.

(** ** [generate_recommendations]: which artifacts get advice *)

(** X10. The artifact-specific advice of [generate_recommendations] is
    tied to the two generic kinds only: ["web_browser_history"] gets the
    browsing advice and ["message_store"] the message advice, each
    exactly once, while an artifact named after one of the ten
    signatures gets none. With the artifact type coming from
    [detect_artifact_type], advice is therefore given only when no
    signature matched the database. *)
Theorem recommendations_by_artifact (metadata : Metadata) (schema_issues : list Issue) :
  let advice :=
    List.filter (fun r => String.eqb (rec_type r) "investigation")
                (generate_recommendations metadata schema_issues) in
  (md_artifact_type metadata = "web_browser_history"%string -> advice = [browsing_advice]) /\
  (md_artifact_type metadata = "message_store"%string -> advice = [message_advice]) /\
  (In (md_artifact_type metadata) (map fst ARTIFACT_SIGNATURES) -> advice = []) /\
  (forall (s : State) (sc : Schema),
     p_schema (self s) = Some sc ->
     fst (detect_artifact_type s) = Return (md_artifact_type metadata) ->
     advice <> [] ->
     s_tables sc <> ∅ /\
     scan_signatures ARTIFACT_SIGNATURES (dom (s_tables sc))
       (lower (basename (db_path (self s)))) = None).
Proof.
  intros advice.
  assert (Hnamed : In (md_artifact_type metadata) (map fst ARTIFACT_SIGNATURES) ->
                   advice = []).
  { subst advice. unfold generate_recommendations. intros Hin.
    cbn [ARTIFACT_SIGNATURES map fst In] in Hin.
    repeat (destruct Hin as [Hin | Hin];
            [rewrite <- Hin; destruct (md_header metadata), (md_tables metadata =? 0),
               (md_deleted_records metadata),
               (existsb (fun issue => String.eqb (severity issue) "high") schema_issues);
             reflexivity|]).
    destruct Hin. }
  assert (Hunknown : md_artifact_type metadata = "unknown"%string -> advice = []).
  { subst advice. unfold generate_recommendations. intros ->.
    destruct (md_header metadata), (md_tables metadata =? 0),
      (md_deleted_records metadata),
      (existsb (fun issue => String.eqb (severity issue) "high") schema_issues);
      reflexivity. }
  split; [|split; [|split]].
  - subst advice. unfold generate_recommendations. intros ->.
    destruct (md_header metadata), (md_tables metadata =? 0),
      (md_deleted_records metadata),
      (existsb (fun issue => String.eqb (severity issue) "high") schema_issues);
      reflexivity.
  - subst advice. unfold generate_recommendations. intros ->.
    destruct (md_header metadata), (md_tables metadata =? 0),
      (md_deleted_records metadata),
      (existsb (fun issue => String.eqb (severity issue) "high") schema_issues);
      reflexivity.
  - exact Hnamed.
  - intros [p d E] sc Hsc Hrun Hadvice. cbn [self] in *.
    rewrite (detect_artifact_type_run p d E sc Hsc) in Hrun.
    case_bool_decide as Hempty; cbn [fst] in Hrun.
    + injection Hrun as Hk. exfalso. apply Hadvice, Hunknown. symmetry. exact Hk.
    + split; [exact Hempty|].
      destruct (scan_signatures ARTIFACT_SIGNATURES (dom (s_tables sc))
                  (lower (basename (db_path p)))) as [a|] eqn:Hscan; [|reflexivity].
      injection Hrun as Hk. exfalso. apply Hadvice, Hnamed. rewrite <- Hk.
      eapply scan_signatures_in. exact Hscan.
Qed.

Lemma recommendations_by_artifact_witness :
  List.filter (fun r => String.eqb (rec_type r) "investigation")
    (generate_recommendations
       {| md_header := None; md_tables := 2; md_deleted_records := [];
          md_artifact_type := "chrome_history" |} []) = [].
Proof.
  apply (proj1 (proj2 (proj2 (recommendations_by_artifact
           {| md_header := None; md_tables := 2; md_deleted_records := [];
              md_artifact_type := "chrome_history" |} [])))).
  left. reflexivity.
Defined.

(** ** The byte histogram *)

Lemma to_nat_inj (a b : byte) : Byte.to_nat a = Byte.to_nat b -> a = b.
Proof.
  intros H. apply (f_equal Byte.of_nat) in H. rewrite !Byte.of_to_nat in H. congruence.
Qed.

Lemma count_frequencies_loop (byte_data : list byte) :
  forall byte_counts : list Z,
    List.length byte_counts = 256%nat ->
    let r := fold_left
               (fun byte_counts b =>
                  let i := Byte.to_nat b in
                  <[ i := default 0 (byte_counts !! i) + 1 ]> byte_counts)
               byte_data byte_counts in
    List.length r = 256%nat /\
    (forall b, default 0 (r !! Byte.to_nat b) =
               default 0 (byte_counts !! Byte.to_nat b) + Z.of_nat (occurrences byte_data b)) /\
    fold_right Z.add 0 r =
      fold_right Z.add 0 byte_counts + Z.of_nat (List.length byte_data).
Proof.
  induction byte_data as [|a data IH]; intros byte_counts Hlen r.
  - subst r. cbn. repeat split; solve [lia | exact Hlen].
  - subst r. cbn [fold_left].
    set (i := Byte.to_nat a).
    assert (Hi : (i < List.length byte_counts)%nat).
    { rewrite Hlen. pose proof (Byte.to_nat_bounded a) as Hb. subst i. lia. }
    destruct (IH (<[ i := default 0 (byte_counts !! i) + 1 ]> byte_counts)) as (Hl & Hocc & Hsum).
    { rewrite length_insert. exact Hlen. }
    split; [exact Hl|]. split.
    + intros b. rewrite Hocc. unfold occurrences. cbn [count_occ].
      destruct (Byte.byte_eq_dec a b) as [-> | Hne].
      * change (Byte.to_nat b) with i.
        rewrite list_lookup_insert_eq by exact Hi.
        change (default 0 (Some ?x)) with x. lia.
      * rewrite list_lookup_insert_ne; [lia|].
        intros Heq. apply Hne. apply to_nat_inj. exact Heq.
    + etransitivity; [exact Hsum|]. cbn [List.length].
      assert (Hins : forall (l : list Z) (k : nat), (k < List.length l)%nat ->
                fold_right Z.add 0 (<[ k := default 0 (l !! k) + 1 ]> l) =
                fold_right Z.add 0 l + 1).
      { clear. induction l as [|x l IHl]; intros k Hk; [cbn in Hk; lia|].
        destruct k as [|k]; cbn; [lia|].
        cbn in Hk. rewrite IHl by lia. lia. }
      rewrite Hins by exact Hi. lia.
Qed.

Lemma hex_label (b : byte) :
  upper (zfill 2 (drop2 (hex (byte_val b)))) = upper (hex_pair b).
Proof. destruct b; vm_compute; reflexivity. Qed.

Lemma chr_of_byte (b : byte) : ascii_of_nat (Byte.to_nat b) = ascii_of_byte b.
Proof. destruct b; vm_compute; reflexivity. Qed.

Lemma map_lookup_seq (l : list Z) :
  forall (f : nat -> Z) (start : nat),
    (forall i, (i < List.length l)%nat -> f (start + i)%nat = default 0 (l !! i)) ->
    map f (seq start (List.length l)) = l.
Proof.
  induction l as [|x l IH]; intros f start Hf; [reflexivity|].
  cbn [List.length seq map]. f_equal.
  - rewrite <- (Nat.add_0_r start). rewrite Hf by (cbn; lia). reflexivity.
  - apply IH. intros i Hi. replace (S start + i)%nat with (start + S i)%nat by lia.
    rewrite Hf by (cbn; lia). reflexivity.
Qed.

(** X11. The histogram has one entry per byte value, in order. The entry
    of a byte holds its value, the two upper-case digits of its hex
    form, its character when the value is between 32 and 126, and the
    number of times the byte is in the file; the frequencies add up to
    the size of the file. *)
Theorem histogram_frequencies (byte_data : list byte) :
  List.length (histogram byte_data) = 256%nat /\
  (forall b : byte,
     histogram byte_data !! Byte.to_nat b =
       Some {| he_byte := byte_val b;
               he_hex := upper (hex_pair b);
               he_ascii := if (32 <=? byte_val b) && (byte_val b <=? 126)
                           then Some (String (ascii_of_byte b) EmptyString) else None;
               he_frequency := Z.of_nat (occurrences byte_data b) |}) /\
  fold_right Z.add 0 (map he_frequency (histogram byte_data)) =
    Z.of_nat (List.length byte_data).
Proof.
  assert (H : List.length (count_frequencies byte_data) = 256%nat /\
              (forall b, default 0 (count_frequencies byte_data !! Byte.to_nat b) =
                         Z.of_nat (occurrences byte_data b)) /\
              fold_right Z.add 0 (count_frequencies byte_data) =
                Z.of_nat (List.length byte_data)).
  { destruct (count_frequencies_loop byte_data (replicate 256 0)) as (Hl & Ho & Hs);
      [reflexivity|].
    split; [exact Hl|]. split.
    - intros b. etransitivity; [exact (Ho b)|].
      pose proof (Byte.to_nat_bounded b).
      rewrite lookup_replicate_2 by lia. change (default 0 (Some ?x)) with x. lia.
    - etransitivity; [exact Hs|].
      replace (fold_right Z.add 0 (replicate 256 0)) with 0 by (vm_compute; reflexivity).
      lia. }
  destruct H as (Hlen & Hocc & Hsum).
  split; [|split].
  - unfold histogram. rewrite length_map, length_seq. reflexivity.
  - intros b. unfold histogram.
    pose proof (Byte.to_nat_bounded b) as Hb.
    change (map ?f ?l) with (f <$> l).
    rewrite list_lookup_fmap, lookup_seq_lt by lia. cbn [fmap option_fmap option_map].
    rewrite Nat.add_0_l.
    assert (Hz : Z.of_nat (Byte.to_nat b) = byte_val b).
    { destruct b; reflexivity. }
    rewrite Hz, hex_label, chr_of_byte, Hocc. reflexivity.
  - unfold histogram. rewrite map_map. cbn [he_frequency].
    rewrite <- Hlen at 1.
    rewrite (map_lookup_seq (count_frequencies byte_data)) by (intros i _; reflexivity).
    exact Hsum.
Qed.

(** ** The entropy profile *)

Lemma fold_left_append_all {A B C} (f : A -> B) (g : A -> bool) (h : C -> A) (l : list C) :
  forall acc : list B,
    (forall x, In x l -> g (h x) = true) ->
    fold_left (fun acc x => if g x then acc ++ [f x] else acc) (map h l) acc =
    acc ++ map (fun x => f (h x)) l.
Proof.
  induction l as [|x l IH]; intros acc Hg; cbn [map fold_left].
  - rewrite app_nil_r. reflexivity.
  - rewrite (Hg x) by (left; reflexivity).
    rewrite IH by (intros y Hy; apply Hg; right; exact Hy).
    rewrite <- app_assoc. reflexivity.
Qed.

(** Cutting a list into pieces of [size] elements loses nothing. *)
Lemma chunks_concat {A} (size : nat) :
  (0 < size)%nat ->
  forall (count : nat) (data : list A),
    (List.length data <= count * size)%nat ->
    concat (map (fun k => firstn size (skipn (k * size) data)) (seq 0 count)) = data.
Proof.
  intros Hsize. induction count as [|count IH]; intros data Hlen.
  - destruct data; [reflexivity | cbn in Hlen; lia].
  - cbn [seq map concat]. rewrite <- seq_shift, map_map.
    change (skipn (0 * size) data) with data.
    transitivity (firstn size data ++ skipn size data); [|apply firstn_skipn].
    f_equal.
    etransitivity; [|apply (IH (skipn size data)); rewrite length_skipn; lia].
    f_equal. apply map_ext. intros k.
    rewrite drop_drop. reflexivity.
Qed.

(** The bytes of the block that starts at the [k]-th offset. *)
Lemma block_slice (file_data : list byte) (size : Z) (k : nat) :
  1 <= size ->
  slice file_data (Z.to_nat (Z.of_nat k * size))
        (Z.to_nat (Z.min (Z.of_nat k * size + size) (Z.of_nat (List.length file_data)))) =
  slice file_data (Z.to_nat (Z.of_nat k * size)) (Z.to_nat (Z.of_nat k * size + size)).
Proof.
  intros Hsize. unfold slice.
  set (i := Z.to_nat (Z.of_nat k * size)).
  set (rest := skipn i file_data).
  assert (Hrest : List.length rest = (List.length file_data - i)%nat)
    by (subst rest; apply length_skipn).
  destruct (Z.le_ge_cases (Z.of_nat k * size + size) (Z.of_nat (List.length file_data)))
    as [Hle | Hge].
  - rewrite Z.min_l by exact Hle. reflexivity.
  - rewrite Z.min_r by exact Hge. rewrite Nat2Z.id.
    rewrite !firstn_all2; [reflexivity | subst i; lia | lia].
Qed.

Lemma entropy_profile_run (libm : Libm) (file_data : list byte) (block_size : Z) :
  1 <= block_size ->
  let n := Z.of_nat (List.length file_data) in
  let size := if n <? block_size then Z.max (n / 10) 1 else block_size in
  let count := Z.to_nat ((n + size - 1) / size) in
  let block := fun k : nat =>
    slice file_data (Z.to_nat (Z.of_nat k * size)) (Z.to_nat (Z.of_nat k * size + size)) in
  1 <= size /\
  entropy_profile libm file_data block_size =
    Return {| overall := calculate_entropy libm file_data;
              blocks := map (fun k => {| block_offset := Z.of_nat k * size;
                                         block_entropy := calculate_entropy libm (block k) |})
                            (seq 0 count) |} /\
  concat (map block (seq 0 count)) = file_data /\
  (forall k, (k < count)%nat -> block k <> []).
Proof.
  intros Hbs n size count block.
  assert (Hsize : 1 <= size) by (subst size; destruct (n <? block_size); lia).
  assert (Hn : 0 <= n) by (subst n; lia).
  assert (Hq : 0 <= (n + size - 1) / size) by (apply Z.div_pos; lia).
  assert (Hcover : n <= Z.of_nat count * size).
  { subst count. rewrite Z2Nat.id by exact Hq.
    pose proof (Z.mul_succ_div_gt (n + size - 1) size ltac:(lia)). lia. }
  assert (Hinside : forall k, (k < count)%nat -> Z.of_nat k * size < n).
  { intros k Hk. subst count.
    assert (Z.of_nat k + 1 <= (n + size - 1) / size) by lia.
    pose proof (Z.mul_div_le (n + size - 1) size ltac:(lia)). nia. }
  assert (Hblock : forall k,
            block k = firstn (Z.to_nat size) (skipn (k * Z.to_nat size) file_data)).
  { intros k. subst block. unfold slice. cbv beta.
    rewrite Z2Nat.inj_mul, Nat2Z.id by lia.
    f_equal. rewrite Z2Nat.inj_add, Z2Nat.inj_mul, Nat2Z.id by lia. lia. }
  assert (Hne : forall k, (k < count)%nat -> block k <> []).
  { intros k Hk Hnil. apply (f_equal (@List.length byte)) in Hnil.
    rewrite Hblock, length_firstn, length_skipn in Hnil. cbn [List.length] in Hnil.
    pose proof (Hinside k Hk). nia. }
  split; [exact Hsize|]. split; [|split; [|exact Hne]].
  - unfold entropy_profile. cbv zeta. fold n. fold size.
    unfold range_from_zero.
    destruct (Z.eqb_spec size 0) as [? | _]; [lia|].
    destruct (Z.ltb_spec size 0) as [? | _]; [lia|].
    fold count. f_equal. f_equal.
    rewrite (fold_left_append_all
               (fun offset =>
                  {| block_offset := offset;
                     block_entropy :=
                       calculate_entropy libm
                         (slice file_data (Z.to_nat offset)
                                (Z.to_nat (Z.min (offset + size) n))) |})
               (fun offset =>
                  Z.of_nat (List.length
                              (slice file_data (Z.to_nat offset)
                                     (Z.to_nat (Z.min (offset + size) n)))) >? 0)
               (fun k => Z.of_nat k * size)).
    + cbn [app]. apply map_ext. intros k. subst n.
      rewrite block_slice by exact Hsize. reflexivity.
    + intros k Hk. apply in_seq in Hk. subst n.
      rewrite block_slice by exact Hsize. fold (block k).
      pose proof (Hne k ltac:(lia)).
      destruct (block k); [congruence|].
      rewrite Z.gtb_ltb. apply Z.ltb_lt. cbn [List.length]. lia.
  - rewrite (map_ext _ _ Hblock). apply chunks_concat; [lia|].
    apply Nat2Z.inj_le. rewrite Nat2Z.inj_mul, Z2Nat.id by lia. exact Hcover.
Qed.

(** X12. For a block size of at least 1, [generate_entropy] reports the
    blocks at the offsets 0, size, 2 size, ... where size is the block
    size, or a tenth of the file (at least 1) when the file is shorter
    than a block. The byte ranges of the blocks tile the file with
    nothing lost or skipped, none of them is empty, and the entropy
    reported for a block is what [calculate_entropy] gives for its
    range, as the overall entropy is what it gives for the file. *)
Theorem entropy_profile_blocks (libm : Libm) (file_data : list byte) (block_size : Z) :
  1 <= block_size ->
  let n := Z.of_nat (List.length file_data) in
  let size := if n <? block_size then Z.max (n / 10) 1 else block_size in
  let range_of := fun b : EntropyBlock =>
    slice file_data (Z.to_nat (block_offset b)) (Z.to_nat (block_offset b + size)) in
  exists data,
    entropy_profile libm file_data block_size = Return data /\
    overall data = calculate_entropy libm file_data /\
    map block_offset (blocks data) =
      map (fun k => Z.of_nat k * size) (seq 0 (List.length (blocks data))) /\
    concat (map range_of (blocks data)) = file_data /\
    Forall (fun b => range_of b <> [] /\
                     block_entropy b = calculate_entropy libm (range_of b))
           (blocks data).
Proof.
  intros Hbs n size range_of.
  destruct (entropy_profile_run libm file_data block_size Hbs)
    as (Hsize & Hrun & Hcat & Hne).
  fold n in Hrun, Hcat, Hne. fold size in Hrun, Hcat, Hne.
  eexists. split; [exact Hrun|]. cbn [overall blocks].
  split; [reflexivity|]. split; [|split].
  - rewrite length_map, length_seq, map_map. reflexivity.
  - rewrite map_map. exact Hcat.
  - apply List.Forall_forall. intros b Hb. apply in_map_iff in Hb.
    destruct Hb as (k & <- & Hk). apply in_seq in Hk. subst range_of.
    cbn [block_offset block_entropy].
    split; [apply Hne; lia | reflexivity].
Qed.

Lemma entropy_profile_blocks_witness :
  exists data,
    entropy_profile sample_libm uniform_block 256 = Return data /\
    overall data = calculate_entropy sample_libm uniform_block.
Proof.
  destruct (entropy_profile_blocks sample_libm uniform_block 256 ltac:(lia))
    as (data & Hrun & Hall & _).
  exists data. split; [exact Hrun | exact Hall].
Defined.

Lemma calculate_entropy_one_byte (libm : Libm) (l : list byte) :
  List.length l = 1%nat -> calculate_entropy libm l = PyFloat float_zero.
Proof.
  destruct l as [|b [|c l]]; intros Hlen; try discriminate Hlen.
  apply (calculate_entropy_single_value libm b 0).
Qed.

(** X13. A file shorter than the block size is cut in ten: with 10 bytes
    or more the profile has between 10 and 19 blocks; under 10 bytes it
    has one block per byte, and each has entropy 0. *)
Theorem entropy_profile_small_file (libm : Libm) (file_data : list byte) (block_size : Z) :
  Z.of_nat (List.length file_data) < block_size ->
  exists data,
    entropy_profile libm file_data block_size = Return data /\
    ((List.length file_data < 10)%nat ->
     blocks data = map (fun k => {| block_offset := Z.of_nat k;
                                    block_entropy := PyFloat float_zero |})
                       (seq 0 (List.length file_data))) /\
    ((10 <= List.length file_data)%nat ->
     (10 <= List.length (blocks data) <= 19)%nat).
Proof.
  intros Hsmall.
  assert (Hbs : 1 <= block_size) by lia.
  destruct (entropy_profile_run libm file_data block_size Hbs) as (_ & Hrun & _ & _).
  set (n := Z.of_nat (List.length file_data)) in *.
  destruct (Z.ltb_spec n block_size) as [_ | ?]; [|lia].
  eexists. split; [exact Hrun|]. cbn [blocks]. split.
  - intros Hlen.
    assert (Hq : n / 10 = 0) by (apply Z.div_small; subst n; lia).
    rewrite Hq. change (Z.max 0 1) with 1.
    replace (Z.to_nat ((n + 1 - 1) / 1)) with (List.length file_data)
      by (rewrite Z.div_1_r; subst n; lia).
    apply map_ext_in. intros k Hk. apply in_seq in Hk. f_equal; [lia|].
    apply calculate_entropy_one_byte. unfold slice.
    rewrite length_firstn, length_skipn. lia.
  - intros Hlen. rewrite length_map, length_seq.
    assert (Hq : 1 <= n / 10) by (apply Z.div_le_lower_bound; subst n; lia).
    rewrite Z.max_l by lia.
    set (q := n / 10) in *.
    pose proof (Z.mul_div_le n 10 ltac:(lia)) as Hlow.
    pose proof (Z.mul_succ_div_gt n 10 ltac:(lia)) as Hhigh.
    fold q in Hlow, Hhigh.
    assert (10 <= (n + q - 1) / q) by (apply Z.div_le_lower_bound; lia).
    assert ((n + q - 1) / q < 20) by (apply Z.div_lt_upper_bound; lia).
    lia.
Qed.

Lemma entropy_profile_small_file_witness :
  exists data,
    entropy_profile sample_libm (list_byte_of_string "SQLite") 1024 = Return data /\
    blocks data = map (fun k => {| block_offset := Z.of_nat k;
                                   block_entropy := PyFloat float_zero |})
                      (seq 0 6).
Proof.
  destruct (entropy_profile_small_file sample_libm (list_byte_of_string "SQLite") 1024
              ltac:(cbn; lia))
    as (data & Hrun & Hfew & _).
  exists data. split; [exact Hrun|]. apply Hfew. cbn. lia.
Defined.

(** X14. A block size of 0 is not caught: the range over the offsets
    raises [ValueError] for every file, the empty one included. A
    negative block size gives a profile without blocks, and so does an
    empty file with any other block size. *)
Theorem entropy_profile_degenerate (libm : Libm) (file_data : list byte) (block_size : Z) :
  (block_size = 0 ->
   entropy_profile libm file_data block_size =
     Raise (ValueError "range() arg 3 must not be zero")) /\
  (block_size < 0 ->
   entropy_profile libm file_data block_size =
     Return {| overall := calculate_entropy libm file_data; blocks := [] |}) /\
  (file_data = [] -> block_size <> 0 ->
   entropy_profile libm file_data block_size =
     Return {| overall := PyInt 0; blocks := [] |}).
Proof.
  split; [|split].
  - intros ->. unfold entropy_profile. cbv zeta.
    destruct (Z.ltb_spec (Z.of_nat (List.length file_data)) 0) as [? | _]; [lia|].
    reflexivity.
  - intros Hneg. unfold entropy_profile. cbv zeta.
    destruct (Z.ltb_spec (Z.of_nat (List.length file_data)) block_size) as [? | _]; [lia|].
    unfold range_from_zero.
    destruct (Z.eqb_spec block_size 0) as [? | _]; [lia|].
    destruct (Z.ltb_spec block_size 0) as [_ | ?]; [|lia].
    reflexivity.
  - intros -> Hnz. unfold entropy_profile. cbv zeta. cbn [List.length calculate_entropy].
    change (Z.of_nat 0) with 0.
    destruct (Z.ltb_spec 0 block_size) as [Hpos | Hneg].
    + reflexivity.
    + unfold range_from_zero.
      destruct (Z.eqb_spec block_size 0) as [? | _]; [lia|].
      destruct (Z.ltb_spec block_size 0) as [_ | ?]; [|lia].
      reflexivity.
Qed.

Lemma entropy_profile_degenerate_witness :
  entropy_profile sample_libm header_only 0 =
    Raise (ValueError "range() arg 3 must not be zero").
Proof.
  apply (proj1 (entropy_profile_degenerate sample_libm header_only 0)). reflexivity.
Defined.

(** ** [calculate_entropy]: which byte values carry the counts *)

Lemma seen_renamed (f : byte -> byte) (data : list byte) :
  (forall a b, f a = f b -> a = b) ->
  forall seen : list byte,
    fold_left (fun seen b => if existsb (Byte.eqb b) seen then seen else seen ++ [b])
              (map f data) (map f seen) =
    map f (fold_left (fun seen b => if existsb (Byte.eqb b) seen then seen else seen ++ [b])
                     data seen).
Proof.
  intros Hinj. induction data as [|a data IH]; intros seen; [reflexivity|].
  cbn [map fold_left].
  assert (Hseen : existsb (Byte.eqb (f a)) (map f seen) = existsb (Byte.eqb a) seen).
  { destruct (existsb (Byte.eqb a) seen) eqn:E.
    - apply existsb_eqb_In. apply in_map. apply existsb_eqb_In. exact E.
    - destruct (existsb (Byte.eqb (f a)) (map f seen)) eqn:E'; [|reflexivity].
      apply existsb_eqb_In in E'. apply in_map_iff in E'.
      destruct E' as (b & Hb & Hin). apply Hinj in Hb. subst b.
      apply existsb_eqb_In in Hin. congruence. }
  rewrite Hseen. destruct (existsb (Byte.eqb a) seen).
  - apply IH.
  - rewrite <- IH. rewrite map_app. reflexivity.
Qed.

Lemma first_occurrences_renamed (f : byte -> byte) (data : list byte) :
  (forall a b, f a = f b -> a = b) ->
  first_occurrences (map f data) = map f (first_occurrences data).
Proof. intros Hinj. apply (seen_renamed f data Hinj []). Qed.

(** X15. The entropy depends on the counts of the byte values and on the
    order in which the values first occur, not on which values they are:
    renaming the byte values one to one leaves it unchanged, bit for
    bit. *)
Theorem calculate_entropy_renaming (libm : Libm) (f : byte -> byte) (data : list byte) :
  (forall a b, f a = f b -> a = b) ->
  calculate_entropy libm (map f data) = calculate_entropy libm data.
Proof.
  intros Hinj. rewrite !calculate_entropy_is_sum. unfold entropy_sum.
  rewrite (first_occurrences_renamed f data Hinj).
  apply fold_left_map_ext. intros a b _.
  assert (Hshare : share (map f data) (f b) = share data b).
  { unfold share, occurrences. rewrite length_map.
    rewrite <- (count_occ_map f Byte.byte_eq_dec Byte.byte_eq_dec Hinj). reflexivity. }
  rewrite Hshare. reflexivity.
Qed.

Lemma calculate_entropy_renaming_witness :
  calculate_entropy sample_libm [x62; x61; x61; x63; x63; x63] =
  calculate_entropy sample_libm [x61; x62; x62; x63; x63; x63].
Proof.
  apply (calculate_entropy_renaming sample_libm
           (fun b => if Byte.eqb b x61 then x62 else if Byte.eqb b x62 then x61 else b)
           [x61; x62; x62; x63; x63; x63]).
  intros a b.
  destruct (Byte.eqb a x61) eqn:Ea1; destruct (Byte.eqb b x61) eqn:Eb1;
    destruct (Byte.eqb a x62) eqn:Ea2; destruct (Byte.eqb b x62) eqn:Eb2;
    repeat match goal with
           | H : Byte.eqb _ _ = true |- _ => apply byte_eqb_eq in H
           | H : Byte.eqb _ _ = false |- _ => apply byte_eqb_neq in H
           end;
    intros Heq; congruence.
Defined.

(** ** [validate_sqlite_database] *)

Lemma lookup_In (l : list string) (i : nat) (t : string) : l !! i = Some t -> In t l.
Proof.
  intros Hi. rewrite <- (take_drop_middle l i t Hi). apply in_or_app. right. left. reflexivity.
Qed.

Lemma list_remove_length (t : string) (l : list string) :
  (List.length (list_remove t l) <= List.length l)%nat.
Proof.
  induction l as [|y l IH]; [reflexivity|].
  cbn [list_remove]. destruct (String.eqb y t); cbn [List.length]; lia.
Qed.

(** On a list without duplicates [remove] takes out the element the
    iterator stands on. *)
Lemma list_remove_at (l : list string) :
  forall (i : nat) (t : string),
    List.NoDup l -> l !! i = Some t -> list_remove t l = firstn i l ++ skipn (S i) l.
Proof.
  induction l as [|y l IH]; intros i t Hnd Hi; [discriminate|].
  inversion Hnd as [|y' l' Hy Hl]; subst.
  destruct i as [|i].
  - injection Hi as ->. cbn [list_remove]. rewrite String.eqb_refl. reflexivity.
  - change (l !! i = Some t) in Hi. cbn [list_remove].
    destruct (String.eqb_spec y t) as [-> | Hne].
    + exfalso. apply Hy. exact (lookup_In l i t Hi).
    + cbn [firstn skipn app]. f_equal. apply IH; assumption.
Qed.

(** The loop ends, and it ends without an error exactly when every
    table from the iterator on can be read. *)
Lemma check_tables_total (conn : Connection) :
  forall (fuel i : nat) (tables errors : list string),
    (List.length tables - i < fuel)%nat ->
    exists raised tables' extra,
      check_tables fuel conn i tables errors = Some (raised, tables', errors ++ extra) /\
      ((raised = None /\ extra = []) <->
       (forall k t, (i <= k)%nat -> tables !! k = Some t ->
                    execute conn (probe_statement t) = None)) /\
      (raised = None -> extra = [] -> tables' = tables).
Proof.
  induction fuel as [|fuel IH]; intros i tables errors Hfuel; [lia|].
  cbn [check_tables].
  destruct (tables !! i) as [table|] eqn:Hi.
  - assert (Hlt : (i < List.length tables)%nat) by (eapply lookup_lt_Some; exact Hi).
    destruct (execute conn (probe_statement table)) as [[msg | msg]|] eqn:Hrun.
    + destruct (IH (S i) (list_remove table tables)
                  (errors ++ [String.append "Table "
                                (String.append table (String.append " error: " msg))]))
        as (raised & tables' & extra & Heq & _ & _).
      { pose proof (list_remove_length table tables). lia. }
      exists raised, tables', ([String.append "Table "
                                  (String.append table (String.append " error: " msg))] ++ extra).
      rewrite app_assoc. split; [exact Heq|]. split.
      * split.
        -- intros [_ Hnil]. discriminate Hnil.
        -- intros Hall. rewrite (Hall i table (Nat.le_refl i) Hi) in Hrun. discriminate.
      * intros _ Hnil. discriminate Hnil.
    + exists (Some msg), tables, []. rewrite app_nil_r. split; [reflexivity|]. split.
      * split.
        -- intros [Hr _]. discriminate Hr.
        -- intros Hall. rewrite (Hall i table (Nat.le_refl i) Hi) in Hrun. discriminate.
      * intros Hr. discriminate Hr.
    + destruct (IH (S i) tables errors) as (raised & tables' & extra & Heq & Hiff & Hsame);
        [lia|].
      exists raised, tables', extra. split; [exact Heq|]. split; [|exact Hsame].
      rewrite Hiff. split.
      * intros Hall k t Hk Ht.
        destruct (Nat.eq_dec k i) as [-> | Hne].
        -- rewrite Hi in Ht. injection Ht as <-. exact Hrun.
        -- apply (Hall k t); [lia | exact Ht].
      * intros Hall k t Hk Ht. apply (Hall k t); [lia | exact Ht].
  - exists None, tables, []. rewrite app_nil_r. split; [reflexivity|].
    split; [|reflexivity].
    split; [|intros _; split; reflexivity].
    intros _ k t Hk Ht.
    assert ((k < List.length tables)%nat) by (eapply lookup_lt_Some; exact Ht).
    apply lookup_ge_None in Hi. lia.
Qed.

(** What the removals do to the iteration: the elements before the
    iterator stay, nothing is added, and the table that follows the
    first unreadable one is stepped over: it is kept, whatever the
    engine would answer for it. *)
Lemma check_tables_skip (conn : Connection) :
  forall (fuel i : nat) (tables errors : list string) raised tables' errors',
    List.NoDup tables ->
    check_tables fuel conn i tables errors = Some (raised, tables', errors') ->
    firstn i tables' = firstn i tables /\
    (forall t, In t tables' -> In t tables) /\
    (forall j a b msg,
       (i <= j)%nat ->
       (forall k t, (i <= k < j)%nat -> tables !! k = Some t ->
                    execute conn (probe_statement t) = None) ->
       tables !! j = Some a ->
       execute conn (probe_statement a) = Some (DatabaseError msg) ->
       tables !! S j = Some b ->
       In b tables' /\ ~ In a tables').
Proof.
  induction fuel as [|fuel IH]; intros i tables errors raised tables' errors' Hnd Heq;
    [discriminate|].
  cbn [check_tables] in Heq.
  destruct (tables !! i) as [table|] eqn:Hi.
  - assert (Hlt : (i < List.length tables)%nat) by (eapply lookup_lt_Some; exact Hi).
    destruct (execute conn (probe_statement table)) as [[msg | msg]|] eqn:Hrun.
    + pose proof (list_remove_at tables i table Hnd Hi) as Hrem.
      pose proof (take_drop_middle tables i table Hi) as Hmid.
      assert (Hnd2 : List.NoDup (firstn i tables ++ skipn (S i) tables) /\
                     ~ In table (firstn i tables ++ skipn (S i) tables)).
      { apply List.NoDup_remove. rewrite Hmid. exact Hnd. }
      destruct Hnd2 as [Hnd2 Hout].
      rewrite Hrem in Heq.
      destruct (IH _ _ _ _ _ _ Hnd2 Heq) as (Hpre & Hincl & _).
      assert (Hincl' : forall t, In t tables' -> In t tables).
      { intros t Ht. apply Hincl in Ht. rewrite <- Hmid.
        apply in_app_or in Ht. apply in_or_app.
        destruct Ht as [Ht | Ht]; [left | right; right]; exact Ht. }
      split; [|split; [exact Hincl'|]].
      * apply (f_equal (firstn i)) in Hpre.
        rewrite !firstn_firstn, Nat.min_l in Hpre by lia.
        rewrite Hpre. rewrite firstn_app, firstn_firstn, Nat.min_id.
        rewrite length_firstn, Nat.min_l by lia. rewrite Nat.sub_diag.
        cbn [firstn]. apply app_nil_r.
      * intros j a b m Hj Hpass Ha Hfail Hb.
        destruct (Nat.eq_dec j i) as [-> | Hne].
        -- rewrite Hi in Ha. injection Ha as <-.
           split.
           ++ assert (Hb2 : (firstn i tables ++ skipn (S i) tables) !! i = Some b).
              { rewrite lookup_app_r by (rewrite length_firstn; lia).
                rewrite length_firstn, Nat.min_l by lia. rewrite Nat.sub_diag.
                rewrite lookup_drop. rewrite Nat.add_0_r. exact Hb. }
              assert (Hb3 : tables' !! i = Some b).
              { rewrite <- (lookup_take_lt tables' (S i) i) by lia.
                rewrite Hpre. rewrite lookup_take_lt by lia. exact Hb2. }
              exact (lookup_In tables' i b Hb3).
           ++ intros Hin. apply Hout. apply Hincl. exact Hin.
        -- rewrite (Hpass i table ltac:(lia) Hi) in Hrun. discriminate.
    + injection Heq as <- <- <-. split; [reflexivity|]. split; [tauto|].
      intros j a b m Hj Hpass Ha Hfail Hb.
      destruct (Nat.eq_dec j i) as [-> | Hne].
      * rewrite Hi in Ha. injection Ha as <-. rewrite Hrun in Hfail. discriminate.
      * rewrite (Hpass i table ltac:(lia) Hi) in Hrun. discriminate.
    + destruct (IH _ _ _ _ _ _ Hnd Heq) as (Hpre & Hincl & Hskip).
      split; [|split; [exact Hincl|]].
      * apply (f_equal (firstn i)) in Hpre.
        rewrite !firstn_firstn, Nat.min_l in Hpre by lia. exact Hpre.
      * intros j a b m Hj Hpass Ha Hfail Hb.
        destruct (Nat.eq_dec j i) as [-> | Hne].
        -- rewrite Hi in Ha. injection Ha as <-. rewrite Hrun in Hfail. discriminate.
        -- apply (Hskip j a b m); [lia | | exact Ha | exact Hfail | exact Hb].
           intros k t Hk Ht. apply (Hpass k t); [lia | exact Ht].
  - injection Heq as <- <- <-. split; [reflexivity|]. split; [tauto|].
    intros j a b m Hj _ Ha _ _.
    assert ((j < List.length tables)%nat) by (eapply lookup_lt_Some; exact Ha).
    apply lookup_ge_None in Hi. lia.
Qed.

Lemma all_readable (conn : Connection) (names : list string) :
  (forall k t, (0 <= k)%nat -> names !! k = Some t ->
               execute conn (probe_statement t) = None) <->
  Forall (fun t => execute conn (probe_statement t) = None) names.
Proof.
  rewrite Forall_lookup. split.
  - intros H k t Ht. apply (H k t); [lia | exact Ht].
  - intros H k t _ Ht. apply (H k t Ht).
Qed.

(** X16. With fuel above the number of listed tables the validation
    returns, and its verdict is [True] exactly when the file starts with
    the signature, the database opens, the table listing answers and
    every listed table can be read; it is [True] exactly when no error
    was recorded, and then all listed tables are reported as recovered
    and nothing is flagged. *)
Theorem validate_sqlite_database_verdict (fuel : nat) (file : File)
  (db : Failure + Connection) :
  (List.length (listed_tables db) < fuel)%nat ->
  exists valid errors info,
    validate_sqlite_database fuel file db = Some (valid, errors, info) /\
    (valid = true <-> errors = []) /\
    (valid = true <->
     exists content conn names,
       file = Readable content /\
       bytes_startswith (firstn 16 content) SQLITE_SIGNATURE = true /\
       db = inr conn /\ table_names conn = inr names /\
       Forall (fun t => execute conn (probe_statement t) = None) names) /\
    (valid = true ->
     recovered_tables info = listed_tables db /\
     is_corrupted info = false /\ partial_analysis info = false /\
     error_log info = []).
Proof.
  intros Hfuel. unfold validate_sqlite_database.
  destruct file as [content | err]; cbn [open_rb].
  2:{ eexists _, _, _. split; [reflexivity|]. cbn.
      split; [split; discriminate|]. split; [|discriminate].
      split; [discriminate|]. intros (c & conn & names & Hfile & _). discriminate Hfile. }
  cbv zeta.
  destruct db as [[msg | msg] | conn].
  - eexists _, _, _. split; [reflexivity|].
    destruct (bytes_startswith (firstn 16 content) SQLITE_SIGNATURE); cbn;
      (split; [split; discriminate|]; split; [|discriminate];
       split; [discriminate|]; intros (c & conn & names & _ & _ & Hdb & _); discriminate Hdb).
  - eexists _, _, _. split; [reflexivity|].
    destruct (bytes_startswith (firstn 16 content) SQLITE_SIGNATURE); cbn;
      (split; [split; discriminate|]; split; [|discriminate];
       split; [discriminate|]; intros (c & conn & names & _ & _ & Hdb & _); discriminate Hdb).
  - cbn [listed_tables] in Hfuel.
    destruct (table_names conn) as [[msg | msg] | names] eqn:Hnames.
    + destruct (check_tables_total conn fuel 0 []
                  ((if negb (bytes_startswith (firstn 16 content) SQLITE_SIGNATURE)
                    then [] ++ ["Invalid SQLite header signature"%string] else []) ++
                   [String.append "Schema error: " msg]))
        as (raised & tables' & extra & Heq & _ & _); [cbn; lia|].
      rewrite Heq. eexists _, _, _. split; [reflexivity|].
      destruct (bytes_startswith (firstn 16 content) SQLITE_SIGNATURE), raised; cbn;
        (split; [split; discriminate|]; split; [|discriminate];
         split; [discriminate|];
         intros (c & conn' & names & _ & _ & Hdb & Hn & _);
         injection Hdb as <-; rewrite Hnames in Hn; discriminate Hn).
    + eexists _, _, _. split; [reflexivity|].
      destruct (bytes_startswith (firstn 16 content) SQLITE_SIGNATURE); cbn;
        (split; [split; discriminate|]; split; [|discriminate];
         split; [discriminate|];
         intros (c & conn' & names & _ & _ & Hdb & Hn & _);
         injection Hdb as <-; rewrite Hnames in Hn; discriminate Hn).
    + destruct (check_tables_total conn fuel 0 names
                  (if negb (bytes_startswith (firstn 16 content) SQLITE_SIGNATURE)
                   then [] ++ ["Invalid SQLite header signature"%string] else []))
        as (raised & tables' & extra & Heq & Hiff & Hsame); [lia|].
      rewrite Heq. rewrite all_readable in Hiff.
      eexists _, _, _. split; [reflexivity|].
      destruct (bytes_startswith (firstn 16 content) SQLITE_SIGNATURE) eqn:Hsig;
        destruct raised as [m|]; destruct extra as [|e extra];
        cbn [negb app List.length Nat.eqb recovered_tables is_corrupted
             partial_analysis error_log listed_tables];
        rewrite ?Hnames;
        try (split; [split; discriminate|]; split; [|discriminate]; split; [discriminate|];
             intros (c & conn' & names' & Hfile & Hsig' & Hdb & Hn & Hall);
             injection Hfile as <-; injection Hdb as <-;
             rewrite Hnames in Hn; injection Hn as <-;
             first [ rewrite Hsig in Hsig'; discriminate Hsig'
                   | apply Hiff in Hall; destruct Hall as [Hr He]; discriminate ]).
      split; [split; reflexivity|]. split.
      * split; [|reflexivity]. intros _. exists content, conn, names.
        split; [reflexivity|]. split; [exact Hsig|]. split; [reflexivity|].
        split; [exact Hnames|]. apply Hiff. split; reflexivity.
      * intros _. rewrite (Hsame eq_refl eq_refl). repeat split; reflexivity.
Qed.

Lemma validate_sqlite_database_verdict_witness :
  exists valid errors info,
    validate_sqlite_database 3 (Readable header_only)
      (inr (flaky_connection ["users"; "orders"]%string [])) = Some (valid, errors, info) /\
    (valid = true <-> errors = []).
Proof.
  destruct (validate_sqlite_database_verdict 3 (Readable header_only)
              (inr (flaky_connection ["users"; "orders"]%string [])) ltac:(cbn; lia))
    as (valid & errors & info & Hrun & Hiff & _).
  exists valid, errors, info. split; [exact Hrun | exact Hiff].
Defined.

(** X17. The loop over the recovered tables removes from the list it
    runs over, so the table that follows the first unreadable table is
    stepped over: it is never checked and is reported as recovered,
    whatever the engine would answer for it, while the unreadable table
    itself is taken out and the verdict is [False]. *)
Theorem validate_sqlite_database_skips (fuel : nat) (content : list byte)
  (conn : Connection) (pre rest : list string) (a b msg : string) :
  table_names conn = inr (pre ++ a :: b :: rest) ->
  List.NoDup (pre ++ a :: b :: rest) ->
  (List.length (pre ++ a :: b :: rest) < fuel)%nat ->
  Forall (fun t => execute conn (probe_statement t) = None) pre ->
  execute conn (probe_statement a) = Some (DatabaseError msg) ->
  exists errors info,
    validate_sqlite_database fuel (Readable content) (inr conn) =
      Some (false, errors, info) /\
    In b (recovered_tables info) /\ ~ In a (recovered_tables info).
Proof.
  intros Hnames Hnd Hfuel Hpre Hfail.
  set (names := pre ++ a :: b :: rest) in *.
  assert (Ha : names !! List.length pre = Some a).
  { subst names. rewrite lookup_app_r by lia. rewrite Nat.sub_diag. reflexivity. }
  assert (Hb : names !! S (List.length pre) = Some b).
  { subst names. rewrite lookup_app_r by lia.
    replace (S (List.length pre) - List.length pre)%nat with 1%nat by lia. reflexivity. }
  assert (Hpass : forall k t, (0 <= k < List.length pre)%nat -> names !! k = Some t ->
                              execute conn (probe_statement t) = None).
  { intros k t Hk Ht. subst names. rewrite lookup_app_l in Ht by lia.
    rewrite Forall_lookup in Hpre. exact (Hpre k t Ht). }
  unfold validate_sqlite_database. cbn [open_rb]. cbv zeta. rewrite Hnames.
  destruct (check_tables_total conn fuel 0 names
              (if negb (bytes_startswith (firstn 16 content) SQLITE_SIGNATURE)
               then [] ++ ["Invalid SQLite header signature"%string] else []))
    as (raised & tables' & extra & Heq & Hiff & _); [lia|].
  rewrite Heq.
  destruct (check_tables_skip conn fuel 0 names _ raised tables' _ Hnd Heq)
    as (_ & _ & Hskip).
  destruct (Hskip (List.length pre) a b msg ltac:(lia) Hpass Ha Hfail Hb) as [Hin Hout].
  assert (Hdirty : ~ (raised = None /\ extra = [])).
  { intros Hclean. pose proof (proj1 Hiff Hclean) as Hall.
    rewrite (Hall (List.length pre) a ltac:(lia) Ha) in Hfail. discriminate. }
  destruct (bytes_startswith (firstn 16 content) SQLITE_SIGNATURE), raised as [m|],
    extra as [|e extra];
    try (exfalso; apply Hdirty; split; reflexivity);
    (eexists _, _; split; [reflexivity|]; split; [exact Hin | exact Hout]).
Qed.

Lemma validate_sqlite_database_skips_witness :
  exists errors info,
    validate_sqlite_database 4 (Readable header_only)
      (inr (flaky_connection ["users"; "orders"; "items"]%string
              ["users"; "orders"]%string)) = Some (false, errors, info) /\
    In "orders"%string (recovered_tables info).
Proof.
  destruct (validate_sqlite_database_skips 4 header_only
              (flaky_connection ["users"; "orders"; "items"]%string
                 ["users"; "orders"]%string)
              [] ["items"%string] "users" "orders" "database disk image is malformed"
              eq_refl) as (errors & info & Hrun & Hin & _).
  - repeat constructor; cbn; intuition discriminate.
  - cbn. lia.
  - constructor.
  - reflexivity.
  - exists errors, info. split; [exact Hrun | exact Hin].
Defined.

(** ** [parse_header]: what it stores and what it reads from one byte *)

Lemma slice_four {A} (d : A) (l : list A) (i : nat) :
  (i + 4 <= List.length l)%nat ->
  slice l i (i + 4) = [nth i l d; nth (S i) l d; nth (S (S i)) l d; nth (S (S (S i))) l d].
Proof.
  revert l. induction i as [|i IH]; intros l Hl.
  - destruct l as [|a [|b [|c [|e l]]]]; simpl in Hl; try lia. reflexivity.
  - destruct l as [|a l]; simpl in Hl; try lia.
    specialize (IH l ltac:(lia)). unfold slice in *.
    replace (S i + 4 - S i)%nat with (i + 4 - i)%nat by lia.
    simpl skipn. rewrite IH. reflexivity.
Qed.

Lemma unpack_be_four (a b c e : byte) :
  unpack_be [a; b; c; e] =
  16777216 * byte_val a + 65536 * byte_val b + 256 * byte_val c + byte_val e.
Proof. unfold unpack_be. cbn [fold_left]. lia. Qed.

(** A four-byte field and its leading byte. *)
Lemma u32_leading_byte (header : list byte) (i : nat) :
  (i + 4 <= List.length header)%nat ->
  16777216 * u8 header i <= u32 header i < 16777216 * u8 header i + 16777216 /\
  0 <= u32 header i < 4294967296.
Proof.
  intros Hlen. unfold u32, u8, byte_at.
  rewrite (slice_four x00) by exact Hlen. rewrite unpack_be_four.
  pose proof (byte_val_range (nth i header x00)).
  pose proof (byte_val_range (nth (S i) header x00)).
  pose proof (byte_val_range (nth (S (S i)) header x00)).
  pose proof (byte_val_range (nth (S (S (S i))) header x00)).
  lia.
Qed.

(** A successful run of [parse_header], field by field. *)
Lemma parse_header_success (p : Parser) (content : list byte) (E : Engine) (hd : HeaderData) :
  let s := {| self := p; disk := Readable content; engine := E |} in
  let header := firstn 100 content in
  fst (parse_header s) = Return hd ->
  List.length header = 100%nat /\
  text_encoding hd = decode_encoding (u8 header 56) /\
  schema_format hd = u8 header 44 /\
  hd_page_size hd = (if unpack_be (slice header 16 18) =? 1 then 65536
                     else unpack_be (slice header 16 18)) /\
  hd_user_version hd = u32 header 60 /\
  hd_application_id hd = hex (u32 header 68) /\
  sqlite_version_number hd = u32 header 96 /\
  snd (parse_header s) =
    {| self := {| db_path := db_path p; file_size := file_size p;
                  header_data := Some hd; page_size := hd_page_size hd;
                  encoding := Some (text_encoding hd);
                  user_version := hd_user_version hd;
                  application_id := u32 header 68;
                  schema_version := sqlite_version_number hd;
                  p_schema := p_schema p; artifact_type := artifact_type p;
                  connection := connection p |};
       disk := Readable content; engine := E |}.
Proof.
  intros s header. subst s. unfold parse_header, bind, read_all.
  cbn [disk open_rb]. fold header.
  destruct (Z.ltb_spec (Z.of_nat (List.length header)) 100) as [Hlt | Hge].
  { intros H. discriminate H. }
  destruct (bytes_startswith header SQLITE_SIGNATURE); cbn [negb].
  2:{ intros H. discriminate H. }
  cbn [get_self put_self ret fst snd self disk engine].
  intros H. injection H as <-.
  cbn [text_encoding schema_format hd_page_size hd_user_version hd_application_id
       sqlite_version_number].
  assert (List.length header <= 100)%nat by (subst header; rewrite length_firstn; lia).
  repeat split; try reflexivity. lia.
Qed.

Lemma parse_header_failure (s : State) (e : exn) :
  fst (parse_header s) = Raise e -> snd (parse_header s) = s.
Proof.
  destruct s as [p [content | err] E]; unfold parse_header, bind, read_all;
    cbn [disk open_rb]; [|reflexivity].
  destruct (Z.of_nat (List.length (firstn 100 content)) <? 100); [reflexivity|].
  destruct (bytes_startswith (firstn 100 content) SQLITE_SIGNATURE); cbn [negb];
    [|reflexivity].
  cbn [get_self put_self ret fst snd]. intros H. discriminate H.
Qed.

(** X18. The text encoding and the schema format are four-byte
    big-endian fields of the header, at offsets 56 and 44, but
    [parse_header] reads only the byte at the offset, the most
    significant one. So a header whose encoding field holds a value below
    2^24, as the values 1, 2 and 3 of the format do, is decoded as
    ["Unknown"], and a schema format below 2^24 is decoded as 0; a known
    encoding is reported only for a field between 2^24 and 2^26. *)
Theorem parse_header_leading_byte_fields (p : Parser) (content : list byte) (E : Engine)
  (hd : HeaderData) :
  let s := {| self := p; disk := Readable content; engine := E |} in
  let header := firstn 100 content in
  fst (parse_header s) = Return hd ->
  (u32 header 56 < 16777216 -> text_encoding hd = "Unknown"%string) /\
  (u32 header 44 < 16777216 -> schema_format hd = 0) /\
  (text_encoding hd <> "Unknown"%string -> 16777216 <= u32 header 56 < 67108864).
Proof.
  intros s header Hok.
  destruct (parse_header_success p content E hd Hok)
    as (Hlen & Henc & Hfmt & _). fold header in Hlen, Henc, Hfmt.
  destruct (u32_leading_byte header 56 ltac:(lia)) as [H56 _].
  destruct (u32_leading_byte header 44 ltac:(lia)) as [H44 _].
  assert (Hb : 0 <= u8 header 56 < 256) by apply byte_val_range.
  assert (Hb' : 0 <= u8 header 44 < 256) by apply byte_val_range.
  rewrite Henc, Hfmt. unfold decode_encoding.
  split; [|split].
  - intros Hsmall. replace (u8 header 56) with 0 by lia. reflexivity.
  - intros Hsmall. lia.
  - destruct (Z.eqb_spec (u8 header 56) 1) as [H1 | _]; [lia|].
    destruct (Z.eqb_spec (u8 header 56) 2) as [H2 | _]; [lia|].
    destruct (Z.eqb_spec (u8 header 56) 3) as [H3 | _]; [lia|].
    intros Hne. congruence.
Qed.

Lemma parse_header_leading_byte_fields_witness :
  exists hd,
    fst (parse_header (start "app.db" (Readable header_only) no_engine)) = Return hd /\
    u32 (firstn 100 header_only) 56 = 1 /\
    text_encoding hd = "Unknown"%string.
Proof.
  assert (H : exists hd,
             fst (parse_header (start "app.db" (Readable header_only) no_engine)) = Return hd)
    by (eexists; reflexivity).
  destruct H as [hd H]. exists hd. split; [exact H|]. split; [reflexivity|].
  apply (proj1 (parse_header_leading_byte_fields _ _ _ hd H)).
  vm_compute. reflexivity.
Defined.

(** X19. [parse_header] is all or nothing. When it raises, for a short
    file, a wrong signature or a file that cannot be read, the parser is
    left exactly as it was. When it returns, the parser holds the
    returned dictionary and the fields copied from it, its other fields
    are untouched, and the stored page size lies between 0 and 65536 and
    is never 1. *)
Theorem parse_header_all_or_nothing (s : State) :
  (forall e, fst (parse_header s) = Raise e -> snd (parse_header s) = s) /\
  (forall hd, fst (parse_header s) = Return hd ->
     let p' := self (snd (parse_header s)) in
     header_data p' = Some hd /\
     page_size p' = hd_page_size hd /\
     encoding p' = Some (text_encoding hd) /\
     user_version p' = hd_user_version hd /\
     hex (application_id p') = hd_application_id hd /\
     schema_version p' = sqlite_version_number hd /\
     db_path p' = db_path (self s) /\ file_size p' = file_size (self s) /\
     p_schema p' = p_schema (self s) /\ artifact_type p' = artifact_type (self s) /\
     connection p' = connection (self s) /\
     0 <= page_size p' <= 65536 /\ page_size p' <> 1).
Proof.
  split; [intros e; apply parse_header_failure|].
  intros hd Hok. destruct s as [p [content | err] E].
  2:{ discriminate Hok. }
  destruct (parse_header_success p content E hd Hok)
    as (Hlen & _ & _ & Hps & _ & Happ & _ & Hsnd).
  rewrite Hsnd. cbn [self header_data page_size encoding user_version application_id
                     schema_version db_path file_size p_schema artifact_type connection].
  repeat split; try reflexivity; try (symmetry; exact Happ).
  - rewrite Hps.
    rewrite (slice_two x00) by lia. rewrite unpack_be_two.
    pose proof (byte_val_range (nth 16 (firstn 100 content) x00)).
    pose proof (byte_val_range (nth 17 (firstn 100 content) x00)).
    match goal with |- context [if ?c then _ else _] => destruct c end; lia.
  - rewrite Hps.
    rewrite (slice_two x00) by lia. rewrite unpack_be_two.
    pose proof (byte_val_range (nth 16 (firstn 100 content) x00)).
    pose proof (byte_val_range (nth 17 (firstn 100 content) x00)).
    match goal with |- context [if ?c then _ else _] => destruct c end; lia.
  - rewrite Hps.
    destruct (Z.eqb_spec (unpack_be (slice (firstn 100 content) 16 18)) 1); lia.
Qed.

Lemma parse_header_all_or_nothing_witness :
  snd (parse_header (start "short.db" short_file no_engine)) =
  start "short.db" short_file no_engine.
Proof.
  apply (proj1 (parse_header_all_or_nothing (start "short.db" short_file no_engine))
           too_short_error).
  reflexivity.
Defined.

(** ** [extract_schema]: the indices and triggers of a table *)

Lemma introspect_table_fresh (s s' : State) (name : string) (tsql : option string)
  (t : TableInfo) :
  introspect_table name tsql s = (Return t, s') -> indices t = None /\ triggers t = None.
Proof.
  destruct s as [p d E]. unfold introspect_table. run_method.
  destruct (pragma_table_info E name) as [msg | cols]; [discriminate|].
  destruct (select_count_all E name) as [msg | n]; [discriminate|].
  destruct (n >? 0); [destruct (select_sample E name) as [msg | rows]|];
    intros H; injection H as <- _; split; reflexivity.
Qed.

Lemma table_loop_fresh (rows : list MasterRow) :
  forall (s s' : State) (tables0 tables : gmap string TableInfo),
    for_each rows tables0 table_step s = (Return tables, s') ->
    (forall name t, tables0 !! name = Some t -> indices t = None /\ triggers t = None) ->
    forall name t, tables !! name = Some t -> indices t = None /\ triggers t = None.
Proof.
  induction rows as [|row rows IH]; intros s s' tables0 tables Hrun Hfresh.
  - injection Hrun as <- _. exact Hfresh.
  - cbn [for_each] in Hrun. unfold bind in Hrun.
    destruct (table_step tables0 row s) as [[tables1 | e] s1] eqn:Hstep; [|discriminate].
    apply (IH s1 s' tables1 tables Hrun).
    unfold table_step in Hstep.
    destruct (startswith (mr_name row) "sqlite_").
    { injection Hstep as <- _. exact Hfresh. }
    unfold try_except, bind in Hstep.
    destruct (introspect_table (mr_name row) (mr_sql row) s) as [[t | e] s2] eqn:Hintro.
    + injection Hstep as <- _. intros name t' Ht'.
      destruct (decide (name = mr_name row)) as [-> | Hne].
      * rewrite lookup_insert_eq in Ht'. injection Ht' as <-.
        exact (introspect_table_fresh _ _ _ _ _ Hintro).
      * rewrite lookup_insert_ne in Ht' by congruence. exact (Hfresh name t' Ht').
    + destruct (is_sqlite_error e); [|discriminate].
      injection Hstep as <- _. exact Hfresh.
Qed.

(** The index loop appends to the list of a table, in the order of the
    listing, the indices that name it and are not engine-internal. *)
Lemma index_loop_lists (rows : list MasterRow) :
  forall (tables0 : gmap string TableInfo) (idx0 : gmap string OwnedBy)
         (name : string) (t : TableInfo),
    fst (fold_left index_step rows (tables0, idx0)) !! name = Some t ->
    exists t0,
      tables0 !! name = Some t0 /\ triggers t = triggers t0 /\
      default [] (indices t) =
        default [] (indices t0) ++
        map (fun r => {| att_name := mr_name r; att_sql := mr_sql r |})
            (List.filter (fun r => negb (startswith (mr_name r) "sqlite_") &&
                                   String.eqb (mr_tbl_name r) name) rows).
Proof.
  induction rows as [|row rows IH]; intros tables0 idx0 name t Ht.
  - exists t. cbn. rewrite app_nil_r. repeat split. exact Ht.
  - cbn [fold_left List.filter] in *. unfold index_step at 2 in Ht.
    destruct (startswith (mr_name row) "sqlite_") eqn:Hpre; cbn [negb andb].
    { exact (IH tables0 idx0 name t Ht). }
    destruct (tables0 !! mr_tbl_name row) as [t1|] eqn:Hown.
    + destruct (IH _ _ name t Ht) as (t0 & Hin & Htrg & Hlist).
      destruct (String.eqb_spec (mr_tbl_name row) name) as [Heq | Hne].
      * subst name. rewrite lookup_insert_eq in Hin. injection Hin as <-.
        exists t1. split; [exact Hown|]. split; [exact Htrg|].
        rewrite Hlist. cbn [add_index indices map].
        change (default [] (Some ?l)) with l. rewrite <- app_assoc. reflexivity.
      * rewrite lookup_insert_ne in Hin by exact Hne.
        exists t0. split; [exact Hin|]. split; [exact Htrg | exact Hlist].
    + destruct (IH _ _ name t Ht) as (t0 & Hin & Htrg & Hlist).
      destruct (String.eqb_spec (mr_tbl_name row) name) as [Heq | Hne].
      * subst name. rewrite Hown in Hin. discriminate.
      * exists t0. split; [exact Hin|]. split; [exact Htrg | exact Hlist].
Qed.

(** The trigger loop does the same with every trigger that names the
    table, and leaves the indices as they are. *)
Lemma trigger_loop_lists (rows : list MasterRow) :
  forall (tables0 : gmap string TableInfo) (trg0 : gmap string OwnedBy)
         (name : string) (t : TableInfo),
    fst (fold_left trigger_step rows (tables0, trg0)) !! name = Some t ->
    exists t0,
      tables0 !! name = Some t0 /\ indices t = indices t0 /\
      default [] (triggers t) =
        default [] (triggers t0) ++
        map (fun r => {| att_name := mr_name r; att_sql := mr_sql r |})
            (List.filter (fun r => String.eqb (mr_tbl_name r) name) rows).
Proof.
  induction rows as [|row rows IH]; intros tables0 trg0 name t Ht.
  - exists t. cbn. rewrite app_nil_r. repeat split. exact Ht.
  - cbn [fold_left List.filter] in *. unfold trigger_step at 2 in Ht.
    destruct (tables0 !! mr_tbl_name row) as [t1|] eqn:Hown.
    + destruct (IH _ _ name t Ht) as (t0 & Hin & Hidx & Hlist).
      destruct (String.eqb_spec (mr_tbl_name row) name) as [Heq | Hne].
      * subst name. rewrite lookup_insert_eq in Hin. injection Hin as <-.
        exists t1. split; [exact Hown|]. split; [exact Hidx|].
        rewrite Hlist. cbn [add_trigger triggers map].
        change (default [] (Some ?l)) with l. rewrite <- app_assoc. reflexivity.
      * rewrite lookup_insert_ne in Hin by exact Hne.
        exists t0. split; [exact Hin|]. split; [exact Hidx | exact Hlist].
    + destruct (IH _ _ name t Ht) as (t0 & Hin & Hidx & Hlist).
      destruct (String.eqb_spec (mr_tbl_name row) name) as [Heq | Hne].
      * subst name. rewrite Hown in Hin. discriminate.
      * exists t0. split; [exact Hin|]. split; [exact Hidx | exact Hlist].
Qed.

(** X20. In the catalog [extract_schema] returns, the index list of a
    table holds exactly the listed indices that name the table and whose
    own name is not engine-internal, in the order of the listing, and
    its trigger list holds every listed trigger that names it. An index
    or trigger that names a table absent from the catalog is attached to
    no table. *)
Theorem extract_schema_attachments (s : State)
  (table_rows index_rows trigger_rows : list MasterRow) :
  connection (self s) = true \/ can_connect (engine s) = true ->
  master_tables (engine s) = inr table_rows ->
  master_indices (engine s) = inr index_rows ->
  master_triggers (engine s) = inr trigger_rows ->
  exists sc,
    fst (extract_schema s) = Return (Some sc) /\
    forall name t, s_tables sc !! name = Some t ->
      default [] (indices t) =
        map (fun r => {| att_name := mr_name r; att_sql := mr_sql r |})
            (List.filter (fun r => negb (startswith (mr_name r) "sqlite_") &&
                                   String.eqb (mr_tbl_name r) name) index_rows) /\
      default [] (triggers t) =
        map (fun r => {| att_name := mr_name r; att_sql := mr_sql r |})
            (List.filter (fun r => String.eqb (mr_tbl_name r) name) trigger_rows).
Proof.
  intros Hconn Htab Hidx Htrg.
  destruct (ensure_connection_ok s Hconn) as [p' Hensure].
  set (s1 := {| self := p'; disk := disk s; engine := engine s |}) in *.
  destruct (table_loop_spec s1 table_rows ∅) as (tables & Hloop & _ & _).
  pose proof (table_loop_fresh table_rows s1 s1 ∅ tables Hloop) as Hfresh.
  pose proof (index_loop_lists index_rows tables ∅) as Hlists1.
  destruct (fold_left index_step index_rows (tables, ∅)) as [tables1 idx] eqn:Hi.
  pose proof (trigger_loop_lists trigger_rows tables1 ∅) as Hlists2.
  destruct (fold_left trigger_step trigger_rows (tables1, ∅)) as [tables2 trg] eqn:Ht.
  cbn [fst] in *.
  exists {| s_tables := tables2; s_indices := idx; s_triggers := trg |}.
  split.
  - unfold extract_schema.
    rewrite (bind_return _ _ _ _ _ Hensure). cbn [negb].
    rewrite (bind_return _ _ s1 s1 table_rows) by (apply query_return; exact Htab).
    rewrite (bind_return _ _ _ _ _ Hloop).
    rewrite (bind_return _ _ s1 s1 index_rows) by (apply query_return; exact Hidx).
    rewrite Hi.
    rewrite (bind_return _ _ s1 s1 trigger_rows) by (apply query_return; exact Htrg).
    rewrite Ht. reflexivity.
  - intros name t Hin. cbn [s_tables] in Hin.
    destruct (Hlists2 name t Hin) as (t1 & Hin1 & Hidx1 & Htrg1).
    destruct (Hlists1 name t1 Hin1) as (t0 & Hin0 & Htrg0 & Hidx0).
    destruct (Hfresh ltac:(intros n x Hx; rewrite lookup_empty in Hx; discriminate)
                name t0 Hin0) as [Hi0 Ht0].
    split.
    + rewrite Hidx1, Hidx0, Hi0. reflexivity.
    + rewrite Htrg1, Htrg0, Ht0. reflexivity.
Qed.

Lemma extract_schema_attachments_witness :
  exists sc,
    fst (extract_schema (start "app.db" (Readable header_only) toy_engine)) =
      Return (Some sc).
Proof.
  destruct (extract_schema_attachments
              (start "app.db" (Readable header_only) toy_engine) _ _ _
              (or_intror eq_refl) eq_refl eq_refl eq_refl) as (sc & Hrun & _).
  exists sc. exact Hrun.
Defined.

(** ** [calculate_file_hashes]: the chunks make up the file *)

Lemma hash_chunks_spec (fuel : nat) :
  forall (rest : list byte) (md5_hash sha1_hash : HashObject),
    (List.length rest < fuel)%nat ->
    hash_chunks fuel rest md5_hash sha1_hash =
      Some ({| fed := fed md5_hash ++ rest; algorithm := algorithm md5_hash |},
            {| fed := fed sha1_hash ++ rest; algorithm := algorithm sha1_hash |}).
Proof.
  induction fuel as [|fuel IH]; intros rest m s Hfuel; [lia|].
  cbn [hash_chunks].
  destruct (firstn 4096 rest) as [|b chunk] eqn:Hchunk.
  - assert (Hnil : rest = []).
    { destruct rest as [|x rest]; [reflexivity | discriminate Hchunk]. }
    subst rest. rewrite !app_nil_r. destruct m, s. reflexivity.
  - assert (Hlen : (List.length (skipn 4096 rest) < fuel)%nat).
    { rewrite length_skipn. destruct rest; [discriminate Hchunk | cbn [List.length] in *; lia]. }
    rewrite (IH _ _ _ Hlen). cbn [hash_update fed algorithm].
    rewrite <- !app_assoc, <- Hchunk, firstn_skipn. reflexivity.
Qed.

(** X21. The loop that reads the file in chunks of 4096 bytes ends, with
    fuel above the size of the file, and has then fed both hash objects
    every byte of the file, once and in order: the pair returned holds
    the MD5 and SHA-1 digests of the whole content, whatever its size. A
    file that cannot be opened gives the HTTP error 500 with the message
    of the failure. *)
Theorem calculate_file_hashes_whole_file (fuel : nat) (md5 sha1 : list byte -> string)
  (file : File) :
  (forall content, file = Readable content -> (List.length content < fuel)%nat ->
     calculate_file_hashes fuel md5 sha1 file = Some (inr (md5 content, sha1 content))) /\
  (forall err, file = Unreadable err ->
     calculate_file_hashes fuel md5 sha1 file =
       Some (inl (HTTPError 500 (String.append "Error calculating file hashes: " err)))).
Proof.
  split.
  - intros content -> Hfuel. unfold calculate_file_hashes. cbn [open_rb].
    rewrite (hash_chunks_spec fuel content _ _ Hfuel). reflexivity.
  - intros err ->. reflexivity.
Qed.

Lemma calculate_file_hashes_whole_file_witness :
  calculate_file_hashes 101 hexlify ascii_or_dot (Readable header_only) =
    Some (inr (hexlify header_only, ascii_or_dot header_only)).
Proof.
  apply (proj1 (calculate_file_hashes_whole_file 101 hexlify ascii_or_dot
                  (Readable header_only)) _ eq_refl).
  vm_compute. lia.
Defined.
